(** * CiteWise: page-aware chunking and multi-collection retrieval

    A shallow embedding of the algorithmic core of CiteWise:
    - [src/pages/001_Upload_Sources.py]: [load_pdf_pages],
      [split_pages_with_metadata] (module [Upload]);
    - [src/Archive/citewise_utils.py] and [src/pages/002_Find_Citations.py]:
      [Source], [embed_query], [retrieve_top_k], [get_sources],
      [get_top_k_sources], [run_search_logic] (module [Search]).

    The collaborators the program only calls (the sentence-transformer
    model, the ChromaDB client, the langchain splitter, the builtin [int])
    are fields of an environment record; every call to one of them is
    written to a trace, so that statements such as "the model is not
    invoked" or "the store is queried with n_results = ..." are statements
    about that trace. *)

From Stdlib Require Import ZArith QArith Lqa String Ascii Lia Sorted Permutation.
From Stdlib Require Import DecimalString DecimalZ DecimalFacts.
From stdpp Require Import base strings list gmap sorting.

Open Scope string_scope.
Open Scope list_scope.
Open Scope Z_scope.

(* ====================================================================== *)
(** * Python values used by the program *)
(* ====================================================================== *)

Module Py.

(** A [str] is a [string]; a character stands for the code point with the
    same number (code points below 256).  [isspace] is the set of those
    code points for which [str.isspace] holds; [str.strip] removes
    exactly these. *)
Definition isspace (c : ascii) : bool :=
  let n := nat_of_ascii c in
  ((9 <=? n)%nat && (n <=? 13)%nat) || ((28 <=? n)%nat && (n <=? 32)%nat)
  || (n =? 133)%nat || (n =? 160)%nat.

Fixpoint lstrip (s : string) : string :=
  match s with
  | EmptyString => EmptyString
  | String c r => if isspace c then lstrip r else s
  end.

Fixpoint rstrip (s : string) : string :=
  match s with
  | EmptyString => EmptyString
  | String c r =>
      match rstrip r with
      | EmptyString => if isspace c then EmptyString else String c EmptyString
      | r' => String c r'
      end
  end.

(** [s.strip()] *)
Definition strip (s : string) : string := rstrip (lstrip s).

(** Truth value of a [str]: [not s] is [negb (str_bool s)]. *)
Definition str_bool (s : string) : bool :=
  match s with EmptyString => false | String _ _ => true end.

(** [s[-n:]] for a positive [n]: the whole string when it has at most [n]
    characters, its last [n] characters otherwise. *)
Definition last_chars (n : nat) (s : string) : string :=
  substring (String.length s - n) n s.

(** [str(z)] for an [int], as an f-string renders it. *)
Definition str_int (z : Z) : string := NilZero.string_of_int (Z.to_int z).

(** [l[:stop]] on a list. *)
Definition slice_to {A : Type} (l : list A) (stop : Z) : list A :=
  if 0 <=? stop then firstn (Z.to_nat stop) l
  else firstn (Z.to_nat (Z.of_nat (length l) + stop)) l.

(** [max(a, b)], [min(a, b)] on [int] are [Z.max], [Z.min]. *)

(** ** [float]

    A float is a number, finite or infinite, or NaN; a finite float is the
    rational it denotes.  The comparisons are those of Python: every
    comparison with NaN is false, also [nan == nan] and [nan <= nan]. *)
Inductive pyfloat : Type :=
| NegInf
| Finite (q : Q)
| PosInf
| NaN.

Coercion Finite : Q >-> pyfloat.

Definition is_nan (x : pyfloat) : bool :=
  match x with NaN => true | _ => false end.

(** [x < y] *)
Definition float_lt (x y : pyfloat) : bool :=
  match x, y with
  | NaN, _ | _, NaN => false
  | _, NegInf => false
  | NegInf, _ => true
  | PosInf, _ => false
  | Finite _, PosInf => true
  | Finite a, Finite b => negb (Qle_bool b a)
  end.

(** [x <= y] *)
Definition float_le (x y : pyfloat) : bool :=
  match x, y with
  | NaN, _ | _, NaN => false
  | NegInf, _ => true
  | _, PosInf => true
  | Finite a, Finite b => Qle_bool a b
  | _, _ => false
  end.

(** [x == y] *)
Definition float_eq (x y : pyfloat) : bool :=
  match x, y with
  | NegInf, NegInf => true
  | PosInf, PosInf => true
  | Finite a, Finite b => Qeq_bool a b
  | _, _ => false
  end.

(** ** [sorted(l, key=...)]

    [sorted] is stable and compares keys with [<] only.  On keys that [<]
    orders it returns the one list every stable sort returns; that list is
    computed here by the stable insertion sort: an element is put in front
    of the first already sorted element whose key is not smaller than its
    own, so it stays in front of the later elements with an equal key.
    Keys are floats.  NaN is not ordered with any float, and on a list
    with a NaN key the arrangement the builtin returns depends on which
    pairs its merge sort happens to compare; the insertion sort returns
    an arrangement in which no element is smaller than the one before it
    (on [[0.3, nan, 0.1]] both leave the list as it is).  What is stated
    below on the order of the result is stated for keys without NaN. *)
Section Sorted.
Context {A : Type} (key : A -> pyfloat).

(** [key x < key y] *)
Definition key_lt (x y : A) : bool := float_lt (key x) (key y).

Fixpoint insert_sorted (x : A) (l : list A) : list A :=
  match l with
  | [] => [x]
  | y :: r => if key_lt y x then y :: insert_sorted x r else x :: y :: r
  end.

Fixpoint sorted (l : list A) : list A :=
  match l with
  | [] => []
  | x :: r => insert_sorted x (sorted r)
  end.
End Sorted.

(** ** Exceptions

    Only instances of [Exception] are modelled (what [except Exception]
    catches). *)
Inductive exn : Type :=
| ValueError
| KeyError
| IndexError
| AttributeError
| OtherException (msg : string).

Inductive result (A : Type) : Type :=
| Ok (a : A)
| Raise (e : exn).
Arguments Ok {A} a.
Arguments Raise {A} e.

Definition rbind {A B : Type} (r : result A) (f : A -> result B) : result B :=
  match r with
  | Ok a => f a
  | Raise e => Raise e
  end.

(** A [for] loop without collaborator calls, accumulating into [acc]. *)
Fixpoint rfor_each {A B : Type} (body : B -> A -> result B) (l : list A)
  (acc : B) : result B :=
  match l with
  | [] => Ok acc
  | x :: r => rbind (body acc x) (rfor_each body r)
  end.

(** [l[i]] on a list, for an index [i >= 0]. *)
Definition subscript {A : Type} (l : list A) (i : nat) : result A :=
  match l !! i with
  | Some x => Ok x
  | None => Raise IndexError
  end.

(** [enumerate(l)] *)
Fixpoint enumerate_from {A : Type} (start : nat) (l : list A)
  : list (nat * A) :=
  match l with
  | [] => []
  | x :: r => (start, x) :: enumerate_from (S start) r
  end.

Definition enumerate {A : Type} (l : list A) : list (nat * A) :=
  enumerate_from 0 l.

(** A [dict] whose iteration order matters is an association list in
    insertion order; [d[k] = v] replaces the value of an existing key in
    place and appends a new key at the end. *)
Fixpoint dict_set {V : Type} (k : string) (v : V) (d : list (string * V))
  : list (string * V) :=
  match d with
  | [] => [(k, v)]
  | (k', v') :: r =>
      if String.eqb k' k then (k', v) :: r else (k', v') :: dict_set k v r
  end.

End Py.
Export Py.

(* ====================================================================== *)
(** * Calls to the collaborators, and the monad that records them *)
(* ====================================================================== *)

(** A query embedding (a numpy array of floats). *)
Definition vector : Type := list Q.

(** The value a store hit carries as metadata: [None] or a [dict]. *)
Inductive pyobj : Type :=
| PyNone
| PyDict (d : gmap string string).

(** Truth value: [None] and the empty dict are falsy. *)
Definition truthy (o : pyobj) : bool :=
  match o with
  | PyNone => false
  | PyDict d => negb (bool_decide (d = ∅))
  end.

(** The dict [collection.query] returns.  A field is [None] when the dict
    has no such key; [{}] has no key at all. *)
Record QueryResult : Type := mkQueryResult {
  ids : option (list (list string));
  documents : option (list (list string));
  metadatas : option (list (list pyobj));
  distances : option (list (list pyfloat))
}.

Definition empty_result : QueryResult :=
  {| ids := None; documents := None; metadatas := None; distances := None |}.

Inductive Call : Type :=
| EncodeCall (q : string)
| GetOrCreateCall (db_path name : string)
| QueryCall (db_path name : string) (query_embedding : vector) (n_results : Z)
| SplitCall (text : string).

(** A computation returns a value or raises, and leaves the trace of the
    calls it made. *)
Definition M (A : Type) : Type := (result A * list Call)%type.

Definition ret {A : Type} (a : A) : M A := (Ok a, []).

Definition bind {A B : Type} (m : M A) (f : A -> M B) : M B :=
  match m with
  | (Ok a, t) => let (r, t') := f a in (r, t ++ t')
  | (Raise e, t) => (Raise e, t)
  end.

Definition lift {A : Type} (r : result A) : M A := (r, []).

Definition call {A : Type} (c : Call) (r : result A) : M A := (r, [c]).

(** [try: m  except Exception: handler] *)
Definition try_except {A : Type} (m : M A) (handler : M A) : M A :=
  match m with
  | (Ok a, t) => (Ok a, t)
  | (Raise _, t) => let (r, t') := handler in (r, t ++ t')
  end.

Notation "'let*' x ':=' m 'in' k" := (bind m (fun x => k))
  (at level 10, x name, m at level 100, k at level 200).

(** A [for] loop that accumulates into [acc]. *)
Fixpoint for_each {A B : Type} (body : B -> A -> M B) (l : list A) (acc : B)
  : M B :=
  match l with
  | [] => ret acc
  | x :: r => let* acc' := body acc x in for_each body r acc'
  end.

Definition value {A : Type} (m : M A) : result A := fst m.
Definition trace {A : Type} (m : M A) : list Call := snd m.

(* ====================================================================== *)
(** * Find citations: [citewise_utils.py], [002_Find_Citations.py] *)
(* ====================================================================== *)

Module Search.

(** The collaborators of the query path.
    - [py_int s] is the builtin [int(s)] on a [str]: [None] when it
      raises [ValueError];
    - [encode q] is [embedder.encode(q, convert_to_numpy=True)];
    - [get_or_create_collection db_path name] is
      [chromadb.PersistentClient(path=db_path).get_or_create_collection(name)];
    - [query db_path name v n] is
      [collection.query(query_embeddings=[v], n_results=n)] on that
      collection. *)
Record Env : Type := mkEnv {
  py_int : string -> option Z;
  encode : string -> result vector;
  get_or_create_collection : string -> string -> result unit;
  query : string -> string -> vector -> Z -> result QueryResult
}.

(** [class Source]; the fields are set by [Source_init]. *)
Record Source : Type := mkSource {
  filename : string;
  id : string;
  doc : string;
  metadata : pyobj;
  distance : pyfloat
}.

(** [Source.__init__]: [self.metadata = metadata or {}] *)
Definition Source_init (filename id doc : string) (metadata : pyobj)
  (distance : pyfloat) : Source :=
  {| filename := filename;
     id := id;
     doc := doc;
     metadata := if truthy metadata then metadata else PyDict ∅;
     distance := distance |}.

(** [hit.metadata.get(key, default)], as the result page reads the page
    numbers of a hit; [None] has no [get]. *)
Definition metadata_get (m : pyobj) (key default : string) : result string :=
  match m with
  | PyNone => Raise AttributeError
  | PyDict d => Ok (match d !! key with Some v => v | None => default end)
  end.

(** [results[field][0][i]] *)
Definition subscript0 {A : Type} (field : option (list (list A))) (i : nat)
  : result A :=
  match field with
  | None => Raise KeyError
  | Some [] => Raise IndexError
  | Some (l0 :: _) => subscript l0 i
  end.

(** The guard of [get_sources], negated:
    [results and "ids" in results and results["ids"] and results["ids"][0]];
    it is also the test [res and res.get("ids") and res["ids"][0]] of
    [run_search_logic]. *)
Definition has_hits (results : QueryResult) : bool :=
  match ids results with
  | Some ((_ :: _) :: _) => true
  | _ => false
  end.

(** [len(results["ids"][0])] *)
Definition count (results : QueryResult) : nat :=
  match ids results with
  | Some (l0 :: _) => length l0
  | _ => 0%nat
  end.

(** The body of [for i in range(count)]: [sources.append(Source(...))]. *)
Definition append_hit (filename : string) (results : QueryResult)
  (sources : list Source) (i : nat) : result (list Source) :=
  rbind (subscript0 (ids results) i) (fun id =>
  rbind (subscript0 (documents results) i) (fun doc =>
  rbind (subscript0 (metadatas results) i) (fun metadata =>
  rbind (subscript0 (distances results) i) (fun distance =>
  Ok (sources ++ [Source_init filename id doc metadata distance]))))).

(** The body of [for filename, results in results_by_collection.items()]. *)
Definition append_collection (sources : list Source)
  (item : string * QueryResult) : result (list Source) :=
  let '(filename, results) := item in
  if negb (has_hits results) then Ok sources
  else rfor_each (append_hit filename results) (seq 0 (count results)) sources.

Definition get_sources (results_by_collection : list (string * QueryResult))
  : result (list Source) :=
  rfor_each append_collection results_by_collection [].

Definition get_top_k_sources (sources_list : list Source) (num_k : Z)
  : list Source :=
  match sources_list with
  | [] => []
  | _ => slice_to (sorted distance sources_list) num_k
  end.

(** The dict [run_search_logic] returns has exactly one of the keys
    ["warning"], ["error"], ["info"], ["results"]. *)
Inductive Outcome : Type :=
| Warning (msg : string)
| Error (msg : string)
| Info (msg : string)
| Results (top_hits : list Source).

Section WithEnv.
Context (env : Env).

(** [q = (query or "").strip()]; for a [str], [query or ""] is
    [query]. *)
Definition embed_query (query : string) : M (option vector) :=
  let q := strip query in
  if negb (str_bool q) then ret None
  else
    try_except
      (let* v := call (EncodeCall q) (encode env q) in ret (Some v))
      (ret None).

(** [k = max(1, min(int(k), 50))]; [int(k)] is [k] for an [int]. *)
Definition retrieve_top_k (db_path : string)
  (query_embedding : option vector) (k : Z) (collection_name : string)
  : M QueryResult :=
  let* _ := call (GetOrCreateCall db_path collection_name)
                 (get_or_create_collection env db_path collection_name) in
  match query_embedding with
  | None => ret empty_result
  | Some v =>
      let k := Z.max 1 (Z.min k 50) in
      call (QueryCall db_path collection_name v k)
           (query env db_path collection_name v k)
  end.

(** The body of [for name in selected_sources]. *)
Definition retrieve_into (db_path : string) (qvec : vector) (k : Z)
  (results_by_collection : list (string * QueryResult)) (name : string)
  : M (list (string * QueryResult)) :=
  let* res := retrieve_top_k db_path (Some qvec) k name in
  if has_hits res
  then ret (dict_set name res results_by_collection)
  else ret results_by_collection.

(** [run_search_logic] from "Embed query" on, [k] being the parsed
    positive count. *)
Definition search_valid (db_path user_query : string) (k : Z)
  (selected_sources : list string) : M Outcome :=
  let* qvec := embed_query user_query in
  match qvec with
  | None =>
      ret (Error "Could not embed your query. Please try a different query or reload the app.")
  | Some qvec =>
      let* results_by_collection :=
        for_each (retrieve_into db_path qvec k) selected_sources [] in
      match results_by_collection with
      | [] => ret (Warning "No results returned from the selected sources.")
      | _ =>
          let* flat_sources := lift (get_sources results_by_collection) in
          let top_hits := get_top_k_sources flat_sources k in
          match top_hits with
          | [] => ret (Info "No matches found.")
          | _ => ret (Results top_hits)
          end
      end
  end.

(** [try: k = int(num_k); if k <= 0: raise ValueError
     except ValueError: ...]: the parsed count, or [None] when the
    handler runs. *)
Definition positive_int (num_k : string) : option Z :=
  match py_int env num_k with
  | Some k => if k <=? 0 then None else Some k
  | None => None
  end.

Definition run_search_logic (db_path user_query num_k : string)
  (selected_sources : list string) : M Outcome :=
  match selected_sources with
  | [] => ret (Warning "Please select at least one source to search.")
  | _ =>
      if negb (str_bool (strip user_query))
      then ret (Warning "Please enter a query.")
      else
        match positive_int num_k with
        | None =>
            ret (Warning "Please enter a valid positive number for matches.")
        | Some k => search_valid db_path user_query k selected_sources
        end
  end.

End WithEnv.

End Search.

(* ====================================================================== *)
(** * Upload sources: [001_Upload_Sources.py] *)
(* ====================================================================== *)

Module Upload.

(** The arguments [RecursiveCharacterTextSplitter] is built with. *)
Record SplitterConfig : Type := mkSplitterConfig {
  chunk_size : Z;
  chunk_overlap : Z;
  separators : list string
}.

Definition newline : string := String (ascii_of_nat 10) EmptyString.

(** The module-level [splitter]. *)
Definition splitter : SplitterConfig :=
  {| chunk_size := 1000;
     chunk_overlap := 200;
     separators := [newline +:+ newline; newline; ". "; " "] |}.

(** The collaborators of the ingestion path.
    - [clean_text raw] is [clean_text(raw)] (regular expressions);
    - [split_text cfg text] is [split_text(text)] of the langchain
      splitter built with [cfg]. *)
Record Env : Type := mkEnv {
  clean_text : string -> string;
  split_text : SplitterConfig -> string -> list string
}.

(** The page dicts [load_pdf_pages] builds. *)
Record Page : Type := mkPage {
  page_num : list Z;
  source : string;
  text : string
}.

(** The chunk dicts [split_pages_with_metadata] builds (keys ["page_num"],
    ["source"], ["chunk_id"], ["text"]). *)
Record Chunk : Type := mkChunk {
  chunk_page_num : list Z;
  chunk_source : string;
  chunk_id : string;
  chunk_text : string
}.

Section WithEnv.
Context (env : Env).

(** [filename] is [Path(uploaded_file.name).stem]; [doc] is the raw text
    [page.get_text()] of every page of the opened PDF, or [None] when
    the upload is empty or cannot be opened as a PDF. *)
Definition load_pdf_pages (filename : string) (doc : option (list string))
  : list Page :=
  match doc with
  | None => []
  | Some raw_texts =>
      fold_left
        (fun pages '(i, raw_text) =>
           let cleaned_text := clean_text env raw_text in
           if str_bool cleaned_text
           then pages ++ [ {| page_num := [Z.of_nat i + 1];
                              source := filename;
                              text := cleaned_text |} ]
           else pages)
        (enumerate raw_texts) []
  end.

(** [pages[i - 1]["text"][-300:] + " " + text] when [i > 0], else
    [text]: the text handed to the splitter for page [i]. *)
Definition text_to_split (pages : list Page) (i : nat) (page : Page)
  : result string :=
  if (0 <? i)%nat
  then rbind (subscript pages (i - 1)) (fun prev =>
       Ok (last_chars 300 (text prev) +:+ " " +:+ text page))
  else Ok (text page).

(** The body of [for j, part in enumerate(split_parts)]. *)
Definition chunk_part (pages : list Page) (i : nat) (filename : string)
  (curr_page_num : Z) (chunks : list Chunk) (item : nat * string)
  : M (list Chunk) :=
  let '(j, part) := item in
  if negb (str_bool (strip part)) then ret chunks
  else
    let* page_nums :=
      lift (if (0 <? i)%nat && (j =? 0)%nat
            then rbind (subscript pages (i - 1)) (fun prev =>
                 rbind (subscript (page_num prev) 0) (fun prev_num =>
                 Ok [prev_num; curr_page_num]))
            else Ok [curr_page_num]) in
    ret (chunks ++
         [ {| chunk_page_num := page_nums;
              chunk_source := filename;
              chunk_id := filename +:+ "_p" +:+ str_int curr_page_num
                          +:+ "_c" +:+ str_int (Z.of_nat j);
              chunk_text := part |} ]).

(** The body of [for i, page in enumerate(pages)]. *)
Definition chunk_page (pages : list Page) (chunks : list Chunk)
  (item : nat * Page) : M (list Chunk) :=
  let '(i, page) := item in
  let* curr_page_num := lift (subscript (page_num page) 0) in
  let filename := source page in
  let* text := lift (text_to_split pages i page) in
  let* split_parts :=
    call (SplitCall text) (Ok (split_text env splitter text)) in
  for_each (chunk_part pages i filename curr_page_num)
           (enumerate split_parts) chunks.

Definition split_pages_with_metadata (pages : list Page) : M (list Chunk) :=
  for_each (chunk_page pages) (enumerate pages) [].

(** [ids, documents, metadatas] *)
Definition prep_for_embedding (chunks : list Chunk)
  : list string * list string * list (gmap string string) :=
  (map chunk_id chunks,
   map chunk_text chunks,
   map (fun c =>
          <["source" := chunk_source c]>
          (<["page_num" := String.concat "," (map str_int (chunk_page_num c))]>
          (<["chunk_id" := chunk_id c]> ∅)))
       chunks).

(** The chunking steps of [embed_file_stream_to_chromadb]:
    [pages = load_pdf_pages(uploaded_file)] then
    [chunks = split_pages_with_metadata(pages)]. *)
Definition document_chunks (filename : string) (doc : option (list string))
  : M (list Chunk) :=
  split_pages_with_metadata (load_pdf_pages filename doc).

End WithEnv.

End Upload.

(* ====================================================================== *)
(** * Vocabulary of the statements about the search *)
(* ====================================================================== *)

Section Ranking.
Context {A : Type} (key : A -> pyfloat).

(** The order [sorted] establishes between an element and a later one:
    [key x <= key y]. *)
Definition key_le (x y : A) : Prop := float_le (key x) (key y) = true.

(** The elements whose key is [d] ([key a == d]), in the order of the
    list. *)
Definition with_key (d : pyfloat) (l : list A) : list A :=
  List.filter (fun a => float_eq (key a) d) l.

(** No key of [l] is NaN. *)
Definition numbers (l : list A) : Prop :=
  Forall (fun a => is_nan (key a) = false) l.
End Ranking.

(** No distance of an answer of the store is NaN. *)
Definition numeric (results : QueryResult) : Prop :=
  match distances results with
  | Some lists => Forall (Forall (fun d => is_nan d = false)) lists
  | None => True
  end.

(** The count [retrieve_top_k] hands to [collection.query]. *)
Definition clamp (k : Z) : Z := Z.max 1 (Z.min k 50).

Definition clamped_query (k : Z) (c : Call) : Prop :=
  match c with
  | QueryCall _ _ _ n => n = clamp k /\ 1 <= n <= 50
  | _ => True
  end.

(** The outcomes of [run_search_logic] with a fixed message. *)
Definition select_warning : Search.Outcome :=
  Search.Warning "Please select at least one source to search.".
Definition query_warning : Search.Outcome :=
  Search.Warning "Please enter a query.".
Definition count_warning : Search.Outcome :=
  Search.Warning "Please enter a valid positive number for matches.".
Definition no_results_warning : Search.Outcome :=
  Search.Warning "No results returned from the selected sources.".
Definition embed_error : Search.Outcome :=
  Search.Error "Could not embed your query. Please try a different query or reload the app.".
Definition no_matches_info : Search.Outcome :=
  Search.Info "No matches found.".

(** [item] is a collection of the selection together with the non-empty
    answer the store gave for it. *)
Definition returned_by (env : Search.Env) (db_path : string) (v : vector)
  (k : Z) (selected_sources : list string) (item : string * QueryResult)
  : Prop :=
  item.1 ∈ selected_sources
  /\ Search.get_or_create_collection env db_path item.1 = Ok ()
  /\ Search.query env db_path item.1 v (clamp k) = Ok item.2
  /\ Search.has_hits item.2 = true.

(** [s] is a hit of the answer [item.2], flattened under the name
    [item.1]. *)
Definition hit_of (item : string * QueryResult) (s : Search.Source) : Prop :=
  exists l0 rest i d m dist,
    ids item.2 = Some (l0 :: rest) /\ i ∈ l0
    /\ s = Search.Source_init item.1 i d m dist.

(** The collection name and id of the records one entry of
    [results_by_collection] flattens to, in the order of its answer. *)
Definition flattened (item : string * QueryResult) : list (string * string) :=
  if Search.has_hits item.2
  then match ids item.2 with
       | Some (l0 :: _) => map (pair item.1) l0
       | _ => []
       end
  else [].

Definition name_and_id (s : Search.Source) : string * string :=
  (Search.filename s, Search.id s).

(** What [search_valid] returns once [results_by_collection] is known. *)
Definition merge_outcome (k : Z)
  (results_by_collection : list (string * QueryResult))
  : result Search.Outcome :=
  match results_by_collection with
  | [] => Ok no_results_warning
  | _ =>
      rbind (Search.get_sources results_by_collection) (fun flat_sources =>
      match Search.get_top_k_sources flat_sources k with
      | [] => Ok no_matches_info
      | top_hits => Ok (Search.Results top_hits)
      end)
  end.

(* ====================================================================== *)
(** * Vocabulary of the statements about chunking *)
(* ====================================================================== *)

Module Chunking.
Import Upload.

Section WithEnv.
Context (env : Env) (filename : string).

(** The page dict [load_pdf_pages] builds for the page at index [i] of
    the document, whose raw text is [raw_text]. *)
Definition page_of (item : nat * string) : Page :=
  {| page_num := [Z.of_nat item.1 + 1];
     source := filename;
     text := clean_text env item.2 |}.

(** The page has text once cleaned. *)
Definition has_text (item : nat * string) : bool :=
  str_bool (clean_text env item.2).

(** [page["page_num"][0]] of a page dict of [load_pdf_pages]. *)
Definition number (page : Page) : Z := hd 0 (page_num page).

(** The text handed to the splitter for page [i] of [pages]. *)
Definition submitted (pages : list Page) (item : nat * Page) : string :=
  match item.1 with
  | O => text item.2
  | S i' =>
      match pages !! i' with
      | Some prev => last_chars 300 (text prev) +:+ " " +:+ text item.2
      | None => text item.2
      end
  end.

(** [f"{filename}_p{n}_c{j}"] *)
Definition id_of (key : Z * nat) : string :=
  filename +:+ "_p" +:+ str_int key.1 +:+ "_c" +:+ str_int (Z.of_nat key.2).

Definition nonblank (item : nat * string) : bool := str_bool (strip item.2).

(** The page number and the indices [j] of the chunks emitted for a
    page whose text was split into [parts]. *)
Definition emitted_keys (n : Z) (parts : list string) : list (Z * nat) :=
  map (fun item : nat * string => (n, item.1))
      (List.filter nonblank (enumerate parts)).

(** The parts the splitter returns for page [i] of [pages]. *)
Definition parts_of (pages : list Page) (item : nat * Page) : list string :=
  split_text env splitter (submitted pages item).

(** The chunk emitted for the part [j] of page [i], if it is not
    blank. *)
Definition chunks_of_part (pages : list Page) (item : nat * Page)
  (part : nat * string) : list Chunk :=
  if nonblank part
  then [ {| chunk_page_num :=
              match item.1, part.1 with
              | S i', O =>
                  match pages !! i' with
                  | Some prev => [number prev; number item.2]
                  | None => [number item.2]
                  end
              | _, _ => [number item.2]
              end;
            chunk_source := source item.2;
            chunk_id := source item.2 +:+ "_p" +:+ str_int (number item.2)
                        +:+ "_c" +:+ str_int (Z.of_nat part.1);
            chunk_text := part.2 |} ]
  else [].

Definition chunks_of_page (pages : list Page) (item : nat * Page)
  : list Chunk :=
  flat_map (chunks_of_part pages item) (enumerate (parts_of pages item)).


End WithEnv.
End Chunking.

(** A page dict as [load_pdf_pages] builds it: one page number. *)
Definition one_number (page : Upload.Page) : Prop :=
  Upload.page_num page = [Chunking.number page].

(** No character of [s] is an underscore. *)
Fixpoint underscore_free (s : string) : Prop :=
  match s with
  | EmptyString => True
  | String c r => c <> "_"%char /\ underscore_free r
  end.

(* ====================================================================== *)
(** * Example inputs *)
(* ====================================================================== *)

Module Samples.

Definition paperA_then_paperB : list Search.Source :=
  [ Search.Source_init "paperA" "a0" "alpha" PyNone (1 # 10);
    Search.Source_init "paperA" "a1" "beta" PyNone (3 # 10);
    Search.Source_init "paperB" "b0" "gamma" PyNone (1 # 10);
    Search.Source_init "paperB" "b1" "delta" PyNone (4 # 10) ].

(** The records of a store answer one of whose distances is NaN. *)
Definition nan_in_the_middle : list Search.Source :=
  [ Search.Source_init "paperA" "a0" "alpha" PyNone (3 # 10);
    Search.Source_init "paperA" "a1" "beta" PyNone NaN;
    Search.Source_init "paperB" "b0" "gamma" PyNone (1 # 10) ].

(** An answer of the store with the given ids and distances. *)
Definition answer (hits : list (string * Q)) : QueryResult :=
  {| ids := Some [map fst hits];
     documents := Some [map (fun _ => "text") hits];
     metadatas := Some [map (fun _ => PyNone) hits];
     distances := Some [map (fun hit => Finite hit.2) hits] |}.

(** [int] on plain decimal numerals, which is all the examples use. *)
Definition decimal_int (s : string) : option Z :=
  option_map Z.of_int (NilZero.int_of_string s).

(** A store with the collections ["paperA"] and ["paperB"] of the spec's
    scenario and an empty collection ["blank"]; querying any other
    collection raises (as the store does for a collection whose vectors
    have another dimension than the query).  The model fails on the query
    ["boom"]. *)
Definition library : Search.Env :=
  {| Search.py_int := decimal_int;
     Search.encode := fun q =>
       if String.eqb q "boom" then Raise (OtherException "model")
       else Ok [1%Q];
     Search.get_or_create_collection := fun _ _ => Ok ();
     Search.query := fun _ name _ _ =>
       if String.eqb name "paperA"
       then Ok (answer [("a0", 10 # 100); ("a1", 30 # 100)])
       else if String.eqb name "paperB"
       then Ok (answer [("b0", 5 # 100); ("b1", 40 # 100)])
       else if String.eqb name "blank"
       then Ok (answer [])
       else Raise (OtherException "store") |}.

(** A document whose first page has 250 characters. *)
Definition long_page : string := string_of_list_ascii (repeat "a"%char 250).

(** A splitter that returns its input as one part, after trimmed text
    cleaning. *)
Definition whole_text : Upload.Env :=
  {| Upload.clean_text := strip;
     Upload.split_text := fun _ text => [text] |}.

(** A splitter whose first part is blank. *)
Definition blank_first : Upload.Env :=
  {| Upload.clean_text := strip;
     Upload.split_text := fun _ text => ["  "; text] |}.

End Samples.

(* ====================================================================== *)
(** * Text cleaning: [clean_text] of [001_Upload_Sources.py] *)
(* ====================================================================== *)

Module TextCleaner.

(** [\d] on code points below 256: the ASCII digits. *)
Definition isdigit (c : ascii) : bool :=
  let n := nat_of_ascii c in (48 <=? n)%nat && (n <=? 57)%nat.

(** The number of leading digits of [s]. *)
Fixpoint digit_run (s : string) : nat :=
  match s with
  | EmptyString => 0%nat
  | String c r => if isdigit c then S (digit_run r) else 0%nat
  end.

(** [s[n:]] *)
Fixpoint drop_chars (n : nat) (s : string) : string :=
  match n, s with
  | O, _ => s
  | S k, EmptyString => EmptyString
  | S k, String _ r => drop_chars k r
  end.

(** The length of the match of [\(cid:\d+\)] at the start of [s], if there
    is one: ["(cid:"], then the longest run of digits, which must not be
    empty, then [")"].  (A shorter run of digits would be followed by a
    digit, not by [")"], so the longest run is the only candidate.) *)
Definition cid_match (s : string) : option nat :=
  if String.prefix "(cid:" s
  then
    let n := digit_run (drop_chars 5 s) in
    if (0 <? n)%nat && String.prefix ")" (drop_chars (5 + n) s)
    then Some (5 + n + 1)%nat
    else None
  else None.

(** [re.sub(r"\(cid:\d+\)", "", s)]: the text is scanned from the left; a
    match is left out and the scan goes on behind it, any other character
    is kept.  [skip] counts the characters of the current match that are
    still to be left out. *)
Fixpoint remove_cid_from (skip : nat) (s : string) : string :=
  match s with
  | EmptyString => EmptyString
  | String c r =>
      match skip with
      | S k => remove_cid_from k r
      | O =>
          match cid_match s with
          | Some n => remove_cid_from (n - 1) r
          | None => String c (remove_cid_from 0 r)
          end
      end
  end.

Definition remove_cid (s : string) : string := remove_cid_from 0 s.

(** [s.replace("\n", " ")] *)
Fixpoint replace_newline (s : string) : string :=
  match s with
  | EmptyString => EmptyString
  | String c r =>
      String (if Ascii.eqb c (ascii_of_nat 10) then " "%char else c)
             (replace_newline r)
  end.

(** [re.sub(r"\s+", " ", s)]: every maximal run of whitespace becomes one
    space.  [in_run] tells that the previous character was whitespace. *)
Fixpoint collapse_from (in_run : bool) (s : string) : string :=
  match s with
  | EmptyString => EmptyString
  | String c r =>
      if isspace c
      then if in_run then collapse_from true r
           else String " " (collapse_from true r)
      else String c (collapse_from false r)
  end.

Definition collapse_whitespace (s : string) : string := collapse_from false s.

Definition clean_text (text : string) : string :=
  let text := remove_cid text in
  let text := replace_newline text in
  strip (collapse_whitespace text).

(** The ingestion collaborators with the program's own [clean_text]. *)
Definition with_splitter
  (split_text : Upload.SplitterConfig -> string -> list string) : Upload.Env :=
  {| Upload.clean_text := clean_text; Upload.split_text := split_text |}.

End TextCleaner.

(* ====================================================================== *)
(** * Ingestion: [embed_file_stream_to_chromadb] *)
(* ====================================================================== *)

Module Ingest.

(** What the ingestion of one file does to the outside. *)
Inductive Event : Type :=
| EnsureDbPath
| Chunker (c : Call)
| EncodeBatch (documents : list string)
| GetOrCreate (db_path name : string)
| Add (db_path name : string) (documents : list string)
      (embeddings : list vector) (metadatas : list (gmap string string))
      (ids : list string).

(** The collaborators of the ingestion path.
    - [DB_PATH] is the module constant;
    - [ensure_db_path] is [ensure_db_path()] (it makes the directory);
    - [encode_batch documents] is
      [embedder.encode(documents, convert_to_numpy=True, ...)];
    - [get_or_create_collection db_path name] is
      [chromadb.PersistentClient(path=db_path).get_or_create_collection(name=name)];
    - [add db_path name documents embeddings metadatas ids] is
      [collection.add(...)] on that collection. *)
Record Env : Type := mkEnv {
  DB_PATH : string;
  ensure_db_path : result unit;
  encode_batch : list string -> result (list vector);
  get_or_create_collection : string -> string -> result unit;
  add : string -> string -> list string -> list vector ->
        list (gmap string string) -> list string -> result unit
}.

(** A computation of the ingestion path: a value or an exception, and the
    events in order. *)
Definition I (A : Type) : Type := (result A * list Event)%type.

Definition iret {A : Type} (a : A) : I A := (Ok a, []).

Definition ibind {A B : Type} (m : I A) (f : A -> I B) : I B :=
  match m with
  | (Ok a, t) => let (r, t') := f a in (r, t ++ t')
  | (Raise e, t) => (Raise e, t)
  end.

Definition icall {A : Type} (ev : Event) (r : result A) : I A := (r, [ev]).

(** A computation of the chunker, its calls marked [Chunker]. *)
Definition chunking {A : Type} (m : M A) : I A := (fst m, map Chunker (snd m)).

(** [try: m  except Exception: handler] *)
Definition itry {A : Type} (m : I A) (handler : I A) : I A :=
  match m with
  | (Ok a, t) => (Ok a, t)
  | (Raise _, t) => let (r, t') := handler in (r, t ++ t')
  end.

Notation "'let+' x ':=' m 'in' k" := (ibind m (fun x => k))
  (at level 10, x name, m at level 100, k at level 200).

(** [uploaded_file] is given by [filename], the stem of its name, and
    [doc], the raw page texts of the opened PDF (see [load_pdf_pages]).
    The messages shown with [st.error] are not part of the model. *)
Definition embed_file_stream_to_chromadb (uenv : Upload.Env) (env : Env)
  (filename : string) (doc : option (list string)) : I Z :=
  let+ _ := icall EnsureDbPath (ensure_db_path env) in
  let pages := Upload.load_pdf_pages uenv filename doc in
  match pages with
  | [] => iret 0
  | _ =>
      let+ chunks := chunking (Upload.split_pages_with_metadata uenv pages) in
      match chunks with
      | [] => iret 0
      | _ =>
          let '(ids, documents, metadatas) := Upload.prep_for_embedding chunks in
          let+ embeddings :=
            itry (let+ e := icall (EncodeBatch documents)
                                  (encode_batch env documents) in
                  iret (Some e))
                 (iret None) in
          match embeddings with
          | None => iret 0
          | Some embeddings =>
              let+ stored :=
                itry (let+ _ := icall (GetOrCreate (DB_PATH env) filename)
                                      (get_or_create_collection env (DB_PATH env)
                                                                filename) in
                      let+ _ := icall (Add (DB_PATH env) filename documents
                                           embeddings metadatas ids)
                                      (add env (DB_PATH env) filename documents
                                           embeddings metadatas ids) in
                      iret true)
                     (iret false) in
              if stored then iret (Z.of_nat (length documents)) else iret 0
          end
      end
  end.

End Ingest.

(* ====================================================================== *)
(** * Vocabulary of the further statements *)
(* ====================================================================== *)

(** Every whitespace character of [s] is a plain space. *)
Fixpoint only_plain_spaces (s : string) : Prop :=
  match s with
  | EmptyString => True
  | String c r => (isspace c = true -> c = " "%char) /\ only_plain_spaces r
  end.

(** The first character of [s] is whitespace. *)
Definition starts_with_space (s : string) : bool :=
  match s with
  | EmptyString => false
  | String c _ => isspace c
  end.

(** No two whitespace characters of [s] are next to each other. *)
Fixpoint no_double_space (s : string) : Prop :=
  match s with
  | EmptyString => True
  | String c r =>
      (isspace c = true -> starts_with_space r = false) /\ no_double_space r
  end.

(** The last character of [s] is whitespace. *)
Fixpoint ends_with_space (s : string) : bool :=
  match s with
  | EmptyString => false
  | String c EmptyString => isspace c
  | String _ r => ends_with_space r
  end.

(** Words separated by single plain spaces, nothing around them. *)
Definition tidy (s : string) : Prop :=
  only_plain_spaces s /\ no_double_space s
  /\ starts_with_space s = false /\ ends_with_space s = false.

(** [s] has no opening parenthesis. *)
Fixpoint no_open_paren (s : string) : Prop :=
  match s with
  | EmptyString => True
  | String c r => c <> "("%char /\ no_open_paren r
  end.

(** [s] is a non-empty run of digits. *)
Definition numeral (s : string) : Prop :=
  s <> EmptyString /\ TextCleaner.digit_run s = String.length s.

(** The id, document, metadata and distance at index [i] of an answer, when
    all four are there. *)
Definition hit_at (results : QueryResult) (i : nat)
  : option (string * string * pyobj * pyfloat) :=
  match ids results, documents results, metadatas results, distances results with
  | Some (l0 :: _), Some (docs0 :: _), Some (metas0 :: _), Some (dists0 :: _) =>
      match l0 !! i, docs0 !! i, metas0 !! i, dists0 !! i with
      | Some id, Some doc, Some m, Some dist => Some (id, doc, m, dist)
      | _, _, _, _ => None
      end
  | _, _, _, _ => None
  end.

(** The record [Source(...)] built from a hit. *)
Definition source_of_hit (filename : string)
  (hit : string * string * pyobj * pyfloat) : Search.Source :=
  let '(id, doc, m, dist) := hit in Search.Source_init filename id doc m dist.

(** An answer with hits has, for every id of its first list, a document, a
    metadata and a distance at the same index. *)
Definition aligned (results : QueryResult) : Prop :=
  Search.has_hits results = true ->
  forall i, (i < Search.count results)%nat -> is_Some (hit_at results i).

(** The records an entry of [results_by_collection] flattens to. *)
Definition sources_of (item : string * QueryResult) : list Search.Source :=
  if Search.has_hits item.2
  then omap (fun i => source_of_hit item.1 <$> hit_at item.2 i)
            (seq 0 (Search.count item.2))
  else [].

(** Every character of [s] is whitespace. *)
Fixpoint all_whitespace (s : string) : bool :=
  match s with
  | EmptyString => true
  | String c r => isspace c && all_whitespace r
  end.

(** The store calls of a search over [selected_sources]: each collection
    is opened, then queried. *)
Definition store_calls (db_path : string) (v : vector) (k : Z)
  (selected_sources : list string) : list Call :=
  flat_map (fun name => [GetOrCreateCall db_path name;
                         QueryCall db_path name v (clamp k)])
           selected_sources.

(** The key of a chunk id: the page number and the index in the page. *)
Definition key_lt_lex (a b : Z * nat) : Prop :=
  a.1 < b.1 \/ (a.1 = b.1 /\ (a.2 < b.2)%nat).

(** All keys of a document's chunks, in chunk order. *)
Definition document_keys (env : Upload.Env) (pages : list Upload.Page)
  : list (Z * nat) :=
  flat_map (fun item : nat * Upload.Page =>
              Chunking.emitted_keys (Chunking.number item.2)
                                    (Chunking.parts_of env pages item))
           (enumerate pages).

(** The metadata dict [prep_for_embedding] builds for a chunk. *)
Definition chunk_metadata (c : Upload.Chunk) : gmap string string :=
  <["source" := Upload.chunk_source c]>
  (<["page_num" := String.concat "," (map str_int (Upload.chunk_page_num c))]>
  (<["chunk_id" := Upload.chunk_id c]> ∅)).

(** The event is a call to the store. *)
Definition is_store_event (ev : Ingest.Event) : bool :=
  match ev with
  | Ingest.GetOrCreate _ _ | Ingest.Add _ _ _ _ _ _ => true
  | _ => false
  end.

(** The event is a call to the embedding model. *)
Definition is_model_event (ev : Ingest.Event) : bool :=
  match ev with
  | Ingest.EncodeBatch _ => true
  | _ => false
  end.

(** The events of chunking the pages of a document: one call of the
    splitter per page. *)
Definition split_events (pages : list Upload.Page) : list Ingest.Event :=
  map (fun item => Ingest.Chunker (SplitCall (Chunking.submitted pages item)))
      (enumerate pages).

(** The event is the write to the store. *)
Definition is_add_event (ev : Ingest.Event) : bool :=
  match ev with
  | Ingest.Add _ _ _ _ _ _ => true
  | _ => false
  end.

(** A model and a store for ingestion examples; [model_works] and
    [store_works] tell whether [encode] and [add] succeed. *)
Definition sample_store (model_works store_works : bool) : Ingest.Env :=
  {| Ingest.DB_PATH := "./chroma_db";
     Ingest.ensure_db_path := Ok ();
     Ingest.encode_batch := fun documents =>
       if model_works then Ok (map (fun _ => [1%Q]) documents)
       else Raise (OtherException "model");
     Ingest.get_or_create_collection := fun _ _ => Ok ();
     Ingest.add := fun _ _ _ _ _ _ =>
       if store_works then Ok () else Raise (OtherException "store") |}.

(** A document of three pages, the second without text. *)
Definition sample_document : option (list string) :=
  Some ["first page"; "   "; "third page"].



(** A selection without its repetitions: every name where it comes
    first. *)
Fixpoint first_occurrences (names : list string) : list string :=
  match names with
  | [] => []
  | name :: rest =>
      name :: List.filter (fun other => negb (String.eqb other name))
                          (first_occurrences rest)
  end.

(* ====================================================================== *)
(** * Facts about the Python values *)
(* ====================================================================== *)

Lemma float_lt_le (x y : pyfloat) :
  float_lt x y = true -> float_le x y = true.
Proof.
  destruct x as [|a| |], y as [|b| |]; simpl; try easy.
  rewrite negb_true_iff, <- not_true_iff_false, !Qle_bool_iff.
  intros H. now apply Qlt_le_weak, Qnot_le_lt.
Qed.

Lemma float_lt_false (x y : pyfloat) :
  is_nan x = false -> is_nan y = false ->
  float_lt y x = false -> float_le x y = true.
Proof.
  destruct x as [|a| |], y as [|b| |]; simpl; try easy.
  intros _ _. now rewrite negb_false_iff.
Qed.

Lemma float_le_trans (x y z : pyfloat) :
  float_le x y = true -> float_le y z = true -> float_le x z = true.
Proof.
  destruct x as [|a| |], y as [|b| |], z as [|c| |]; simpl; try easy.
  rewrite !Qle_bool_iff. apply Qle_trans.
Qed.

Lemma float_le_numbers (x y : pyfloat) :
  float_le x y = true -> is_nan x = false /\ is_nan y = false.
Proof. now destruct x, y. Qed.

(** Two floats equal to a third are not in the relation [<]. *)
Lemma float_lt_not_eq (x y d : pyfloat) :
  float_lt y x = true -> float_eq y d = true -> float_eq x d = true -> False.
Proof.
  destruct x as [|a| |], y as [|b| |], d as [|c| |]; simpl; try easy.
  rewrite negb_true_iff, <- not_true_iff_false, Qle_bool_iff.
  intros Hlt Hy Hx. apply Qeq_bool_iff in Hy, Hx. apply Hlt.
  rewrite Hx, Hy. apply Qle_refl.
Qed.

Section SortedFacts.
Context {A : Type} (key : A -> pyfloat).

Lemma insert_sorted_perm (x : A) (l : list A) :
  Permutation (insert_sorted key x l) (x :: l).
Proof.
  induction l as [|y r IH]; simpl; [reflexivity|].
  destruct (key_lt key y x); [|reflexivity].
  rewrite IH. apply perm_swap.
Qed.

Lemma sorted_perm (l : list A) : Permutation (sorted key l) l.
Proof.
  induction l as [|x r IH]; simpl; [reflexivity|].
  rewrite insert_sorted_perm. now constructor.
Qed.

Lemma sorted_length (l : list A) : length (sorted key l) = length l.
Proof. apply Permutation_length, sorted_perm. Qed.

Lemma sorted_numbers (l : list A) : numbers key l -> numbers key (sorted key l).
Proof. unfold numbers. now rewrite sorted_perm. Qed.

Lemma insert_sorted_strongly (x : A) (l : list A) :
  is_nan (key x) = false -> numbers key l ->
  StronglySorted (key_le key) l ->
  StronglySorted (key_le key) (insert_sorted key x l).
Proof.
  intros Hx Hl. induction 1 as [|y r Hr IH Hy]; simpl.
  - repeat constructor.
  - apply Forall_cons in Hl as [Hny Hl].
    destruct (key_lt key y x) eqn:E.
    + constructor; [now apply IH|].
      rewrite insert_sorted_perm. constructor; [|exact Hy].
      now apply float_lt_le.
    + apply (float_lt_false _ _ Hx Hny) in E.
      constructor; [now constructor|].
      constructor; [exact E|].
      eapply Forall_impl; [exact Hy|].
      intros z Hz. unfold key_le in *. eapply float_le_trans; eassumption.
Qed.

(** On keys without NaN the result is ascending. *)
Lemma sorted_strongly (l : list A) :
  numbers key l -> StronglySorted (key_le key) (sorted key l).
Proof.
  induction l as [|x r IH]; simpl; [constructor|].
  intros Hl. apply Forall_cons in Hl as [Hx Hr].
  apply insert_sorted_strongly; [exact Hx|now apply sorted_numbers|now apply IH].
Qed.

(** Inserting moves an element only past elements with a smaller key. *)
Lemma with_key_insert_sorted (d : pyfloat) (x : A) (l : list A) :
  with_key key d (insert_sorted key x l) = with_key key d (x :: l).
Proof.
  induction l as [|y r IH]; [reflexivity|].
  simpl insert_sorted. destruct (key_lt key y x) eqn:E; [|reflexivity].
  unfold with_key in *. simpl in *. rewrite IH.
  destruct (float_eq (key y) d) eqn:Ey, (float_eq (key x) d) eqn:Ex;
    try reflexivity.
  exfalso. exact (float_lt_not_eq _ _ _ E Ey Ex).
Qed.

(** [sorted] is stable. *)
Lemma with_key_sorted (d : pyfloat) (l : list A) :
  with_key key d (sorted key l) = with_key key d l.
Proof.
  induction l as [|x r IH]; [reflexivity|].
  simpl sorted. rewrite with_key_insert_sorted.
  unfold with_key in *. simpl. now rewrite IH.
Qed.

Lemma strongly_sorted_adjacent (l : list A) (i : nat) (a b : A) :
  StronglySorted (key_le key) l ->
  l !! i = Some a -> l !! S i = Some b -> key_le key a b.
Proof.
  intros Hs. revert i. induction Hs as [|y r Hr IH Hy]; intros i Ha Hb.
  - discriminate.
  - destruct i as [|i]; simpl in *.
    + injection Ha as <-. rewrite Forall_forall in Hy. apply Hy.
      eapply list_elem_of_lookup_2. exact Hb.
    + eapply IH; eassumption.
Qed.

(** A list of two or more elements that is ascending has no NaN key. *)
Lemma strongly_sorted_numbers (l : list A) :
  StronglySorted (key_le key) l -> (2 <= length l)%nat -> numbers key l.
Proof.
  intros Hs Hlen. destruct Hs as [|x r Hr Hx]; [constructor|].
  destruct r as [|y r]; [simpl in Hlen; lia|].
  assert (Hall : Forall (fun a => is_nan (key x) = false
                                  /\ is_nan (key a) = false) (y :: r)).
  { eapply Forall_impl; [exact Hx|]. intros a Ha.
    exact (float_le_numbers _ _ Ha). }
  constructor.
  - apply Forall_cons in Hall as [[H _] _]. exact H.
  - eapply Forall_impl; [exact Hall|]. now intros a [_ H].
Qed.

Lemma with_key_take_prefix (d : pyfloat) (n : nat) (l : list A) :
  with_key key d (firstn n l) `prefix_of` with_key key d l.
Proof.
  exists (with_key key d (skipn n l)). unfold with_key.
  rewrite <- List.filter_app. now rewrite firstn_skipn.
Qed.
End SortedFacts.

(* ====================================================================== *)
(** * Global re-rank *)
(* ====================================================================== *)

Lemma slice_to_nonneg {A : Type} (l : list A) (stop : Z) :
  0 <= stop -> slice_to l stop = firstn (Z.to_nat stop) l.
Proof.
  intros H. unfold slice_to. destruct (0 <=? stop) eqn:E; [reflexivity|].
  apply Z.leb_gt in E. lia.
Qed.

Lemma get_top_k_sources_positive (sources_list : list Search.Source) (num_k : Z) :
  0 < num_k ->
  Search.get_top_k_sources sources_list num_k
  = firstn (Z.to_nat num_k) (sorted Search.distance sources_list).
Proof.
  intros Hk. unfold Search.get_top_k_sources.
  destruct sources_list as [|s r].
  - now rewrite firstn_nil.
  - apply slice_to_nonneg. lia.
Qed.

(** C1, as the code has it.  For records whose distances are numbers
    (none is NaN) and a positive [num_k], [get_top_k_sources] returns the
    first [num_k] entries of a stable ascending sort of its input by
    distance: there is a rearrangement [s] of the input that is ascending
    in distance and keeps, for every distance, the records with that
    distance in their input order, and the result is its first [num_k]
    entries.  Hence adjacent results are in ascending distance, the
    results with one distance are an initial part of the input records
    with that distance, in input order, and the result has
    [min(num_k, len(input))] entries. *)
Theorem get_top_k_sources_stable_top_k
  (sources_list : list Search.Source) (num_k : Z) :
  numbers Search.distance sources_list ->
  0 < num_k ->
  let top := Search.get_top_k_sources sources_list num_k in
  (exists s : list Search.Source,
      Permutation s sources_list
      /\ StronglySorted (key_le Search.distance) s
      /\ (forall d, with_key Search.distance d s
                    = with_key Search.distance d sources_list)
      /\ top = firstn (Z.to_nat num_k) s)
  /\ (forall (i : nat) (a b : Search.Source),
        top !! i = Some a -> top !! S i = Some b ->
        float_le (Search.distance a) (Search.distance b) = true)
  /\ (forall d, with_key Search.distance d top
                `prefix_of` with_key Search.distance d sources_list)
  /\ length top = Nat.min (Z.to_nat num_k) (length sources_list).
Proof.
  intros Hnum Hk top. subst top. rewrite (get_top_k_sources_positive _ _ Hk).
  repeat split.
  - exists (sorted Search.distance sources_list).
    repeat split.
    + apply sorted_perm.
    + now apply sorted_strongly.
    + intros d. apply with_key_sorted.
  - intros i a b Ha Hb.
    apply lookup_take_Some in Ha as [Ha _], Hb as [Hb _].
    exact (strongly_sorted_adjacent Search.distance _ i a b
             (sorted_strongly _ _ Hnum) Ha Hb).
  - intros d. rewrite <- (with_key_sorted Search.distance d sources_list).
    apply with_key_take_prefix.
  - rewrite length_take, sorted_length. reflexivity.
Qed.

Lemma get_top_k_sources_stable_top_k_witness :
  numbers Search.distance Samples.paperA_then_paperB
  /\ 0 < 3
  /\ length (Search.get_top_k_sources Samples.paperA_then_paperB 3)
     = Nat.min (Z.to_nat 3) (length Samples.paperA_then_paperB).
Proof.
  assert (Hnum : numbers Search.distance Samples.paperA_then_paperB)
    by (repeat constructor).
  assert (H : 0 < 3) by reflexivity.
  split; [exact Hnum|]. split; [exact H|].
  exact (proj2 (proj2 (proj2
           (get_top_k_sources_stable_top_k Samples.paperA_then_paperB 3
              Hnum H)))).
Defined.

(** C1, as stated, fails: with a NaN distance in the middle the three
    records come back as they were given, 0.3 then NaN then 0.1.  The
    first adjacent pair is not in the relation [<=], and the last record
    is nearer than the first.  No other arrangement would do: a list
    with these three records is not ascending in any order. *)
Lemma nan_distance_is_not_ranked :
  Search.get_top_k_sources Samples.nan_in_the_middle 3
  = Samples.nan_in_the_middle
  /\ (exists a b,
        Samples.nan_in_the_middle !! 0%nat = Some a
        /\ Samples.nan_in_the_middle !! 1%nat = Some b
        /\ float_le (Search.distance a) (Search.distance b) = false)
  /\ (exists a b,
        Samples.nan_in_the_middle !! 0%nat = Some a
        /\ Samples.nan_in_the_middle !! 2%nat = Some b
        /\ float_lt (Search.distance b) (Search.distance a) = true)
  /\ forall s,
       Permutation s Samples.nan_in_the_middle ->
       ~ StronglySorted (key_le Search.distance) s.
Proof.
  split; [reflexivity|].
  split; [now eexists _, _|].
  split; [now eexists _, _|].
  intros s Hperm Hs.
  apply strongly_sorted_numbers in Hs;
    [|rewrite (Permutation_length Hperm); simpl; lia].
  unfold numbers in Hs. rewrite Hperm in Hs.
  apply Forall_cons in Hs as [_ Hs]. apply Forall_cons in Hs as [Hs _].
  discriminate Hs.
Qed.

Example get_top_k_sources_ties :
  map Search.id (Search.get_top_k_sources Samples.paperA_then_paperB 3)
  = ["a0"; "b0"; "a1"].
Proof. reflexivity. Qed.

(* ====================================================================== *)
(** * Facts about computations and loops *)
(* ====================================================================== *)

Lemma value_bind {A B : Type} (m : M A) (f : A -> M B) :
  value (bind m f) = rbind (value m) (fun a => value (f a)).
Proof.
  destruct m as [[a|e] t]; simpl; [|reflexivity].
  now destruct (f a).
Qed.

Lemma trace_bind {A B : Type} (m : M A) (f : A -> M B) :
  trace (bind m f)
  = match value m with
    | Ok a => trace m ++ trace (f a)
    | Raise _ => trace m
    end.
Proof.
  destruct m as [[a|e] t]; simpl; [|reflexivity].
  now destruct (f a).
Qed.

Lemma rbind_Ok {A B : Type} (r : result A) (f : A -> result B) (b : B) :
  rbind r f = Ok b -> exists a, r = Ok a /\ f a = Ok b.
Proof. destruct r as [a|e]; simpl; [eauto | discriminate]. Qed.

Section Loops.
Context {A B : Type}.

(** A property of the accumulator that every iteration preserves holds
    when the loop returns. *)
Lemma for_each_invariant (P : B -> Prop) (body : B -> A -> M B)
  (l : list A) (acc r : B) :
  P acc ->
  (forall acc x acc', x ∈ l -> P acc -> value (body acc x) = Ok acc' -> P acc') ->
  value (for_each body l acc) = Ok r -> P r.
Proof.
  revert acc. induction l as [|x l IH]; intros acc Hacc Hstep Hr; simpl in Hr.
  - now injection Hr as <-.
  - rewrite value_bind in Hr. apply rbind_Ok in Hr as (acc' & Hx & Hr).
    apply (IH acc'); [| |exact Hr].
    + eapply Hstep; [left| |]; eassumption.
    + intros a y a' Hy. apply Hstep. now right.
Qed.

Lemma rfor_each_invariant (P : B -> Prop) (body : B -> A -> result B)
  (l : list A) (acc r : B) :
  P acc ->
  (forall acc x acc', x ∈ l -> P acc -> body acc x = Ok acc' -> P acc') ->
  rfor_each body l acc = Ok r -> P r.
Proof.
  revert acc. induction l as [|x l IH]; intros acc Hacc Hstep Hr; simpl in Hr.
  - now injection Hr as <-.
  - apply rbind_Ok in Hr as (acc' & Hx & Hr).
    apply (IH acc'); [| |exact Hr].
    + eapply Hstep; [left| |]; eassumption.
    + intros a y a' Hy. apply Hstep. now right.
Qed.

(** A property every call of every iteration has holds of the whole
    trace. *)
Lemma for_each_trace (Q : Call -> Prop) (body : B -> A -> M B)
  (l : list A) (acc : B) :
  (forall acc x, x ∈ l -> Forall Q (trace (body acc x))) ->
  Forall Q (trace (for_each body l acc)).
Proof.
  revert acc. induction l as [|x l IH]; intros acc Hstep; simpl.
  - constructor.
  - rewrite trace_bind.
    assert (Hx : Forall Q (trace (body acc x))) by (apply Hstep; left).
    destruct (value (body acc x)) as [acc'|e]; [|exact Hx].
    apply Forall_app. split; [exact Hx|].
    apply IH. intros a y Hy. apply Hstep. now right.
Qed.

(** An iteration that raises whatever the accumulator makes the loop
    raise. *)
Lemma for_each_raise (body : B -> A -> M B) (l : list A) (x : A) (acc : B) :
  x ∈ l ->
  (forall acc, exists e, value (body acc x) = Raise e) ->
  exists e, value (for_each body l acc) = Raise e.
Proof.
  intros Hin Hx. revert acc.
  induction l as [|y l IH]; intros acc; [inversion Hin|].
  simpl. rewrite value_bind.
  destruct (value (body acc y)) as [acc'|e] eqn:Ey; simpl; [|eauto].
  apply elem_of_cons in Hin as [->|Hin]; [|now apply IH].
  destruct (Hx acc) as [e He]. congruence.
Qed.

(** Iterations that return the accumulator unchanged can be left out. *)
Lemma for_each_skip (keep : A -> bool) (body : B -> A -> M B)
  (l : list A) (acc : B) :
  (forall acc x, x ∈ l -> keep x = false -> value (body acc x) = Ok acc) ->
  value (for_each body (List.filter keep l) acc) = value (for_each body l acc).
Proof.
  revert acc. induction l as [|x l IH]; intros acc Hskip; [reflexivity|].
  assert (Hl : forall a y, y ∈ l -> keep y = false -> value (body a y) = Ok a)
    by (intros a y Hy; apply Hskip; now right).
  simpl. destruct (keep x) eqn:E; simpl; rewrite !value_bind.
  - destruct (value (body acc x)); simpl; [now apply IH | reflexivity].
  - rewrite (Hskip acc x); [|left|exact E]. simpl. now apply IH.
Qed.
End Loops.

(* ====================================================================== *)
(** * Embedding the query and querying one collection *)
(* ====================================================================== *)

Lemma str_bool_false (s : string) : str_bool s = false <-> s = "".
Proof. destruct s; simpl; split; congruence. Qed.

Lemma str_bool_true (s : string) : str_bool s = true <-> s <> "".
Proof. destruct s; simpl; split; congruence. Qed.

Lemma embed_query_blank (env : Search.Env) (query : string) :
  strip query = "" -> Search.embed_query env query = (Ok None, []).
Proof.
  intros H. unfold Search.embed_query. now rewrite H.
Qed.

Lemma embed_query_nonblank (env : Search.Env) (query : string) :
  strip query <> "" ->
  Search.embed_query env query
  = (match Search.encode env (strip query) with
     | Ok v => Ok (Some v)
     | Raise _ => Ok None
     end, [EncodeCall (strip query)]).
Proof.
  intros H. unfold Search.embed_query.
  apply str_bool_true in H. rewrite H. simpl.
  unfold call. now destruct (Search.encode env (strip query)).
Qed.

(** C7.  On a query that is empty or whitespace-only after trimming,
    [embed_query] returns [None] and its trace is empty: the embedding
    model is not invoked.  On a query for which the model raises,
    [embed_query] returns [None] instead of raising. *)
Theorem embed_query_no_vector (env : Search.Env) (query : string) :
  (strip query = "" -> Search.embed_query env query = (Ok None, []))
  /\ (forall e, Search.encode env (strip query) = Raise e ->
                value (Search.embed_query env query) = Ok None).
Proof.
  split; [apply embed_query_blank|].
  intros e He. destruct (decide (strip query = "")) as [Hb|Hb].
  - now rewrite embed_query_blank.
  - rewrite (embed_query_nonblank _ _ Hb), He. reflexivity.
Qed.

Lemma clamp_bounds (k : Z) : 1 <= clamp k <= 50.
Proof. unfold clamp. lia. Qed.

Lemma retrieve_top_k_some (env : Search.Env) (db_path : string) (v : vector)
  (k : Z) (name : string) :
  Search.retrieve_top_k env db_path (Some v) k name
  = match Search.get_or_create_collection env db_path name with
    | Ok _ => (Search.query env db_path name v (clamp k),
               [GetOrCreateCall db_path name; QueryCall db_path name v (clamp k)])
    | Raise e => (Raise e, [GetOrCreateCall db_path name])
    end.
Proof.
  unfold Search.retrieve_top_k, call, bind.
  now destruct (Search.get_or_create_collection env db_path name).
Qed.

Lemma retrieve_top_k_trace (env : Search.Env) (db_path : string)
  (query_embedding : option vector) (k : Z) (name : string) :
  Forall (clamped_query k)
         (trace (Search.retrieve_top_k env db_path query_embedding k name)).
Proof.
  destruct query_embedding as [v|].
  - rewrite retrieve_top_k_some.
    destruct (Search.get_or_create_collection env db_path name); simpl;
      repeat constructor; apply clamp_bounds.
  - unfold Search.retrieve_top_k, call, bind.
    destruct (Search.get_or_create_collection env db_path name); simpl;
      repeat constructor.
Qed.

Lemma retrieve_into_trace (env : Search.Env) (db_path : string) (v : vector)
  (k : Z) (acc : list (string * QueryResult)) (name : string) :
  Forall (clamped_query k) (trace (Search.retrieve_into env db_path v k acc name)).
Proof.
  unfold Search.retrieve_into. rewrite trace_bind.
  pose proof (retrieve_top_k_trace env db_path (Some v) k name) as H.
  destruct (value _) as [res|e]; [|exact H].
  apply Forall_app. split; [exact H|].
  destruct (Search.has_hits res); constructor.
Qed.

Lemma search_valid_trace (env : Search.Env) (db_path user_query : string)
  (k : Z) (selected_sources : list string) :
  Forall (clamped_query k)
         (trace (Search.search_valid env db_path user_query k selected_sources)).
Proof.
  unfold Search.search_valid. rewrite trace_bind.
  assert (He : Forall (clamped_query k) (trace (Search.embed_query env user_query))).
  { destruct (decide (strip user_query = "")) as [Hb|Hb].
    - rewrite embed_query_blank by exact Hb. constructor.
    - rewrite embed_query_nonblank by exact Hb. repeat constructor. }
  destruct (value (Search.embed_query env user_query)) as [[v|]|e];
    [| |exact He]; apply Forall_app; (split; [exact He|]); [|constructor].
  rewrite trace_bind.
  assert (Hl : Forall (clamped_query k)
                 (trace (for_each (Search.retrieve_into env db_path v k)
                                  selected_sources [])))
    by (apply for_each_trace; intros; apply retrieve_into_trace).
  destruct (value _) as [[|item rbc]|e]; [| |exact Hl];
    apply Forall_app; (split; [exact Hl|]); [constructor|].
  rewrite trace_bind. simpl.
  destruct (Search.get_sources (item :: rbc)) as [flat|e]; simpl; [|constructor].
  destruct (Search.get_top_k_sources flat k); constructor.
Qed.

(** C8.  Whatever [k] is, every query [retrieve_top_k] issues to the store
    asks for [max(1, min(k, 50))] results, a count between 1 and 50; when
    there is a query embedding and the collection opens, that query is
    issued and its answer is what [retrieve_top_k] returns.  The same bound
    holds for every store query of a whole search. *)
Theorem retrieve_top_k_clamps_k (env : Search.Env) (db_path : string)
  (query_embedding : option vector) (k : Z) (collection_name : string) :
  Forall (clamped_query k)
         (trace (Search.retrieve_top_k env db_path query_embedding k
                                       collection_name))
  /\ (forall v,
        query_embedding = Some v ->
        Search.get_or_create_collection env db_path collection_name = Ok () ->
        Search.retrieve_top_k env db_path query_embedding k collection_name
        = (Search.query env db_path collection_name v (Z.max 1 (Z.min k 50)),
           [GetOrCreateCall db_path collection_name;
            QueryCall db_path collection_name v (Z.max 1 (Z.min k 50))]))
  /\ (forall user_query num_k selected_sources,
        Forall (fun c => match c with
                         | QueryCall _ _ _ n => 1 <= n <= 50
                         | _ => True
                         end)
               (trace (Search.run_search_logic env db_path user_query num_k
                                               selected_sources))).
Proof.
  split; [apply retrieve_top_k_trace|]. split.
  - intros v -> Hopen. rewrite retrieve_top_k_some, Hopen. reflexivity.
  - intros user_query num_k selected_sources.
    unfold Search.run_search_logic.
    destruct selected_sources as [|name rest]; [constructor|].
    destruct (negb _); [constructor|].
    destruct (Search.positive_int env num_k) as [kz|]; [|constructor].
    eapply Forall_impl; [apply search_valid_trace|].
    intros [] H; simpl in *; tauto.
Qed.

(* ====================================================================== *)
(** * Validation *)
(* ====================================================================== *)

Lemma positive_int_Some (env : Search.Env) (num_k : string) (k : Z) :
  Search.positive_int env num_k = Some k
  <-> Search.py_int env num_k = Some k /\ 0 < k.
Proof.
  unfold Search.positive_int.
  destruct (Search.py_int env num_k) as [z|]; [|split; [discriminate|intros [? _]; discriminate]].
  destruct (z <=? 0) eqn:E.
  - apply Z.leb_le in E. split; [discriminate|]. intros [[= ->] ?]. lia.
  - apply Z.leb_gt in E. split.
    + intros [= ->]. now split.
    + now intros [[= ->] _].
Qed.

(** [num_k] is not parseable as a positive integer. *)
Lemma positive_int_None (env : Search.Env) (num_k : string) :
  Search.positive_int env num_k = None
  <-> match Search.py_int env num_k with Some k => k <= 0 | None => True end.
Proof.
  unfold Search.positive_int.
  destruct (Search.py_int env num_k) as [z|]; [|tauto].
  destruct (z <=? 0) eqn:E.
  - apply Z.leb_le in E. tauto.
  - apply Z.leb_gt in E. split; [discriminate|lia].
Qed.

(** The search proper returns none of the three validation warnings. *)
Lemma search_valid_outcome (env : Search.Env) (db_path user_query : string)
  (k : Z) (selected_sources : list string) :
  match value (Search.search_valid env db_path user_query k selected_sources) with
  | Ok o => o = embed_error \/ o = no_results_warning \/ o = no_matches_info
            \/ exists top_hits, o = Search.Results top_hits
  | Raise _ => True
  end.
Proof.
  unfold Search.search_valid. rewrite value_bind.
  destruct (value (Search.embed_query env user_query)) as [[v|]|e];
    cbn [rbind]; [| now left | exact I].
  rewrite value_bind.
  destruct (value (for_each _ _ _)) as [[|item rbc]|e]; cbn [rbind];
    [now right; left | | exact I].
  rewrite value_bind. unfold lift at 1. cbn [value fst rbind].
  destruct (Search.get_sources (item :: rbc)) as [flat|e]; cbn [rbind];
    [|exact I].
  destruct (Search.get_top_k_sources flat k); cbn; eauto 6.
Qed.

(** C5.  [run_search_logic] checks, in this order, that the selection is
    not empty, that the query is not blank after trimming, and that the
    count parses as a positive integer; the first check that fails decides
    the outcome and nothing else is done (no collaborator is called).  So
    the empty-selection warning is returned exactly when the selection is
    empty, the blank-query warning exactly when the selection is not empty
    and the query is blank, and the count warning exactly when the first
    two checks pass and the count is not a positive integer.  In
    particular an empty selection with a blank query gives the
    empty-selection warning. *)
Theorem run_search_logic_validation_order (env : Search.Env)
  (db_path user_query num_k : string) (selected_sources : list string) :
  let run := Search.run_search_logic env db_path user_query num_k
                                     selected_sources in
  let bad_count :=
    match Search.py_int env num_k with Some k => k <= 0 | None => True end in
  (selected_sources = [] -> run = (Ok select_warning, []))
  /\ (selected_sources <> [] -> strip user_query = "" ->
      run = (Ok query_warning, []))
  /\ (selected_sources <> [] -> strip user_query <> "" -> bad_count ->
      run = (Ok count_warning, []))
  /\ (value run = Ok select_warning <-> selected_sources = [])
  /\ (value run = Ok query_warning
      <-> selected_sources <> [] /\ strip user_query = "")
  /\ (value run = Ok count_warning
      <-> selected_sources <> [] /\ strip user_query <> "" /\ bad_count)
  /\ Search.run_search_logic env db_path "" "5" [] = (Ok select_warning, []).
Proof.
  intros run bad_count. subst run bad_count.
  unfold Search.run_search_logic.
  destruct selected_sources as [|name rest].
  { repeat split; try congruence; try discriminate; tauto. }
  destruct (str_bool (strip user_query)) eqn:Eq; simpl.
  2:{ apply str_bool_false in Eq.
      repeat split; try congruence; try discriminate; tauto. }
  apply str_bool_true in Eq.
  destruct (Search.positive_int env num_k) as [k|] eqn:Ek.
  2:{ apply positive_int_None in Ek.
      repeat split; try congruence; try discriminate; tauto. }
  apply positive_int_Some in Ek as [Ek Hk].
  pose proof (search_valid_outcome env db_path user_query k (name :: rest)) as Ho.
  rewrite Ek.
  destruct (value (Search.search_valid env db_path user_query k (name :: rest)))
    as [o|e].
  - repeat split; intros; try congruence; try tauto; try lia.
    all: exfalso;
      match goal with
      | H : Ok _ = Ok _ |- _ =>
          injection H as ->;
          destruct Ho as [Ho|[Ho|[Ho|[top Ho]]]]; discriminate Ho
      end.
  - repeat split; intros; try congruence; try tauto; try lia.
Qed.

(* ====================================================================== *)
(** * Collecting, flattening and merging the per-collection results *)
(* ====================================================================== *)

Lemma retrieve_into_value (env : Search.Env) (db_path : string) (v : vector)
  (k : Z) (acc : list (string * QueryResult)) (name : string) :
  value (Search.retrieve_into env db_path v k acc name)
  = rbind (Search.get_or_create_collection env db_path name) (fun _ =>
    rbind (Search.query env db_path name v (clamp k)) (fun res =>
    Ok (if Search.has_hits res then dict_set name res acc else acc))).
Proof.
  unfold Search.retrieve_into. rewrite value_bind, retrieve_top_k_some.
  destruct (Search.get_or_create_collection env db_path name); [|reflexivity].
  cbn [value fst rbind].
  destruct (Search.query env db_path name v (clamp k)) as [res|e]; [|reflexivity].
  cbn [rbind]. now destruct (Search.has_hits res).
Qed.

Lemma dict_set_Forall {V : Type} (P : string * V -> Prop) (k : string) (v : V)
  (d : list (string * V)) :
  Forall P d -> P (k, v) -> Forall P (dict_set k v d).
Proof.
  intros Hd Hk. induction Hd as [|[k' v'] r Hx Hr IH]; simpl.
  - now repeat constructor.
  - destruct (String.eqb k' k) eqn:E.
    + apply String.eqb_eq in E as ->. now constructor.
    + now constructor.
Qed.

Lemma retrieval_loop_collects (env : Search.Env) (db_path : string)
  (v : vector) (k : Z) (selected_sources : list string)
  (results_by_collection : list (string * QueryResult)) :
  value (for_each (Search.retrieve_into env db_path v k) selected_sources [])
  = Ok results_by_collection ->
  Forall (returned_by env db_path v k selected_sources) results_by_collection.
Proof.
  apply for_each_invariant; [constructor|].
  intros acc name acc' Hin Hacc Hstep.
  rewrite retrieve_into_value in Hstep.
  destruct (Search.get_or_create_collection env db_path name) as [[]|e] eqn:Eo;
    [|discriminate].
  cbn [rbind] in Hstep.
  apply rbind_Ok in Hstep as (res & Hq & Hstep).
  injection Hstep as <-.
  destruct (Search.has_hits res) eqn:Eh; [|exact Hacc].
  apply dict_set_Forall; [exact Hacc|].
  repeat split; assumption.
Qed.

Lemma subscript0_elem {A : Type} (field : option (list (list A))) (i : nat)
  (x : A) :
  Search.subscript0 field i = Ok x ->
  exists l0 rest, field = Some (l0 :: rest) /\ x ∈ l0.
Proof.
  unfold Search.subscript0, subscript.
  destruct field as [[|l0 rest]|]; try discriminate.
  destruct (l0 !! i) eqn:E; [|discriminate].
  intros [= <-]. exists l0, rest. split; [reflexivity|].
  eapply list_elem_of_lookup_2. exact E.
Qed.

Lemma append_hit_Ok (filename : string) (results : QueryResult)
  (sources sources' : list Search.Source) (i : nat) :
  Search.append_hit filename results sources i = Ok sources' ->
  exists s, sources' = sources ++ [s] /\ hit_of (filename, results) s.
Proof.
  unfold Search.append_hit. intros H.
  apply rbind_Ok in H as (id & Hid & H).
  apply rbind_Ok in H as (doc & _ & H).
  apply rbind_Ok in H as (m & _ & H).
  apply rbind_Ok in H as (dist & _ & H).
  injection H as <-.
  apply subscript0_elem in Hid as (l0 & rest & Hids & Hin).
  eexists. split; [reflexivity|].
  exists l0, rest, id, doc, m, dist. auto.
Qed.

Lemma get_sources_hits (results_by_collection : list (string * QueryResult))
  (flat_sources : list Search.Source) :
  Search.get_sources results_by_collection = Ok flat_sources ->
  Forall (fun s => exists item, item ∈ results_by_collection /\ hit_of item s)
         flat_sources.
Proof.
  unfold Search.get_sources.
  apply rfor_each_invariant; [constructor|].
  intros acc [filename results] acc' Hin Hacc. unfold Search.append_collection.
  destruct (negb (Search.has_hits results)); [now intros [= <-]|].
  apply rfor_each_invariant; [exact Hacc|].
  intros a i a' _ Ha Hstep.
  apply append_hit_Ok in Hstep as (s & -> & Hs).
  apply Forall_app. split; [exact Ha|].
  constructor; [|constructor]. eauto.
Qed.

Lemma append_hits_order (filename : string) (results : QueryResult)
  (l0 : list string) (rest : list (list string)) (n start : nat)
  (acc r : list Search.Source) :
  ids results = Some (l0 :: rest) ->
  rfor_each (Search.append_hit filename results) (seq start n) acc = Ok r ->
  map name_and_id r
  = map name_and_id acc ++ map (pair filename) (take n (drop start l0)).
Proof.
  intros Hids. revert start acc.
  induction n as [|n IH]; intros start acc H; simpl in H.
  - injection H as <-. now rewrite take_0, app_nil_r.
  - apply rbind_Ok in H as (acc' & Hstep & H).
    apply IH in H. rewrite H. clear H IH.
    unfold Search.append_hit in Hstep.
    apply rbind_Ok in Hstep as (id & Hid & Hstep).
    apply rbind_Ok in Hstep as (doc & _ & Hstep).
    apply rbind_Ok in Hstep as (m & _ & Hstep).
    apply rbind_Ok in Hstep as (dist & _ & Hstep).
    injection Hstep as <-.
    rewrite Hids in Hid. unfold Search.subscript0, subscript in Hid.
    destruct (l0 !! start) as [x|] eqn:Ex; [|discriminate].
    injection Hid as ->.
    rewrite (drop_S _ _ _ Ex). simpl.
    now rewrite map_app, <- app_assoc.
Qed.

(** [get_sources] flattens in collection order, then in the order of each
    collection's answer. *)
Lemma get_sources_order (results_by_collection : list (string * QueryResult))
  (flat_sources : list Search.Source) :
  Search.get_sources results_by_collection = Ok flat_sources ->
  map name_and_id flat_sources = flat_map flattened results_by_collection.
Proof.
  unfold Search.get_sources.
  change (flat_map flattened results_by_collection)
    with (map name_and_id [] ++ flat_map flattened results_by_collection).
  generalize (@nil Search.Source) as acc. revert flat_sources.
  induction results_by_collection as [|[filename results] rbc IH];
    intros flat acc H; simpl in H.
  - injection H as <-. simpl. now rewrite app_nil_r.
  - apply rbind_Ok in H as (acc' & Hstep & H).
    apply IH in H. rewrite H. clear H IH. simpl.
    rewrite app_assoc. f_equal.
    unfold flattened, Search.count in *. simpl.
    destruct (Search.has_hits results) eqn:Eh; simpl in Hstep.
    + unfold Search.has_hits in Eh.
      destruct (ids results) as [[|l0 rest]|] eqn:Hids; try discriminate.
      apply (append_hits_order _ _ l0 rest) in Hstep; [|exact Hids].
      now rewrite drop_0, firstn_all in Hstep.
    + injection Hstep as <-. now rewrite app_nil_r.
Qed.

Lemma has_hits_count (results : QueryResult) :
  Search.has_hits results = true -> (0 < Search.count results)%nat.
Proof.
  unfold Search.has_hits, Search.count.
  destruct (ids results) as [[|[|i l0] rest]|]; try discriminate.
  simpl. lia.
Qed.

Lemma append_collection_nonempty (sources sources' : list Search.Source)
  (item : string * QueryResult) :
  Search.append_collection sources item = Ok sources' ->
  sources <> [] \/ Search.has_hits item.2 = true ->
  sources' <> [].
Proof.
  destruct item as [filename results]. unfold Search.append_collection. simpl.
  destruct (Search.has_hits results) eqn:Eh; simpl.
  - intros H _. apply has_hits_count in Eh.
    destruct (Search.count results) as [|n]; [lia|]. simpl in H.
    apply rbind_Ok in H as (acc & Hfirst & H).
    apply append_hit_Ok in Hfirst as (s & -> & _).
    revert H. apply (rfor_each_invariant (fun l => l <> []));
      [now destruct sources|].
    intros a i a' _ Ha Hstep.
    apply append_hit_Ok in Hstep as (s' & -> & _). now destruct a.
  - intros [= <-] [H|H]; [exact H|discriminate].
Qed.

(** Collections that all have hits flatten to at least one record. *)
Lemma get_sources_nonempty (results_by_collection : list (string * QueryResult))
  (flat_sources : list Search.Source) :
  results_by_collection <> [] ->
  Forall (fun item => Search.has_hits item.2 = true) results_by_collection ->
  Search.get_sources results_by_collection = Ok flat_sources ->
  flat_sources <> [].
Proof.
  unfold Search.get_sources.
  destruct results_by_collection as [|item rest]; [congruence|].
  intros _ Hall H. simpl in H.
  apply rbind_Ok in H as (acc & Hfirst & H).
  apply Forall_cons in Hall as [Hitem Hrest].
  apply append_collection_nonempty in Hfirst; [|now right].
  revert H. apply (rfor_each_invariant (fun l => l <> [])); [exact Hfirst|].
  intros a x a' _ Ha Hstep.
  eapply append_collection_nonempty; [exact Hstep|now left].
Qed.

Lemma get_top_k_sources_subseteq (sources_list : list Search.Source) (num_k : Z)
  (s : Search.Source) :
  s ∈ Search.get_top_k_sources sources_list num_k -> s ∈ sources_list.
Proof.
  unfold Search.get_top_k_sources, slice_to.
  destruct sources_list as [|x r]; [trivial|].
  intros H. rewrite <- (sorted_perm Search.distance (x :: r)).
  destruct (0 <=? num_k); eapply subseteq_take; exact H.
Qed.

Lemma get_top_k_sources_nil (sources_list : list Search.Source) (num_k : Z) :
  0 < num_k -> Search.get_top_k_sources sources_list num_k = [] ->
  sources_list = [].
Proof.
  intros Hk H. rewrite get_top_k_sources_positive in H by exact Hk.
  apply (f_equal length) in H. rewrite length_take, sorted_length in H.
  simpl in H. destruct sources_list; [reflexivity|]. simpl in H. lia.
Qed.

(* ====================================================================== *)
(** * The search as a whole *)
(* ====================================================================== *)

Lemma search_valid_value (env : Search.Env) (db_path user_query : string)
  (k : Z) (selected_sources : list string) :
  value (Search.search_valid env db_path user_query k selected_sources)
  = rbind (value (Search.embed_query env user_query)) (fun qvec =>
    match qvec with
    | None => Ok embed_error
    | Some v =>
        rbind (value (for_each (Search.retrieve_into env db_path v k)
                               selected_sources []))
              (merge_outcome k)
    end).
Proof.
  unfold Search.search_valid. rewrite value_bind.
  destruct (value (Search.embed_query env user_query)) as [[v|]|e];
    cbn [rbind]; try reflexivity.
  rewrite value_bind.
  destruct (value (for_each _ _ _)) as [[|item rbc]|e]; cbn [rbind];
    try reflexivity.
  rewrite value_bind. unfold lift at 1, merge_outcome. cbn [value fst].
  destruct (Search.get_sources (item :: rbc)) as [flat|e]; cbn [rbind];
    [|reflexivity].
  now destruct (Search.get_top_k_sources flat k).
Qed.

Lemma run_search_logic_cases (env : Search.Env)
  (db_path user_query num_k : string) (selected_sources : list string) :
  let run := Search.run_search_logic env db_path user_query num_k
                                     selected_sources in
  (selected_sources = [] /\ run = (Ok select_warning, []))
  \/ (strip user_query = "" /\ run = (Ok query_warning, []))
  \/ (Search.positive_int env num_k = None /\ run = (Ok count_warning, []))
  \/ (exists k, selected_sources <> [] /\ strip user_query <> ""
                /\ Search.positive_int env num_k = Some k
                /\ run = Search.search_valid env db_path user_query k
                                             selected_sources).
Proof.
  unfold Search.run_search_logic.
  destruct selected_sources as [|name rest]; [now left|].
  destruct (str_bool (strip user_query)) eqn:Eq; simpl.
  2:{ apply str_bool_false in Eq. right; left. now split. }
  apply str_bool_true in Eq.
  destruct (Search.positive_int env num_k) as [k|] eqn:Ek.
  - right; right; right. exists k. repeat split; congruence.
  - right; right; left. now split.
Qed.

Lemma embed_query_Some (env : Search.Env) (query : string) (v : vector) :
  value (Search.embed_query env query) = Ok (Some v) ->
  Search.embed_query env query = (Ok (Some v), [EncodeCall (strip query)])
  /\ Search.encode env (strip query) = Ok v.
Proof.
  destruct (decide (strip query = "")) as [Hb|Hb].
  - rewrite embed_query_blank by exact Hb. discriminate.
  - rewrite embed_query_nonblank by exact Hb.
    destruct (Search.encode env (strip query)); simpl; [|discriminate].
    intros [= ->]. now split.
Qed.

(** What a search that returns the outcome [o] of the search proper went
    through: the count parsed to [k], the query embedded to [v], the loop
    collected [results_by_collection], and [o] is its merge. *)
Lemma search_outcome_inv (env : Search.Env)
  (db_path user_query num_k : string) (selected_sources : list string)
  (o : Search.Outcome) :
  value (Search.run_search_logic env db_path user_query num_k selected_sources)
  = Ok o ->
  o <> select_warning -> o <> query_warning -> o <> count_warning ->
  o <> embed_error ->
  exists k v results_by_collection,
    Search.py_int env num_k = Some k /\ 0 < k
    /\ strip user_query <> ""
    /\ Search.encode env (strip user_query) = Ok v
    /\ Search.run_search_logic env db_path user_query num_k selected_sources
       = Search.search_valid env db_path user_query k selected_sources
    /\ value (for_each (Search.retrieve_into env db_path v k)
                       selected_sources []) = Ok results_by_collection
    /\ Forall (returned_by env db_path v k selected_sources)
              results_by_collection
    /\ merge_outcome k results_by_collection = Ok o.
Proof.
  intros Hrun H1 H2 H3 H4.
  destruct (run_search_logic_cases env db_path user_query num_k selected_sources)
    as [[_ E]|[[_ E]|[[_ E]|(k & Hsel & Hq & Hk & E)]]];
    rewrite E in Hrun; try (injection Hrun as <-; congruence).
  rewrite search_valid_value in Hrun.
  apply rbind_Ok in Hrun as ([v|] & Hv & Hrun);
    [|injection Hrun as <-; congruence].
  apply rbind_Ok in Hrun as (rbc & Hloop & Hrun).
  apply embed_query_Some in Hv as [_ Hv].
  apply positive_int_Some in Hk as [Hk Hpos].
  exists k, v, rbc. repeat split; try assumption.
  now apply retrieval_loop_collects.
Qed.

Lemma merge_outcome_Results (k : Z)
  (results_by_collection : list (string * QueryResult))
  (top_hits : list Search.Source) :
  merge_outcome k results_by_collection = Ok (Search.Results top_hits) ->
  exists flat_sources,
    Search.get_sources results_by_collection = Ok flat_sources
    /\ top_hits = Search.get_top_k_sources flat_sources k.
Proof.
  unfold merge_outcome.
  destruct results_by_collection as [|item rbc]; [discriminate|].
  intros H. apply rbind_Ok in H as (flat & Hflat & H).
  exists flat. split; [exact Hflat|].
  destruct (Search.get_top_k_sources flat k); [discriminate|].
  now injection H as <-.
Qed.

Lemma merge_outcome_Info (k : Z)
  (results_by_collection : list (string * QueryResult)) (msg : string) :
  merge_outcome k results_by_collection = Ok (Search.Info msg) ->
  results_by_collection <> []
  /\ exists flat_sources,
       Search.get_sources results_by_collection = Ok flat_sources
       /\ Search.get_top_k_sources flat_sources k = [].
Proof.
  unfold merge_outcome.
  destruct results_by_collection as [|item rbc]; [discriminate|].
  intros H. apply rbind_Ok in H as (flat & Hflat & H).
  split; [discriminate|]. exists flat. split; [exact Hflat|].
  now destruct (Search.get_top_k_sources flat k).
Qed.

Lemma trace_bind_l {A B : Type} (m : M A) (f : A -> M B) (c : Call) :
  c ∈ trace m -> c ∈ trace (bind m f).
Proof.
  intros H. rewrite trace_bind. destruct (value m); [|exact H].
  apply elem_of_app. now left.
Qed.

Lemma trace_bind_r {A B : Type} (m : M A) (f : A -> M B) (a : A) (c : Call) :
  value m = Ok a -> c ∈ trace (f a) -> c ∈ trace (bind m f).
Proof.
  intros Hm H. rewrite trace_bind, Hm. apply elem_of_app. now right.
Qed.

(** A loop that returns has made the calls of each of its iterations. *)
Lemma for_each_trace_elem {A B : Type} (body : B -> A -> M B) (l : list A)
  (x : A) (c : Call) (acc r : B) :
  x ∈ l ->
  (forall acc acc', value (body acc x) = Ok acc' -> c ∈ trace (body acc x)) ->
  value (for_each body l acc) = Ok r ->
  c ∈ trace (for_each body l acc).
Proof.
  intros Hin Hc. revert acc.
  induction l as [|y l IH]; intros acc Hr; [inversion Hin|].
  simpl in *. rewrite value_bind in Hr.
  apply rbind_Ok in Hr as (acc' & Hy & Hr).
  apply elem_of_cons in Hin as [->|Hin].
  - apply trace_bind_l. eapply Hc. exact Hy.
  - eapply trace_bind_r; [exact Hy|]. now apply IH.
Qed.

Lemma retrieve_into_query_call (env : Search.Env) (db_path : string)
  (v : vector) (k : Z) (acc acc' : list (string * QueryResult)) (name : string) :
  value (Search.retrieve_into env db_path v k acc name) = Ok acc' ->
  QueryCall db_path name v (clamp k)
  ∈ trace (Search.retrieve_into env db_path v k acc name).
Proof.
  intros H. unfold Search.retrieve_into in *.
  apply trace_bind_l. rewrite value_bind, retrieve_top_k_some in *.
  destruct (Search.get_or_create_collection env db_path name);
    [|discriminate].
  simpl. right. left.
Qed.

(** C9.  When a search returns results, every returned record carries an
    id that one of the per-collection queries of that search returned: the
    record's collection is one of the selected ones, the search queried it
    (the call is in the trace), and the record's id is among the ids of the
    answer to that query. *)
Theorem results_ids_from_collection_queries (env : Search.Env)
  (db_path user_query num_k : string) (selected_sources : list string)
  (top_hits : list Search.Source) :
  value (Search.run_search_logic env db_path user_query num_k selected_sources)
  = Ok (Search.Results top_hits) ->
  forall s, s ∈ top_hits ->
    exists v n res l0 rest,
      Search.filename s ∈ selected_sources
      /\ QueryCall db_path (Search.filename s) v n
         ∈ trace (Search.run_search_logic env db_path user_query num_k
                                          selected_sources)
      /\ Search.query env db_path (Search.filename s) v n = Ok res
      /\ ids res = Some (l0 :: rest)
      /\ Search.id s ∈ l0.
Proof.
  intros Hrun s Hs.
  apply search_outcome_inv in Hrun
    as (k & v & rbc & Hk & Hpos & Hb & Hv & Erun & Hloop & Hrbc & Hmerge);
    try discriminate.
  apply merge_outcome_Results in Hmerge as (flat & Hflat & ->).
  apply get_top_k_sources_subseteq in Hs.
  apply get_sources_hits in Hflat.
  rewrite Forall_forall in Hflat. rewrite Forall_forall in Hrbc.
  destruct (Hflat s Hs) as ([name res] & Hitem & l0 & rest & i & d & m & dist
                            & Hids & Hi & ->).
  destruct (Hrbc _ Hitem) as (Hname & Hopen & Hquery & Hhits).
  simpl in *.
  exists v, (clamp k), res, l0, rest. repeat split; try assumption.
  rewrite Erun. unfold Search.search_valid.
  eapply trace_bind_r.
  { rewrite embed_query_nonblank by exact Hb. rewrite Hv. reflexivity. }
  apply trace_bind_l.
  eapply for_each_trace_elem; [exact Hname| |exact Hloop].
  intros acc acc'. apply retrieve_into_query_call.
Qed.

(** [Info] is reserved: the collections kept by the loop all have hits, so
    the flattened list is not empty and neither are its first [k >= 1]
    entries. *)
Lemma info_is_never_returned (env : Search.Env)
  (db_path user_query num_k : string) (selected_sources : list string)
  (msg : string) :
  value (Search.run_search_logic env db_path user_query num_k selected_sources)
  <> Ok (Search.Info msg).
Proof.
  intros Hrun.
  apply search_outcome_inv in Hrun
    as (k & v & rbc & Hk & Hpos & Hb & Hv & Erun & Hloop & Hrbc & Hmerge);
    try discriminate.
  apply merge_outcome_Info in Hmerge as (Hne & flat & Hflat & Htop).
  apply get_top_k_sources_nil in Htop; [|exact Hpos]. subst flat.
  apply (get_sources_nonempty rbc []); [exact Hne| |exact Hflat|reflexivity].
  eapply Forall_impl; [exact Hrbc|]. now intros item (_ & _ & _ & H).
Qed.

Lemma retrieval_loop_no_hits (env : Search.Env) (db_path : string)
  (v : vector) (k : Z) (selected_sources : list string) :
  (forall name, name ∈ selected_sources ->
     Search.get_or_create_collection env db_path name = Ok ()
     /\ exists res, Search.query env db_path name v (clamp k) = Ok res
                    /\ Search.has_hits res = false) ->
  value (for_each (Search.retrieve_into env db_path v k) selected_sources [])
  = Ok [].
Proof.
  intros Hall.
  rewrite <- (for_each_skip (fun _ => false)).
  - now rewrite filter_false.
  - intros acc name Hname _. rewrite retrieve_into_value.
    destruct (Hall name Hname) as (-> & res & -> & Hres).
    simpl. now rewrite Hres.
Qed.

(** C6.  When the inputs are valid and the query embeds, and every
    selected collection answers without candidates, the outcome is the
    warning that no results were returned.  The [Info] outcome requires
    that the loop kept at least one collection, each kept collection being
    a selected one whose query returned candidates, and that the first [k]
    entries of the merged list are nevertheless empty; it is not the
    outcome when all collections are empty. *)
Theorem no_candidates_is_a_warning (env : Search.Env)
  (db_path user_query num_k : string) (selected_sources : list string) :
  let run := Search.run_search_logic env db_path user_query num_k
                                     selected_sources in
  (forall k v,
      selected_sources <> [] -> strip user_query <> "" ->
      Search.py_int env num_k = Some k -> 0 < k ->
      Search.encode env (strip user_query) = Ok v ->
      (forall name, name ∈ selected_sources ->
         Search.get_or_create_collection env db_path name = Ok ()
         /\ exists res, Search.query env db_path name v (Z.max 1 (Z.min k 50))
                        = Ok res
                        /\ Search.has_hits res = false) ->
      value run
      = Ok (Search.Warning "No results returned from the selected sources.")
      /\ forall msg, value run <> Ok (Search.Info msg))
  /\ (forall msg,
        value run = Ok (Search.Info msg) ->
        exists k v results_by_collection flat_sources,
          results_by_collection <> []
          /\ Forall (returned_by env db_path v k selected_sources)
                    results_by_collection
          /\ Search.get_sources results_by_collection = Ok flat_sources
          /\ Search.get_top_k_sources flat_sources k = []).
Proof.
  intros run. subst run. split.
  - intros k v Hsel Hq Hk Hpos Hv Hall.
    assert (Hval : value (Search.run_search_logic env db_path user_query num_k
                                                  selected_sources)
                   = Ok no_results_warning).
    { destruct (run_search_logic_cases env db_path user_query num_k
                                       selected_sources)
        as [[E _]|[[E _]|[[E _]|(k' & _ & _ & Hk' & ->)]]]; try congruence.
      { apply positive_int_None in E. rewrite Hk in E. lia. }
      apply positive_int_Some in Hk' as [Hk' _].
      assert (k' = k) as -> by congruence.
      rewrite search_valid_value, (embed_query_nonblank _ _ Hq), Hv.
      cbn [value fst rbind].
      now rewrite retrieval_loop_no_hits. }
    split; [exact Hval|]. intros msg. rewrite Hval. discriminate.
  - intros msg Hrun.
    apply search_outcome_inv in Hrun
      as (k & v & rbc & Hk & Hpos & Hb & Hv & Erun & Hloop & Hrbc & Hmerge);
      try discriminate.
    apply merge_outcome_Info in Hmerge as (Hne & flat & Hflat & Htop).
    now exists k, v, rbc, flat.
Qed.

Lemma Source_init_metadata (filename id doc : string) (m : pyobj)
  (dist : pyfloat) :
  exists d, Search.metadata (Search.Source_init filename id doc m dist)
            = PyDict d.
Proof.
  unfold Search.Source_init. simpl.
  destruct m as [|d]; simpl; [now exists ∅|].
  destruct (bool_decide (d = ∅)); simpl; eauto.
Qed.

(** C10.  [Source.__init__] never stores [None] as metadata: a falsy
    argument ([None] or an empty dict) is replaced by the empty mapping and
    a truthy one is kept.  Hence every record [get_sources] builds, and
    every record a search returns, has a mapping as metadata, and looking a
    key up in it does not raise. *)
Theorem source_metadata_is_a_mapping :
  (forall filename id doc m dist,
      let s := Search.Source_init filename id doc m dist in
      Search.metadata s <> PyNone
      /\ (truthy m = false -> Search.metadata s = PyDict ∅)
      /\ (truthy m = true -> Search.metadata s = m))
  /\ (forall results_by_collection flat_sources,
        Search.get_sources results_by_collection = Ok flat_sources ->
        forall s, s ∈ flat_sources -> exists d, Search.metadata s = PyDict d)
  /\ (forall env db_path user_query num_k selected_sources top_hits,
        value (Search.run_search_logic env db_path user_query num_k
                                       selected_sources)
        = Ok (Search.Results top_hits) ->
        forall s key default, s ∈ top_hits ->
          exists d val,
            Search.metadata s = PyDict d
            /\ Search.metadata_get (Search.metadata s) key default = Ok val).
Proof.
  assert (Hflat : forall rbc flat,
             Search.get_sources rbc = Ok flat ->
             forall s, s ∈ flat -> exists d, Search.metadata s = PyDict d).
  { intros rbc flat H s Hs. apply get_sources_hits in H.
    rewrite Forall_forall in H.
    destruct (H s Hs) as (item & _ & l0 & rest & i & d & m & dist & _ & _ & ->).
    apply Source_init_metadata. }
  split; [|split; [exact Hflat|]].
  - intros filename id doc m dist s. subst s.
    unfold Search.Source_init. simpl.
    destruct (truthy m) eqn:E; repeat split; try congruence.
    destruct m; [discriminate|congruence].
  - intros env db_path user_query num_k selected_sources top_hits Hrun
           s key default Hs.
    apply search_outcome_inv in Hrun
      as (k & v & rbc & _ & _ & _ & _ & _ & _ & _ & Hmerge); try discriminate.
    apply merge_outcome_Results in Hmerge as (flat & Hf & ->).
    apply get_top_k_sources_subseteq in Hs.
    destruct (Hflat _ _ Hf s Hs) as [d Hd].
    exists d. rewrite Hd. simpl. eauto.
Qed.

(** The one-step equation of the loop when the inputs are valid and the
    query embeds. *)
Lemma run_search_logic_valid (env : Search.Env)
  (db_path user_query num_k : string) (selected_sources : list string)
  (k : Z) (v : vector) :
  selected_sources <> [] -> strip user_query <> "" ->
  Search.py_int env num_k = Some k -> 0 < k ->
  Search.encode env (strip user_query) = Ok v ->
  value (Search.run_search_logic env db_path user_query num_k selected_sources)
  = rbind (value (for_each (Search.retrieve_into env db_path v k)
                           selected_sources []))
          (merge_outcome k).
Proof.
  intros Hsel Hq Hk Hpos Hv.
  destruct (run_search_logic_cases env db_path user_query num_k selected_sources)
    as [[E _]|[[E _]|[[E _]|(k' & _ & _ & Hk' & ->)]]]; try congruence.
  { apply positive_int_None in E. rewrite Hk in E. lia. }
  apply positive_int_Some in Hk' as [Hk' _].
  assert (k' = k) as -> by congruence.
  rewrite search_valid_value, (embed_query_nonblank _ _ Hq), Hv.
  reflexivity.
Qed.

(** C2, as the code has it.  With valid inputs and an embedded query:
    when opening or querying a selected collection raises, the search
    raises as well and returns no outcome; a selected collection whose
    query returns an answer without candidates contributes nothing, and
    the search returns what it returns on the remaining selection (as long
    as one remains). *)
Theorem store_failure_aborts_empty_answer_is_skipped (env : Search.Env)
  (db_path user_query num_k : string) (selected_sources : list string)
  (k : Z) (v : vector) :
  selected_sources <> [] -> strip user_query <> "" ->
  Search.py_int env num_k = Some k -> 0 < k ->
  Search.encode env (strip user_query) = Ok v ->
  let run := Search.run_search_logic env db_path user_query num_k in
  (forall name e,
      name ∈ selected_sources ->
      Search.get_or_create_collection env db_path name = Raise e
      \/ (Search.get_or_create_collection env db_path name = Ok ()
          /\ Search.query env db_path name v (Z.max 1 (Z.min k 50)) = Raise e) ->
      exists e', value (run selected_sources) = Raise e')
  /\ (forall name res,
        Search.get_or_create_collection env db_path name = Ok () ->
        Search.query env db_path name v (Z.max 1 (Z.min k 50)) = Ok res ->
        Search.has_hits res = false ->
        let remaining :=
          List.filter (fun n => negb (String.eqb n name)) selected_sources in
        remaining <> [] ->
        value (run selected_sources) = value (run remaining)).
Proof.
  intros Hsel Hq Hk Hpos Hv run. subst run. split.
  - intros name e Hname Hfail.
    rewrite (run_search_logic_valid _ _ _ _ _ k v) by assumption.
    destruct (for_each_raise (Search.retrieve_into env db_path v k)
                selected_sources name [] Hname) as [e' He'].
    + intros acc. rewrite retrieve_into_value.
      destruct Hfail as [->|[-> Hfail]]; simpl; [eauto|].
      unfold clamp. rewrite Hfail. simpl. eauto.
    + exists e'. now rewrite He'.
  - intros name res Hopen Hquery Hres remaining Hrem. subst remaining.
    rewrite !(run_search_logic_valid _ _ _ _ _ k v) by assumption.
    f_equal. symmetry. apply for_each_skip.
    intros acc n _ Hn. apply negb_false_iff, String.eqb_eq in Hn as ->.
    rewrite retrieve_into_value, Hopen. unfold clamp. simpl.
    rewrite Hquery. simpl. now rewrite Hres.
Qed.

(* ====================================================================== *)
(** * The search on the example store *)
(* ====================================================================== *)

Example search_scenario :
  option_map (map (fun s => (Search.filename s, Search.id s)))
    (match value (Search.run_search_logic Samples.library "db" "a question" "3"
                                          ["paperA"; "paperB"]) with
     | Ok (Search.Results top_hits) => Some top_hits
     | _ => None
     end)
  = Some [("paperB", "b0"); ("paperA", "a0"); ("paperA", "a1")].
Proof. vm_compute. reflexivity. Qed.

Lemma embed_query_no_vector_witness :
  Search.embed_query Samples.library "   " = (Ok None, [])
  /\ value (Search.embed_query Samples.library " boom ") = Ok None.
Proof.
  split.
  - apply (proj1 (embed_query_no_vector Samples.library "   ")). reflexivity.
  - apply (proj2 (embed_query_no_vector Samples.library " boom ")
                 (OtherException "model")).
    reflexivity.
Defined.

Lemma retrieve_top_k_clamps_k_witness :
  Search.retrieve_top_k Samples.library "db" (Some [1%Q]) 500 "paperA"
  = (Search.query Samples.library "db" "paperA" [1%Q] 50,
     [GetOrCreateCall "db" "paperA"; QueryCall "db" "paperA" [1%Q] 50]).
Proof.
  apply (proj1 (proj2 (retrieve_top_k_clamps_k Samples.library "db"
                         (Some [1%Q]) 500 "paperA")) [1%Q]);
    reflexivity.
Defined.

Lemma run_search_logic_validation_order_witness :
  Search.run_search_logic Samples.library "db" "  " "zero" []
  = (Ok select_warning, [])
  /\ Search.run_search_logic Samples.library "db" "  " "zero" ["paperA"]
     = (Ok query_warning, [])
  /\ Search.run_search_logic Samples.library "db" "a question" "0" ["paperA"]
     = (Ok count_warning, []).
Proof.
  split; [|split].
  - apply (proj1 (run_search_logic_validation_order Samples.library
                    "db" "  " "zero" [])).
    reflexivity.
  - apply (proj1 (proj2 (run_search_logic_validation_order Samples.library
                           "db" "  " "zero" ["paperA"]))).
    + discriminate.
    + reflexivity.
  - apply (proj1 (proj2 (proj2 (run_search_logic_validation_order
                                  Samples.library "db" "a question" "0"
                                  ["paperA"])))).
    + discriminate.
    + discriminate.
    + vm_compute. discriminate.
Defined.

Lemma results_ids_from_collection_queries_witness :
  exists v n res l0 rest,
    "paperB" ∈ ["paperA"; "paperB"]
    /\ QueryCall "db" "paperB" v n
       ∈ trace (Search.run_search_logic Samples.library "db" "a question" "3"
                                        ["paperA"; "paperB"])
    /\ Search.query Samples.library "db" "paperB" v n = Ok res
    /\ ids res = Some (l0 :: rest)
    /\ "b0" ∈ l0.
Proof.
  apply (results_ids_from_collection_queries Samples.library
           "db" "a question" "3" ["paperA"; "paperB"]
           [ Search.Source_init "paperB" "b0" "text" PyNone (5 # 100);
             Search.Source_init "paperA" "a0" "text" PyNone (10 # 100);
             Search.Source_init "paperA" "a1" "text" PyNone (30 # 100) ]
           eq_refl
           (Search.Source_init "paperB" "b0" "text" PyNone (5 # 100))).
  left.
Defined.

Lemma no_candidates_is_a_warning_witness :
  value (Search.run_search_logic Samples.library "db" "a question" "3"
                                 ["blank"])
  = Ok (Search.Warning "No results returned from the selected sources.").
Proof.
  refine (proj1 (proj1 (no_candidates_is_a_warning Samples.library
                   "db" "a question" "3" ["blank"]) 3 [1%Q] _ _ _ _ _ _)).
  - discriminate.
  - discriminate.
  - reflexivity.
  - reflexivity.
  - reflexivity.
  - intros name Hname. apply list_elem_of_singleton in Hname as ->.
    split; [reflexivity|]. exists (Samples.answer []). now split.
Defined.

Lemma source_metadata_is_a_mapping_witness :
  Search.metadata (Search.Source_init "paperA" "a0" "alpha" PyNone (1 # 10))
  = PyDict ∅.
Proof.
  apply (proj1 (proj2 (proj1 source_metadata_is_a_mapping
                         "paperA" "a0" "alpha" PyNone (1 # 10)))).
  reflexivity.
Defined.

(** C2, as stated, fails: the store raises for the collection ["broken"],
    and the search over ["paperA"; "broken"; "paperB"] raises that error,
    although the search over ["paperA"; "paperB"] returns three results. *)
Lemma failing_collection_aborts_search :
  Search.query Samples.library "db" "broken" [1%Q] 3
  = Raise (OtherException "store")
  /\ value (Search.run_search_logic Samples.library "db" "a question" "3"
                                    ["paperA"; "paperB"])
     = Ok (Search.Results
             [ Search.Source_init "paperB" "b0" "text" PyNone (5 # 100);
               Search.Source_init "paperA" "a0" "text" PyNone (10 # 100);
               Search.Source_init "paperA" "a1" "text" PyNone (30 # 100) ])
  /\ value (Search.run_search_logic Samples.library "db" "a question" "3"
                                    ["paperA"; "broken"; "paperB"])
     = Raise (OtherException "store")
  /\ ~ exists o,
         value (Search.run_search_logic Samples.library "db" "a question" "3"
                                        ["paperA"; "broken"; "paperB"])
         = Ok o.
Proof.
  repeat split; try reflexivity.
  intros [o H]. vm_compute in H. discriminate H.
Qed.

Lemma store_failure_aborts_empty_answer_is_skipped_witness :
  (exists e', value (Search.run_search_logic Samples.library "db" "a question"
                       "3" ["paperA"; "broken"; "blank"]) = Raise e')
  /\ value (Search.run_search_logic Samples.library "db" "a question" "3"
                                    ["paperA"; "blank"; "paperB"])
     = value (Search.run_search_logic Samples.library "db" "a question" "3"
                                      ["paperA"; "paperB"]).
Proof.
  assert (Hpos : 0 < 3) by reflexivity.
  split.
  - refine (proj1 (store_failure_aborts_empty_answer_is_skipped
                     Samples.library "db" "a question" "3"
                     ["paperA"; "broken"; "blank"] 3 [1%Q] _ _ _ Hpos _)
                  "broken" (OtherException "store") _ _);
      try discriminate; try reflexivity.
    + right. left.
    + right. split; reflexivity.
  - refine (proj2 (store_failure_aborts_empty_answer_is_skipped
                     Samples.library "db" "a question" "3"
                     ["paperA"; "blank"; "paperB"] 3 [1%Q] _ _ _ Hpos _)
                  "blank" (Samples.answer []) _ _ _ _);
      try discriminate; try reflexivity.
Defined.

(* ====================================================================== *)
(** * Pages and chunks *)
(* ====================================================================== *)

Lemma enumerate_from_lookup {A : Type} (start : nat) (l : list A) (i : nat) :
  enumerate_from start l !! i = (fun x => ((start + i)%nat, x)) <$> l !! i.
Proof.
  revert start i. induction l as [|x l IH]; intros start i; [now destruct i|].
  destruct i as [|i]; simpl.
  - now rewrite Nat.add_0_r.
  - rewrite IH. now rewrite Nat.add_succ_r.
Qed.

Lemma enumerate_lookup {A : Type} (l : list A) (i : nat) (item : nat * A) :
  enumerate l !! i = Some item -> item.1 = i /\ l !! i = Some item.2.
Proof.
  unfold enumerate. rewrite enumerate_from_lookup.
  destruct (l !! i); simpl; [|discriminate]. now intros [= <-].
Qed.

Lemma enumerate_elem {A : Type} (l : list A) (item : nat * A) :
  item ∈ enumerate l <-> l !! item.1 = Some item.2.
Proof.
  split.
  - intros H. apply list_elem_of_lookup in H as [i H].
    apply enumerate_lookup in H as [<- H]. exact H.
  - intros H. apply list_elem_of_lookup. exists item.1.
    unfold enumerate. rewrite enumerate_from_lookup, H. now destruct item.
Qed.

Lemma enumerate_from_fst {A : Type} (start : nat) (l : list A) :
  map fst (enumerate_from start l) = seq start (length l).
Proof.
  revert start. induction l as [|x l IH]; intros start; [reflexivity|].
  simpl. now rewrite IH.
Qed.

Lemma enumerate_from_ge {A : Type} (start : nat) (l : list A) (item : nat * A) :
  item ∈ enumerate_from start l -> (start <= item.1)%nat.
Proof.
  intros H. apply list_elem_of_lookup in H as [i H].
  rewrite enumerate_from_lookup in H.
  destruct (l !! i); [|discriminate]. injection H as <-. simpl. lia.
Qed.

Lemma fold_left_append {A B : Type} (keep : A -> bool) (f : A -> B)
  (step : list B -> A -> list B) (l : list A) (acc : list B) :
  (forall acc x, step acc x = if keep x then acc ++ [f x] else acc) ->
  fold_left step l acc = acc ++ map f (List.filter keep l).
Proof.
  intros Hstep. revert acc.
  induction l as [|x l IH]; intros acc; simpl; [now rewrite app_nil_r|].
  rewrite IH, Hstep. destruct (keep x); [|reflexivity].
  simpl. now rewrite <- app_assoc.
Qed.

(** [load_pdf_pages] keeps the pages that have text once cleaned, in
    document order, numbered from 1 by their position in the document. *)
Lemma load_pdf_pages_spec (env : Upload.Env) (filename : string)
  (raw_texts : list string) :
  Upload.load_pdf_pages env filename (Some raw_texts)
  = map (Chunking.page_of env filename)
        (List.filter (Chunking.has_text env) (enumerate raw_texts)).
Proof.
  unfold Upload.load_pdf_pages.
  now rewrite (fold_left_append (Chunking.has_text env)
                 (Chunking.page_of env filename)) by now intros acc [i r].
Qed.

Lemma for_each_append {A B : Type} (f : A -> list B) (g : A -> list Call)
  (body : list B -> A -> M (list B)) (l : list A) (acc : list B) :
  (forall acc x, x ∈ l -> body acc x = (Ok (acc ++ f x), g x)) ->
  for_each body l acc = (Ok (acc ++ flat_map f l), flat_map g l).
Proof.
  revert acc. induction l as [|x l IH]; intros acc Hbody; simpl.
  - now rewrite app_nil_r.
  - rewrite Hbody by left. unfold bind.
    rewrite IH by (intros a y Hy; apply Hbody; now right).
    now rewrite <- app_assoc.
Qed.

Lemma flat_map_singleton {A B : Type} (h : A -> B) (l : list A) :
  flat_map (fun x => [h x]) l = map h l.
Proof. induction l as [|x l IH]; simpl; [reflexivity|now rewrite IH]. Qed.

Lemma flat_map_nil {A B : Type} (l : list A) :
  flat_map (fun _ => @nil B) l = [].
Proof. induction l as [|x l IH]; simpl; [reflexivity|exact IH]. Qed.

Lemma chunk_part_spec (env : Upload.Env) (pages : list Upload.Page)
  (i : nat) (page : Upload.Page) (chunks : list Upload.Chunk)
  (part : nat * string) :
  Forall one_number pages -> pages !! i = Some page ->
  Upload.chunk_part pages i (Upload.source page) (Chunking.number page)
                    chunks part
  = (Ok (chunks ++ Chunking.chunks_of_part pages (i, page) part), []).
Proof.
  intros Hwf Hi. destruct part as [j part].
  unfold Upload.chunk_part, Chunking.chunks_of_part, Chunking.nonblank. simpl.
  destruct (str_bool (strip part)); simpl; [|now rewrite app_nil_r].
  destruct i as [|i]; simpl; [reflexivity|].
  rewrite Nat.sub_0_r.
  destruct j as [|j]; simpl; [|reflexivity].
  unfold subscript.
  destruct (pages !! i) as [prev|] eqn:Eprev; simpl.
  - rewrite Forall_forall in Hwf.
    rewrite (Hwf prev) by (eapply list_elem_of_lookup_2; exact Eprev).
    reflexivity.
  - apply lookup_ge_None in Eprev. apply lookup_lt_Some in Hi. lia.
Qed.

Lemma text_to_split_spec (pages : list Upload.Page) (i : nat)
  (page : Upload.Page) :
  pages !! i = Some page ->
  Upload.text_to_split pages i page = Ok (Chunking.submitted pages (i, page)).
Proof.
  intros Hi. unfold Upload.text_to_split, Chunking.submitted, subscript. simpl.
  destruct i as [|i]; simpl; [reflexivity|].
  rewrite Nat.sub_0_r.
  destruct (pages !! i) as [prev|] eqn:Eprev; simpl; [reflexivity|].
  apply lookup_ge_None in Eprev. apply lookup_lt_Some in Hi. lia.
Qed.

Lemma chunk_page_spec (env : Upload.Env) (pages : list Upload.Page)
  (chunks : list Upload.Chunk) (item : nat * Upload.Page) :
  Forall one_number pages -> item ∈ enumerate pages ->
  Upload.chunk_page env pages chunks item
  = (Ok (chunks ++ Chunking.chunks_of_page env pages item),
     [SplitCall (Chunking.submitted pages item)]).
Proof.
  intros Hwf Hitem. apply enumerate_elem in Hitem.
  destruct item as [i page]. simpl in Hitem.
  assert (Hpage : one_number page).
  { rewrite Forall_forall in Hwf. apply Hwf.
    eapply list_elem_of_lookup_2. exact Hitem. }
  unfold Upload.chunk_page, subscript. rewrite Hpage. simpl.
  rewrite (text_to_split_spec _ _ _ Hitem). simpl.
  rewrite (for_each_append (Chunking.chunks_of_part pages (i, page))
             (fun _ => [])).
  - now rewrite flat_map_nil.
  - intros acc part _. now apply chunk_part_spec.
Qed.

(** On page dicts with one page number each, [split_pages_with_metadata]
    does not raise; it submits one text per page and returns the chunks of
    the pages in page order. *)
Lemma split_pages_with_metadata_spec (env : Upload.Env)
  (pages : list Upload.Page) :
  Forall one_number pages ->
  Upload.split_pages_with_metadata env pages
  = (Ok (flat_map (Chunking.chunks_of_page env pages) (enumerate pages)),
     map (fun item => SplitCall (Chunking.submitted pages item))
         (enumerate pages)).
Proof.
  intros Hwf. unfold Upload.split_pages_with_metadata.
  rewrite (for_each_append (Chunking.chunks_of_page env pages)
             (fun item => [SplitCall (Chunking.submitted pages item)])).
  - now rewrite flat_map_singleton.
  - intros acc item Hitem. now apply chunk_page_spec.
Qed.

Lemma load_pdf_pages_one_number (env : Upload.Env) (filename : string)
  (doc : option (list string)) :
  Forall one_number (Upload.load_pdf_pages env filename doc).
Proof.
  destruct doc as [raw_texts|]; [|constructor].
  rewrite load_pdf_pages_spec. apply Forall_map.
  apply Forall_forall. intros item _. reflexivity.
Qed.

Lemma filter_head {A : Type} (keep : A -> bool) (l : list A) (a : A) :
  List.filter keep l !! 0%nat = Some a ->
  exists l1 l2,
    l = l1 ++ a :: l2 /\ Forall (fun x => keep x = false) l1 /\ keep a = true.
Proof.
  induction l as [|x l IH]; simpl; [discriminate|].
  destruct (keep x) eqn:E; simpl.
  - intros [= <-]. exists [], l. repeat split; [constructor|exact E].
  - intros H. destruct (IH H) as (l1 & l2 & -> & Hl1 & Ha).
    exists (x :: l1), l2. repeat split; [now constructor|exact Ha].
Qed.

(** Two neighbours in a filtered list are separated, in the list itself,
    only by elements the filter drops. *)
Lemma filter_adjacent {A : Type} (keep : A -> bool) (l : list A) (i : nat)
  (a b : A) :
  List.filter keep l !! i = Some a ->
  List.filter keep l !! S i = Some b ->
  exists l1 mid l2,
    l = l1 ++ a :: mid ++ b :: l2
    /\ Forall (fun x => keep x = false) mid
    /\ keep a = true /\ keep b = true.
Proof.
  revert i. induction l as [|x l IH]; intros i; simpl; [discriminate|].
  destruct (keep x) eqn:E.
  - destruct i as [|i]; simpl.
    + intros [= <-] Hb.
      destruct (filter_head keep l b Hb) as (mid & l2 & -> & Hmid & Hkb).
      exists [], mid, l2. now repeat split.
    + intros Ha Hb.
      destruct (IH i Ha Hb) as (l1 & mid & l2 & -> & Hmid & Hka & Hkb).
      exists (x :: l1), mid, l2. now repeat split.
  - intros Ha Hb.
    destruct (IH i Ha Hb) as (l1 & mid & l2 & -> & Hmid & Hka & Hkb).
    exists (x :: l1), mid, l2. now repeat split.
Qed.

(** Two neighbours in the page list come from two pages of the document
    with text, and no page between them has text. *)
Lemma load_pdf_pages_adjacent (env : Upload.Env) (filename : string)
  (raw_texts : list string) (i : nat) (prev page : Upload.Page) :
  Upload.load_pdf_pages env filename (Some raw_texts) !! i = Some prev ->
  Upload.load_pdf_pages env filename (Some raw_texts) !! S i = Some page ->
  exists m n rm rn,
    raw_texts !! m = Some rm /\ raw_texts !! n = Some rn /\ (m < n)%nat
    /\ prev = Chunking.page_of env filename (m, rm)
    /\ page = Chunking.page_of env filename (n, rn)
    /\ Upload.clean_text env rm <> "" /\ Upload.clean_text env rn <> ""
    /\ forall k r, (m < k < n)%nat -> raw_texts !! k = Some r ->
                   Upload.clean_text env r = "".
Proof.
  rewrite load_pdf_pages_spec, !list_lookup_fmap.
  destruct (List.filter _ _ !! i) as [[m rm]|] eqn:Ea; [|discriminate].
  destruct (List.filter _ _ !! S i) as [[n rn]|] eqn:Eb; [|discriminate].
  simpl. intros [= <-] [= <-].
  destruct (filter_adjacent _ _ _ _ _ Ea Eb)
    as (l1 & mid & l2 & El & Hmid & Hka & Hkb).
  assert (Hat : forall k item, enumerate raw_texts !! k = Some item ->
                               item.1 = k /\ raw_texts !! k = Some item.2)
    by (intros k item; apply enumerate_lookup).
  assert (Hm : enumerate raw_texts !! length l1 = Some (m, rm)).
  { rewrite El. now rewrite list_lookup_middle. }
  assert (Hn : enumerate raw_texts !! (length l1 + S (length mid))%nat
               = Some (n, rn)).
  { rewrite El, lookup_app_r by lia.
    replace (length l1 + S (length mid) - length l1)%nat
      with (S (length mid)) by lia.
    simpl. now rewrite list_lookup_middle. }
  apply Hat in Hm as [Hm1 Hm2], Hn as [Hn1 Hn2]. simpl in *. subst m n.
  exists (length l1), (length l1 + S (length mid))%nat, rm, rn.
  split; [exact Hm2|]. split; [exact Hn2|]. split; [lia|].
  split; [reflexivity|]. split; [reflexivity|].
  split; [now apply str_bool_true|]. split; [now apply str_bool_true|].
  intros k r Hk Hr.
  {
    assert (Hin : (k, r) ∈ mid).
    { assert (Hkr : enumerate raw_texts !! k = Some (k, r)).
      { unfold enumerate. rewrite enumerate_from_lookup, Hr. reflexivity. }
      rewrite El, lookup_app_r in Hkr by lia.
      destruct (k - length l1)%nat as [|d] eqn:Ed; [lia|]. simpl in Hkr.
      rewrite lookup_app_l in Hkr by lia.
      eapply list_elem_of_lookup_2. exact Hkr. }
    rewrite Forall_forall in Hmid. apply Hmid in Hin.
    now apply str_bool_false. }
Qed.

Lemma submitted_lookup (pages : list Upload.Page) (i : nat) :
  map (Chunking.submitted pages) (enumerate pages) !! i
  = (fun page => Chunking.submitted pages (i, page)) <$> pages !! i.
Proof.
  rewrite list_lookup_fmap. unfold enumerate.
  rewrite enumerate_from_lookup. now destruct (pages !! i).
Qed.

(** C3, as the code has it.  Chunking a document does not raise and
    submits one text per page with text, in page order.  The first is the
    first page's text as it is.  For any later page it is the last 300
    characters of the cleaned text of the nearest preceding page of the
    document that has text (the whole text if shorter), then one space,
    then the page's own text. *)
Theorem carry_over_is_last_300_characters (env : Upload.Env)
  (filename : string) (raw_texts : list string) :
  let pages := Upload.load_pdf_pages env filename (Some raw_texts) in
  exists texts chunks,
    Upload.document_chunks env filename (Some raw_texts)
    = (Ok chunks, map SplitCall texts)
    /\ length texts = length pages
    /\ (forall page, pages !! 0%nat = Some page ->
                     texts !! 0%nat = Some (Upload.text page))
    /\ (forall i prev page,
          pages !! i = Some prev -> pages !! S i = Some page ->
          texts !! S i
          = Some (last_chars 300 (Upload.text prev) +:+ " " +:+ Upload.text page)
          /\ exists m n rm rn,
               raw_texts !! m = Some rm /\ raw_texts !! n = Some rn
               /\ (m < n)%nat
               /\ prev = Chunking.page_of env filename (m, rm)
               /\ page = Chunking.page_of env filename (n, rn)
               /\ Upload.clean_text env rm <> ""
               /\ Upload.clean_text env rn <> ""
               /\ forall k r, (m < k < n)%nat -> raw_texts !! k = Some r ->
                              Upload.clean_text env r = "").
Proof.
  intros pages.
  exists (map (Chunking.submitted pages) (enumerate pages)),
         (flat_map (Chunking.chunks_of_page env pages) (enumerate pages)).
  split; [|split; [|split]].
  - unfold Upload.document_chunks. fold pages.
    rewrite split_pages_with_metadata_spec
      by apply load_pdf_pages_one_number.
    now rewrite map_map.
  - rewrite length_map. unfold enumerate.
    rewrite <- (length_map fst), enumerate_from_fst. apply length_seq.
  - intros page H0. rewrite submitted_lookup, H0. reflexivity.
  - intros i prev page Hprev Hpage. split.
    + rewrite submitted_lookup, Hpage. unfold Chunking.submitted. simpl.
      now rewrite Hprev.
    + eapply load_pdf_pages_adjacent; eassumption.
Qed.

(* ====================================================================== *)
(** * Chunk ids *)
(* ====================================================================== *)

Lemma string_of_uint_underscore_free (d : Decimal.uint) :
  underscore_free (NilEmpty.string_of_uint d).
Proof. induction d; simpl; (split; [discriminate|assumption]) || exact I. Qed.

Lemma str_int_underscore_free (z : Z) : underscore_free (str_int z).
Proof.
  unfold str_int, NilZero.string_of_int, NilZero.string_of_uint.
  destruct (Z.to_int z) as [d|d]; [|split; [discriminate|]];
    (destruct d; [simpl; split; [discriminate|exact I]
                 | apply string_of_uint_underscore_free ..]).
Qed.

Lemma str_int_inj (a b : Z) : str_int a = str_int b -> a = b.
Proof.
  assert (Hrt : forall z, NilZero.int_of_string (str_int z) = Some (Z.to_int z)).
  { intros z. apply NilZero.isi; destruct z; simpl; try discriminate;
      intros [= E]; exact (DecimalPos.Unsigned.to_uint_nonnil _ E). }
  intros H. apply DecimalZ.to_int_inj.
  pose proof (Hrt a) as Ha. rewrite H, Hrt in Ha. congruence.
Qed.

Lemma app_inv_head_string (s a b : string) : s +:+ a = s +:+ b -> a = b.
Proof. induction s as [|c s IH]; simpl; [trivial|]. intros [= H]. auto. Qed.

(** Two numerals followed by an underscore and a rest agree piecewise. *)
Lemma app_underscore_inj (p p' r r' : string) :
  underscore_free p -> underscore_free p' ->
  p +:+ String "_" r = p' +:+ String "_" r' -> p = p' /\ r = r'.
Proof.
  revert p'. induction p as [|c p IH]; intros [|c' p'] Hp Hp'; simpl.
  - intros [= ->]. now split.
  - intros [= <- _]. now destruct Hp'.
  - intros [= -> _]. now destruct Hp.
  - intros [= <- H]. destruct Hp as [_ Hp], Hp' as [_ Hp'].
    destruct (IH p' Hp Hp' H) as [-> ->]. now split.
Qed.

Lemma id_of_inj (filename : string) (key key' : Z * nat) :
  Chunking.id_of filename key = Chunking.id_of filename key' -> key = key'.
Proof.
  destruct key as [n j], key' as [n' j']. unfold Chunking.id_of. simpl.
  intros H. apply app_inv_head_string in H. injection H as H.
  apply app_underscore_inj in H as [Hn H];
    [|apply str_int_underscore_free ..].
  injection H as H.
  apply str_int_inj in Hn, H. apply Nat2Z.inj in H. congruence.
Qed.

Lemma elem_of_map_fst_filter {A B : Type} (keep : A * B -> bool)
  (l : list (A * B)) (a : A) :
  a ∈ map fst (List.filter keep l) -> a ∈ map fst l.
Proof.
  induction l as [|x l IH]; simpl; [trivial|].
  destruct (keep x); simpl; rewrite ?elem_of_cons; intuition.
Qed.

Lemma NoDup_map_fst_filter {A B : Type} (keep : A * B -> bool)
  (l : list (A * B)) :
  NoDup (map fst l) -> NoDup (map fst (List.filter keep l)).
Proof.
  induction l as [|x l IH]; simpl; [trivial|].
  intros H. apply NoDup_cons in H as [Hx Hl].
  destruct (keep x); simpl; [|auto].
  apply NoDup_cons. split; [|auto].
  intros Hin. apply Hx. eapply elem_of_map_fst_filter. exact Hin.
Qed.

Lemma NoDup_enumerate_fst {A : Type} (l : list A) :
  NoDup (map fst (enumerate l)).
Proof. unfold enumerate. rewrite enumerate_from_fst. apply NoDup_seq. Qed.

Lemma enumerate_from_snd {A : Type} (start : nat) (l : list A) :
  map snd (enumerate_from start l) = l.
Proof.
  revert start. induction l as [|x l IH]; intros start; simpl;
    [reflexivity|now rewrite IH].
Qed.

(** Keys built from distinct page numbers and, per page, distinct
    indices are distinct. *)
Lemma NoDup_keys {A : Type} (num : A -> Z) (js : A -> list nat) (l : list A) :
  NoDup (map num l) -> (forall x, NoDup (js x)) ->
  NoDup (flat_map (fun x => map (fun j => (num x, j)) (js x)) l).
Proof.
  intros Hnum Hjs. induction l as [|x l IH]; simpl; [constructor|].
  simpl in Hnum. apply NoDup_cons in Hnum as [Hx Hl].
  apply NoDup_app. split; [|split; [|auto]].
  - apply NoDup_fmap_2; [|apply Hjs]. intros j j' [= H]. exact H.
  - intros key Hkey Hin.
    apply list_elem_of_In, in_flat_map in Hin as (y & Hy & Hin).
    apply list_elem_of_In, list_elem_of_fmap in Hin as (j' & -> & _).
    apply list_elem_of_fmap in Hkey as (j & [= H _] & _).
    apply Hx. rewrite <- H. apply list_elem_of_fmap. exists y.
    split; [reflexivity|]. now apply list_elem_of_In.
Qed.

Lemma load_pdf_pages_numbers (env : Upload.Env) (filename : string)
  (doc : option (list string)) :
  NoDup (map Chunking.number (Upload.load_pdf_pages env filename doc))
  /\ Forall (fun page => Upload.source page = filename)
            (Upload.load_pdf_pages env filename doc).
Proof.
  destruct doc as [raw_texts|]; [|split; constructor].
  rewrite load_pdf_pages_spec. split.
  - rewrite map_map.
    change (fun x => Chunking.number (Chunking.page_of env filename x))
      with (fun x : nat * string => Z.of_nat x.1 + 1).
    rewrite <- (map_map fst (fun m => Z.of_nat m + 1)).
    apply NoDup_fmap_2; [intros a b; lia|].
    apply NoDup_map_fst_filter, NoDup_enumerate_fst.
  - apply Forall_map, Forall_forall. now intros item _.
Qed.

Lemma chunks_of_page_ids (env : Upload.Env) (pages : list Upload.Page)
  (item : nat * Upload.Page) :
  map Upload.chunk_id (Chunking.chunks_of_page env pages item)
  = map (Chunking.id_of (Upload.source item.2))
        (Chunking.emitted_keys (Chunking.number item.2)
                               (Chunking.parts_of env pages item)).
Proof.
  unfold Chunking.chunks_of_page, Chunking.emitted_keys.
  induction (enumerate (Chunking.parts_of env pages item)) as [|part l IH];
    simpl; [reflexivity|].
  rewrite map_app, IH. unfold Chunking.chunks_of_part at 1.
  now destruct (Chunking.nonblank part).
Qed.

Lemma map_flat_map {A B C : Type} (f : B -> C) (g : A -> list B) (l : list A) :
  map f (flat_map g l) = flat_map (fun x => map f (g x)) l.
Proof.
  induction l as [|x l IH]; simpl; [reflexivity|].
  now rewrite map_app, IH.
Qed.

Lemma flat_map_ext_elem {A B : Type} (f g : A -> list B) (l : list A) :
  (forall x, x ∈ l -> f x = g x) -> flat_map f l = flat_map g l.
Proof.
  induction l as [|x l IH]; intros H; simpl; [reflexivity|].
  rewrite H by left. rewrite IH; [reflexivity|].
  intros y Hy. apply H. now right.
Qed.



Lemma carry_over_is_last_300_characters_witness :
  exists texts chunks,
    Upload.document_chunks Samples.whole_text "paper"
      (Some [Samples.long_page; "   "; "next page"])
    = (Ok chunks, map SplitCall texts)
    /\ texts !! 1%nat
       = Some (last_chars 300 Samples.long_page +:+ " " +:+ "next page").
Proof.
  destruct (carry_over_is_last_300_characters Samples.whole_text "paper"
              [Samples.long_page; "   "; "next page"])
    as (texts & chunks & Hrun & _ & _ & Hnext).
  exists texts, chunks. split; [exact Hrun|].
  exact (proj1 (Hnext 0%nat
                  (Chunking.page_of Samples.whole_text "paper"
                                    (0%nat, Samples.long_page))
                  (Chunking.page_of Samples.whole_text "paper"
                                    (2%nat, "next page"))
                  eq_refl eq_refl)).
Defined.

(** C3, as stated, fails: the splitter is configured with a chunk overlap
    of 200, and for a first page of 250 characters the text submitted for
    the next page starts with all 250 of them, not with the last 200. *)
Lemma carry_over_is_not_the_chunk_overlap :
  Upload.chunk_overlap Upload.splitter = 200
  /\ trace (Upload.document_chunks Samples.whole_text "paper"
                                   (Some [Samples.long_page; "next page"]))
     = [ SplitCall Samples.long_page;
         SplitCall (Samples.long_page +:+ " " +:+ "next page") ]
  /\ Samples.long_page +:+ " " +:+ "next page"
     <> last_chars (Z.to_nat (Upload.chunk_overlap Upload.splitter))
                   Samples.long_page
        +:+ " " +:+ "next page".
Proof.
  split; [reflexivity|]. split; [vm_compute; reflexivity|].
  intros H. apply (f_equal String.length) in H. vm_compute in H.
  discriminate H.
Qed.

(* ====================================================================== *)
(** * Text cleaning *)
(* ====================================================================== *)

Lemma collapse_from_plain (in_run : bool) (s : string) :
  only_plain_spaces (TextCleaner.collapse_from in_run s).
Proof.
  revert in_run. induction s as [|c r IH]; intros in_run; simpl; [exact I|].
  destruct (isspace c) eqn:E.
  - destruct in_run; [apply IH|]. simpl. split; [reflexivity|apply IH].
  - simpl. split; [congruence|apply IH].
Qed.

Lemma collapse_from_single (in_run : bool) (s : string) :
  no_double_space (TextCleaner.collapse_from in_run s)
  /\ (in_run = true ->
      starts_with_space (TextCleaner.collapse_from in_run s) = false).
Proof.
  revert in_run. induction s as [|c r IH]; intros in_run; simpl; [now split|].
  destruct (isspace c) eqn:E.
  - destruct in_run; [apply IH|].
    split; [|discriminate]. simpl. split; [|apply IH].
    intros _. now apply IH.
  - simpl. split; [|now intros _].
    split; [congruence|apply IH].
Qed.

Lemma lstrip_plain (s : string) :
  only_plain_spaces s -> only_plain_spaces (lstrip s).
Proof.
  induction s as [|c r IH]; simpl; [trivial|].
  intros [Hc Hr]. destruct (isspace c) eqn:E; [auto|].
  simpl. split; [congruence|exact Hr].
Qed.

Lemma lstrip_single (s : string) :
  no_double_space s -> no_double_space (lstrip s).
Proof.
  induction s as [|c r IH]; simpl; [trivial|].
  intros [Hc Hr]. destruct (isspace c) eqn:E; [auto|].
  simpl. split; [congruence|exact Hr].
Qed.

Lemma lstrip_start (s : string) : starts_with_space (lstrip s) = false.
Proof.
  induction s as [|c r IH]; simpl; [reflexivity|].
  destruct (isspace c) eqn:E; [exact IH|exact E].
Qed.

Lemma rstrip_start (s : string) :
  starts_with_space s = false -> starts_with_space (rstrip s) = false.
Proof.
  destruct s as [|c r]; simpl; [trivial|]. intros E.
  destruct (rstrip r); [now rewrite E|exact E].
Qed.

Lemma rstrip_plain (s : string) :
  only_plain_spaces s -> only_plain_spaces (rstrip s).
Proof.
  induction s as [|c r IH]; simpl; [trivial|].
  intros [Hc Hr]. specialize (IH Hr).
  destruct (rstrip r) as [|c' r'].
  - destruct (isspace c) eqn:E; simpl; [exact I|]. split; [congruence|exact I].
  - now split.
Qed.

Lemma rstrip_single (s : string) :
  no_double_space s -> no_double_space (rstrip s).
Proof.
  induction s as [|c r IH]; simpl; [trivial|].
  intros [Hc Hr]. specialize (IH Hr).
  pose proof (rstrip_start r) as Hstart.
  destruct (rstrip r) as [|c' r'].
  - destruct (isspace c) eqn:E; simpl; [exact I|]. split; [congruence|exact I].
  - split; [|exact IH]. intros Hsp. apply Hstart. now apply Hc.
Qed.

Lemma rstrip_end (s : string) : ends_with_space (rstrip s) = false.
Proof.
  induction s as [|c r IH]; simpl; [reflexivity|].
  destruct (rstrip r) as [|c' r'].
  - destruct (isspace c) eqn:E; simpl; [reflexivity|exact E].
  - exact IH.
Qed.

Lemma strip_tidy (s : string) :
  only_plain_spaces s -> no_double_space s -> tidy (strip s).
Proof.
  intros Hp Hs. unfold tidy, strip. repeat split.
  - now apply rstrip_plain, lstrip_plain.
  - now apply rstrip_single, lstrip_single.
  - apply rstrip_start, lstrip_start.
  - apply rstrip_end.
Qed.

(** X1.  Whatever the raw page text, the cleaned text is tidy: its only
    whitespace characters are plain spaces (no newline, no tab), no two of
    them are adjacent, and it neither starts nor ends with one. *)
Theorem clean_text_is_tidy (raw : string) :
  tidy (TextCleaner.clean_text raw).
Proof.
  unfold TextCleaner.clean_text, TextCleaner.collapse_whitespace.
  apply strip_tidy.
  - apply collapse_from_plain.
  - apply collapse_from_single.
Qed.

Lemma cid_match_no_paren (c : ascii) (r : string) :
  c <> "("%char -> TextCleaner.cid_match (String c r) = None.
Proof.
  intros Hc. unfold TextCleaner.cid_match. cbn [String.prefix].
  destruct (ascii_dec "(" c) as [E|E]; [congruence|reflexivity].
Qed.

Lemma append_cons (c : ascii) (a t : string) :
  String c a +:+ t = String c (a +:+ t).
Proof. reflexivity. Qed.

Lemma append_empty_r (s : string) : s +:+ EmptyString = s.
Proof.
  induction s as [|c s IH]; [reflexivity|]. now rewrite append_cons, IH.
Qed.

Lemma remove_cid_copies (a t : string) :
  no_open_paren a ->
  TextCleaner.remove_cid_from 0 (a +:+ t) = a +:+ TextCleaner.remove_cid_from 0 t.
Proof.
  induction a as [|c a IH]; [reflexivity|].
  intros [Hc Ha]. rewrite !append_cons.
  cbn [TextCleaner.remove_cid_from].
  rewrite (cid_match_no_paren c _ Hc). now rewrite IH.
Qed.

Lemma replace_newline_plain (s : string) :
  only_plain_spaces s -> TextCleaner.replace_newline s = s.
Proof.
  induction s as [|c r IH]; simpl; [reflexivity|].
  intros [Hc Hr]. rewrite (IH Hr).
  destruct (Ascii.eqb_spec c (ascii_of_nat 10)) as [->|_]; [|reflexivity].
  specialize (Hc eq_refl). discriminate Hc.
Qed.

Lemma collapse_from_tidy (s : string) :
  only_plain_spaces s -> no_double_space s ->
  TextCleaner.collapse_from false s = s
  /\ (starts_with_space s = false -> TextCleaner.collapse_from true s = s).
Proof.
  induction s as [|c r IH]; simpl; [now split|].
  intros [Hc Hr] [Hd Hs]. destruct (IH Hr Hs) as [IH1 IH2].
  destruct (isspace c) eqn:E.
  - rewrite (Hc eq_refl). split; [|discriminate].
    now rewrite (IH2 (Hd eq_refl)).
  - rewrite IH1. now split.
Qed.

Lemma lstrip_id (s : string) : starts_with_space s = false -> lstrip s = s.
Proof. destruct s as [|c r]; simpl; [trivial|]. now intros ->. Qed.

Lemma rstrip_id (s : string) : ends_with_space s = false -> rstrip s = s.
Proof.
  induction s as [|c r IH]; simpl; [trivial|].
  destruct r as [|c' r'].
  - simpl. now intros ->.
  - intros H. now rewrite (IH H).
Qed.

(** X2.  A text that is already tidy and has no opening parenthesis is
    left as it is by [clean_text]. *)
Theorem clean_text_keeps_tidy_text (text : string) :
  tidy text -> no_open_paren text -> TextCleaner.clean_text text = text.
Proof.
  intros (Hp & Hs & Hstart & Hend) Hparen.
  unfold TextCleaner.clean_text, TextCleaner.collapse_whitespace,
    TextCleaner.remove_cid.
  pose proof (remove_cid_copies text EmptyString Hparen) as Hcid.
  rewrite append_empty_r in Hcid. cbn [TextCleaner.remove_cid_from] in Hcid.
  rewrite append_empty_r in Hcid. rewrite Hcid.
  rewrite (replace_newline_plain _ Hp).
  rewrite (proj1 (collapse_from_tidy _ Hp Hs)).
  unfold strip. now rewrite (lstrip_id _ Hstart), (rstrip_id _ Hend).
Qed.

Lemma clean_text_keeps_tidy_text_witness :
  TextCleaner.clean_text "see Fig. 3 below" = "see Fig. 3 below".
Proof.
  apply clean_text_keeps_tidy_text.
  - repeat split; simpl; intros H; try discriminate H; reflexivity.
  - repeat split; discriminate.
Defined.

Lemma digit_run_numeral (ds b : string) :
  TextCleaner.digit_run ds = String.length ds ->
  TextCleaner.digit_run (ds +:+ String ")" b) = String.length ds.
Proof.
  induction ds as [|c ds IH]; [reflexivity|].
  rewrite append_cons. simpl.
  destruct (TextCleaner.isdigit c); [|discriminate].
  intros [= H]. now rewrite IH.
Qed.

Lemma drop_chars_numeral (ds t : string) :
  TextCleaner.drop_chars (String.length ds) (ds +:+ t) = t.
Proof.
  induction ds as [|c ds IH]; [now destruct t|].
  rewrite append_cons. exact IH.
Qed.

Lemma remove_cid_skips (ds b : string) :
  TextCleaner.remove_cid_from (String.length ds + 1) (ds +:+ String ")" b)
  = TextCleaner.remove_cid_from 0 b.
Proof.
  induction ds as [|c ds IH]; [reflexivity|].
  rewrite append_cons. exact IH.
Qed.

Lemma prefix_empty (s : string) : String.prefix EmptyString s = true.
Proof. now destruct s. Qed.

Lemma prefix_cons (c : ascii) (p s : string) :
  String.prefix (String c p) (String c s) = String.prefix p s.
Proof. simpl. now destruct (ascii_dec c c). Qed.

Lemma cid_match_marker (ds b : string) :
  numeral ds ->
  TextCleaner.cid_match ("(cid:" +:+ ds +:+ String ")" b)
  = Some (5 + String.length ds + 1)%nat.
Proof.
  intros [Hne Hds]. unfold TextCleaner.cid_match.
  change ("(cid:" +:+ ds +:+ String ")" b)
    with (String "(" (String "c" (String "i" (String "d" (String ":"
            (ds +:+ String ")" b)))))).
  rewrite !prefix_cons, prefix_empty.
  change (TextCleaner.drop_chars 5
            (String "(" (String "c" (String "i" (String "d" (String ":"
               (ds +:+ String ")" b)))))))
    with (ds +:+ String ")" b).
  rewrite (digit_run_numeral ds b Hds).
  change (TextCleaner.drop_chars (5 + String.length ds)
            (String "(" (String "c" (String "i" (String "d" (String ":"
               (ds +:+ String ")" b)))))))
    with (TextCleaner.drop_chars (String.length ds) (ds +:+ String ")" b)).
  rewrite drop_chars_numeral, prefix_cons, prefix_empty.
  destruct ds; [congruence|reflexivity].
Qed.

Lemma remove_cid_marker (ds b : string) :
  numeral ds ->
  TextCleaner.remove_cid_from 0 ("(cid:" +:+ ds +:+ String ")" b)
  = TextCleaner.remove_cid_from 0 b.
Proof.
  intros Hds. pose proof (cid_match_marker ds b Hds) as Hm.
  change ("(cid:" +:+ ds +:+ String ")" b)
    with (String "(" (String "c" (String "i" (String "d" (String ":"
            (ds +:+ String ")" b)))))) in *.
  cbn [TextCleaner.remove_cid_from]. rewrite Hm.
  replace (5 + String.length ds + 1 - 1)%nat
    with (S (S (S (S (String.length ds + 1))))) by lia.
  cbn [TextCleaner.remove_cid_from]. apply remove_cid_skips.
Qed.

(** X3.  A marker [(cid:N)], [N] a non-empty run of digits, is removed:
    when the text before it has no opening parenthesis, that text is kept,
    the marker is dropped and the removal goes on behind it; when the text
    behind it has none either, the cleaned text is that of the text
    without the marker. *)
Theorem clean_text_drops_cid_marker (a ds b : string) :
  no_open_paren a -> numeral ds ->
  TextCleaner.remove_cid (a +:+ "(cid:" +:+ ds +:+ ")" +:+ b)
  = a +:+ TextCleaner.remove_cid b
  /\ (no_open_paren b ->
      TextCleaner.clean_text (a +:+ "(cid:" +:+ ds +:+ ")" +:+ b)
      = TextCleaner.clean_text (a +:+ b)).
Proof.
  intros Ha Hds.
  assert (H : TextCleaner.remove_cid (a +:+ "(cid:" +:+ ds +:+ ")" +:+ b)
              = a +:+ TextCleaner.remove_cid b).
  { unfold TextCleaner.remove_cid. rewrite (remove_cid_copies _ _ Ha).
    f_equal. exact (remove_cid_marker ds b Hds). }
  split; [exact H|].
  intros Hb. unfold TextCleaner.clean_text. rewrite H.
  unfold TextCleaner.remove_cid.
  rewrite (remove_cid_copies a b Ha). reflexivity.
Qed.

Lemma clean_text_drops_cid_marker_witness :
  TextCleaner.clean_text ("fi" +:+ "(cid:12)" +:+ "rst")
  = TextCleaner.clean_text ("fi" +:+ "rst").
Proof.
  refine (proj2 (clean_text_drops_cid_marker "fi" "12" "rst" _ _) _).
  - repeat split; discriminate.
  - split; [discriminate|reflexivity].
  - repeat split; discriminate.
Defined.

Lemma all_whitespace_no_paren (s : string) :
  all_whitespace s = true -> no_open_paren s.
Proof.
  induction s as [|c r IH]; simpl; [trivial|].
  intros H. apply andb_true_iff in H as [Hc Hr].
  split; [|auto]. intros ->. discriminate Hc.
Qed.

Lemma replace_newline_whitespace (s : string) :
  all_whitespace s = true ->
  all_whitespace (TextCleaner.replace_newline s) = true.
Proof.
  induction s as [|c r IH]; simpl; [trivial|].
  intros H. apply andb_true_iff in H as [Hc Hr].
  rewrite (IH Hr), andb_true_r.
  destruct (Ascii.eqb c (ascii_of_nat 10)); [reflexivity|exact Hc].
Qed.

Lemma collapse_whitespace_run (s : string) :
  all_whitespace s = true ->
  TextCleaner.collapse_from true s = EmptyString
  /\ strip (TextCleaner.collapse_from false s) = EmptyString.
Proof.
  induction s as [|c r IH]; simpl; [now split|].
  intros H. apply andb_true_iff in H as [Hc Hr].
  rewrite Hc. destruct (IH Hr) as [IH1 IH2].
  rewrite IH1. now split.
Qed.

(** X4.  A raw page text made of whitespace only (or empty) is cleaned to
    the empty text, and [load_pdf_pages] leaves such a page out: no page
    dict carries its page number. *)
Theorem clean_text_of_whitespace (raw : string) :
  all_whitespace raw = true ->
  TextCleaner.clean_text raw = EmptyString
  /\ forall split_text filename raw_texts i page,
       raw_texts !! i = Some raw ->
       page ∈ Upload.load_pdf_pages (TextCleaner.with_splitter split_text)
                                     filename (Some raw_texts) ->
       Upload.page_num page <> [Z.of_nat i + 1].
Proof.
  intros Hraw.
  assert (Hclean : TextCleaner.clean_text raw = EmptyString).
  { unfold TextCleaner.clean_text, TextCleaner.collapse_whitespace,
      TextCleaner.remove_cid.
    pose proof (remove_cid_copies raw EmptyString
                  (all_whitespace_no_paren raw Hraw)) as Hcid.
    rewrite append_empty_r in Hcid. cbn [TextCleaner.remove_cid_from] in Hcid.
    rewrite append_empty_r in Hcid. rewrite Hcid.
    apply collapse_whitespace_run. now apply replace_newline_whitespace. }
  split; [exact Hclean|].
  intros split_text filename raw_texts i page Hi Hpage Hnum.
  rewrite load_pdf_pages_spec in Hpage.
  apply list_elem_of_fmap in Hpage as ([j r] & -> & Hin).
  apply list_elem_of_In, filter_In in Hin as [Hin Htext].
  apply list_elem_of_In, enumerate_elem in Hin. simpl in *.
  injection Hnum as Hnum. assert (j = i) as -> by lia.
  assert (r = raw) as -> by congruence.
  unfold Chunking.has_text in Htext. simpl in Htext.
  rewrite Hclean in Htext. discriminate Htext.
Qed.

Lemma clean_text_of_whitespace_witness :
  TextCleaner.clean_text (String (ascii_of_nat 10) " ") = EmptyString.
Proof.
  apply (proj1 (clean_text_of_whitespace (String (ascii_of_nat 10) " ")
                  eq_refl)).
Defined.

(* ====================================================================== *)
(** * The pages of a document *)
(* ====================================================================== *)

Lemma filter_enumerate_sorted {A : Type} (keep : nat * A -> bool)
  (start : nat) (l : list A) :
  StronglySorted lt (map fst (List.filter keep (enumerate_from start l))).
Proof.
  revert start. induction l as [|x l IH]; intros start; simpl; [constructor|].
  destruct (keep (start, x)); [|apply IH].
  simpl. constructor; [apply IH|].
  apply Forall_forall. intros k Hk.
  apply list_elem_of_fmap in Hk as (item & -> & Hitem).
  apply list_elem_of_In, filter_In in Hitem as [Hitem _].
  apply list_elem_of_In, enumerate_from_ge in Hitem. lia.
Qed.

Lemma StronglySorted_map {A B : Type} (R : A -> A -> Prop) (S : B -> B -> Prop)
  (f : A -> B) (l : list A) :
  (forall a b, R a b -> S (f a) (f b)) ->
  StronglySorted R l -> StronglySorted S (map f l).
Proof.
  intros Hf. induction 1 as [|x l Hl IH Hx]; simpl; constructor; [exact IH|].
  apply Forall_map. eapply Forall_impl; [exact Hx|]. intros y. apply Hf.
Qed.

Lemma load_pdf_pages_sorted (env : Upload.Env) (filename : string)
  (doc : option (list string)) :
  StronglySorted Z.lt
    (map Chunking.number (Upload.load_pdf_pages env filename doc)).
Proof.
  destruct doc as [raw_texts|]; [|constructor].
  rewrite load_pdf_pages_spec, map_map.
  change (fun x => Chunking.number (Chunking.page_of env filename x))
    with (fun x : nat * string => Z.of_nat x.1 + 1).
  rewrite <- (map_map fst (fun m => Z.of_nat m + 1)).
  apply (StronglySorted_map lt); [intros a b; lia|].
  apply filter_enumerate_sorted.
Qed.

(** X5.  The page dicts of a document are exactly those of its pages that
    have text once cleaned: a dict for the page at index [i] carries the
    number [i + 1], the file stem and the cleaned text.  They come in
    document order, so their numbers strictly increase.  An upload that
    cannot be read gives no page. *)
Theorem load_pdf_pages_keeps_pages_with_text (env : Upload.Env)
  (filename : string) (raw_texts : list string) :
  let pages := Upload.load_pdf_pages env filename (Some raw_texts) in
  (forall page,
      page ∈ pages
      <-> exists i raw,
            raw_texts !! i = Some raw
            /\ Upload.clean_text env raw <> EmptyString
            /\ page = {| Upload.page_num := [Z.of_nat i + 1];
                         Upload.source := filename;
                         Upload.text := Upload.clean_text env raw |})
  /\ StronglySorted Z.lt (map Chunking.number pages)
  /\ Upload.load_pdf_pages env filename None = [].
Proof.
  intros pages. subst pages. split; [|split; [|reflexivity]].
  - intros page. rewrite load_pdf_pages_spec. split.
    + intros Hpage.
      apply list_elem_of_fmap in Hpage as ([i raw] & -> & Hin).
      apply list_elem_of_In, filter_In in Hin as [Hin Htext].
      apply list_elem_of_In, enumerate_elem in Hin.
      exists i, raw. split; [exact Hin|]. split; [|reflexivity].
      now apply str_bool_true.
    + intros (i & raw & Hi & Htext & ->).
      apply list_elem_of_fmap. exists (i, raw). split; [reflexivity|].
      apply list_elem_of_In, filter_In. split.
      * apply list_elem_of_In, enumerate_elem. exact Hi.
      * now apply str_bool_true.
  - apply load_pdf_pages_sorted.
Qed.

(* ====================================================================== *)
(** * The chunks of a document *)
(* ====================================================================== *)

Lemma document_chunks_spec (env : Upload.Env) (filename : string)
  (doc : option (list string)) :
  let pages := Upload.load_pdf_pages env filename doc in
  Upload.document_chunks env filename doc
  = (Ok (flat_map (Chunking.chunks_of_page env pages) (enumerate pages)),
     map (fun item => SplitCall (Chunking.submitted pages item))
         (enumerate pages)).
Proof.
  intros pages. unfold Upload.document_chunks. fold pages.
  apply split_pages_with_metadata_spec, load_pdf_pages_one_number.
Qed.

Lemma StronglySorted_lookup {A : Type} (R : A -> A -> Prop) (l : list A)
  (i j : nat) (a b : A) :
  StronglySorted R l -> (i < j)%nat ->
  l !! i = Some a -> l !! j = Some b -> R a b.
Proof.
  intros Hs. revert i j. induction Hs as [|x l Hl IH Hx]; intros i j Hij Ha Hb.
  - discriminate.
  - destruct j as [|j]; [lia|]. destruct i as [|i]; simpl in *.
    + injection Ha as <-. rewrite Forall_forall in Hx. apply Hx.
      eapply list_elem_of_lookup_2. exact Hb.
    + apply (IH i j); [lia|assumption..].
Qed.

(** X6.  Every chunk of a document comes from one non-blank part the
    splitter returned for one page: its text is that part, its source is
    the file stem, its id names the page number and the part's position.
    Its page list is the page's number alone, except for the part at
    position 0 of a page that is not the first: that chunk also lists,
    first, the smaller number of the page before it in the page list. *)
Theorem chunks_come_from_nonblank_parts (env : Upload.Env)
  (filename : string) (doc : option (list string))
  (chunks : list Upload.Chunk) :
  let pages := Upload.load_pdf_pages env filename doc in
  value (Upload.document_chunks env filename doc) = Ok chunks ->
  forall c, c ∈ chunks ->
    exists i page j part,
      pages !! i = Some page
      /\ Chunking.parts_of env pages (i, page) !! j = Some part
      /\ strip part <> EmptyString
      /\ Upload.chunk_text c = part
      /\ Upload.chunk_source c = filename
      /\ Upload.chunk_id c = Chunking.id_of filename (Chunking.number page, j)
      /\ (i = 0%nat \/ j <> 0%nat ->
          Upload.chunk_page_num c = [Chunking.number page])
      /\ (forall i', i = S i' -> j = 0%nat ->
            exists prev,
              pages !! i' = Some prev
              /\ Upload.chunk_page_num c
                 = [Chunking.number prev; Chunking.number page]
              /\ Chunking.number prev < Chunking.number page).
Proof.
  intros pages Hrun c Hc.
  pose proof (document_chunks_spec env filename doc) as Hspec.
  cbv zeta in Hspec. fold pages in Hspec. rewrite Hspec in Hrun.
  injection Hrun as <-.
  apply list_elem_of_In, in_flat_map in Hc as ([i page] & Hitem & Hc).
  apply list_elem_of_In, enumerate_elem in Hitem. simpl in Hitem.
  unfold Chunking.chunks_of_page in Hc.
  apply in_flat_map in Hc as ([j part] & Hpart & Hc).
  apply list_elem_of_In, enumerate_elem in Hpart. simpl in Hpart.
  unfold Chunking.chunks_of_part, Chunking.nonblank in Hc. simpl in Hc.
  destruct (str_bool (strip part)) eqn:Eb; [|inversion Hc].
  destruct Hc as [<-|[]]. simpl.
  destruct (load_pdf_pages_numbers env filename doc) as [_ Hsrc].
  fold pages in Hsrc. rewrite Forall_forall in Hsrc.
  assert (Hfile : Upload.source page = filename)
    by (apply Hsrc; eapply list_elem_of_lookup_2; exact Hitem).
  exists i, page, j, part.
  split; [exact Hitem|]. split; [exact Hpart|].
  split; [now apply str_bool_true|]. split; [reflexivity|].
  split; [exact Hfile|]. split; [now rewrite Hfile|]. split.
  - intros [->|Hj]; [reflexivity|]. now destruct i, j.
  - intros i' -> ->.
    destruct (pages !! i') as [prev|] eqn:Eprev.
    + exists prev. split; [reflexivity|]. split; [reflexivity|].
      apply (StronglySorted_lookup Z.lt (map Chunking.number pages) i' (S i'));
        [apply load_pdf_pages_sorted|lia|..];
        rewrite list_lookup_fmap; [now rewrite Eprev|now rewrite Hitem].
    + apply lookup_ge_None in Eprev. apply lookup_lt_Some in Hitem. lia.
Qed.

Lemma chunks_come_from_nonblank_parts_witness :
  exists i page j part,
    Upload.load_pdf_pages Samples.whole_text "paper"
                          (Some ["first page"; "   "; "third page"]) !! i
    = Some page
    /\ Chunking.parts_of Samples.whole_text
         (Upload.load_pdf_pages Samples.whole_text "paper"
                                (Some ["first page"; "   "; "third page"]))
         (i, page) !! j = Some part
    /\ strip part <> EmptyString.
Proof.
  destruct (chunks_come_from_nonblank_parts Samples.whole_text "paper"
              (Some ["first page"; "   "; "third page"])
              [ {| Upload.chunk_page_num := [1];
                   Upload.chunk_source := "paper";
                   Upload.chunk_id := "paper_p1_c0";
                   Upload.chunk_text := "first page" |};
                {| Upload.chunk_page_num := [1; 3];
                   Upload.chunk_source := "paper";
                   Upload.chunk_id := "paper_p3_c0";
                   Upload.chunk_text := "first page third page" |} ]
              eq_refl
              {| Upload.chunk_page_num := [1; 3];
                 Upload.chunk_source := "paper";
                 Upload.chunk_id := "paper_p3_c0";
                 Upload.chunk_text := "first page third page" |})
    as (i & page & j & part & Hi & Hj & Hpart & _).
  - right. left.
  - exists i, page, j, part. now repeat split.
Defined.

Lemma keys_sorted {A : Type} (num : A -> Z) (js : A -> list nat) (l : list A) :
  StronglySorted Z.lt (map num l) ->
  (forall x, StronglySorted lt (js x)) ->
  StronglySorted key_lt_lex
    (flat_map (fun x => map (fun j => (num x, j)) (js x)) l).
Proof.
  intros Hnum Hjs. induction l as [|x l IH]; simpl; [constructor|].
  simpl in Hnum. apply StronglySorted_inv in Hnum as [Hl Hx].
  apply StronglySorted_app_2; [| |auto].
  - intros a b Ha Hb.
    apply list_elem_of_fmap in Ha as (j & -> & _).
    apply list_elem_of_In, in_flat_map in Hb as (y & Hy & Hb).
    apply list_elem_of_In, list_elem_of_fmap in Hb as (j' & -> & _).
    left. simpl. rewrite Forall_forall in Hx. apply Hx.
    apply list_elem_of_fmap. exists y. split; [reflexivity|].
    now apply list_elem_of_In.
  - apply (StronglySorted_map lt); [|apply Hjs].
    intros a b Hab. right. now split.
Qed.

Lemma document_keys_sorted (env : Upload.Env) (filename : string)
  (doc : option (list string)) :
  StronglySorted key_lt_lex
    (document_keys env (Upload.load_pdf_pages env filename doc)).
Proof.
  unfold document_keys, Chunking.emitted_keys.
  set (pages := Upload.load_pdf_pages env filename doc).
  rewrite (flat_map_ext_elem _
             (fun item : nat * Upload.Page =>
                map (fun j => (Chunking.number item.2, j))
                    (map fst (List.filter Chunking.nonblank
                                (enumerate (Chunking.parts_of env pages item))))))
    by (intros item _; now rewrite map_map).
  apply (keys_sorted (fun item : nat * Upload.Page => Chunking.number item.2)).
  - rewrite <- (map_map snd Chunking.number).
    unfold enumerate. rewrite enumerate_from_snd. apply load_pdf_pages_sorted.
  - intros item. apply filter_enumerate_sorted.
Qed.

Lemma chunks_of_page_last (env : Upload.Env) (pages : list Upload.Page)
  (item : nat * Upload.Page) :
  map (fun c => last (Upload.chunk_page_num c))
      (Chunking.chunks_of_page env pages item)
  = map (fun key : Z * nat => Some key.1)
        (Chunking.emitted_keys (Chunking.number item.2)
                               (Chunking.parts_of env pages item)).
Proof.
  unfold Chunking.chunks_of_page, Chunking.emitted_keys.
  induction (enumerate (Chunking.parts_of env pages item)) as [|part l IH];
    simpl; [reflexivity|].
  rewrite map_app, IH. unfold Chunking.chunks_of_part at 1.
  destruct (Chunking.nonblank part); [|reflexivity].
  simpl. f_equal.
  destruct item.1 as [|i']; [reflexivity|].
  destruct part.1; [|reflexivity].
  now destruct (pages !! i').
Qed.

Lemma document_chunk_ids (env : Upload.Env) (filename : string)
  (doc : option (list string)) :
  let pages := Upload.load_pdf_pages env filename doc in
  map Upload.chunk_id
      (flat_map (Chunking.chunks_of_page env pages) (enumerate pages))
  = map (Chunking.id_of filename) (document_keys env pages).
Proof.
  intros pages. unfold document_keys. rewrite !map_flat_map.
  apply flat_map_ext_elem. intros item Hitem.
  rewrite chunks_of_page_ids.
  destruct (load_pdf_pages_numbers env filename doc) as [_ Hsrc].
  fold pages in Hsrc. rewrite Forall_forall in Hsrc.
  apply enumerate_elem in Hitem.
  rewrite (Hsrc item.2) by (eapply list_elem_of_lookup_2; exact Hitem).
  reflexivity.
Qed.

(** X7.  The chunks of a document are in the order of their keys: to each
    chunk belongs the pair of its page number, which is the last entry of
    its page list, and its part position, which together make its id; and
    along the chunk list these pairs strictly increase, by page number
    first and by position within a page. *)
Theorem chunks_are_in_page_then_position_order (env : Upload.Env)
  (filename : string) (doc : option (list string))
  (chunks : list Upload.Chunk) :
  value (Upload.document_chunks env filename doc) = Ok chunks ->
  exists keys : list (Z * nat),
    map Upload.chunk_id chunks = map (Chunking.id_of filename) keys
    /\ map (fun c => last (Upload.chunk_page_num c)) chunks
       = map (fun key : Z * nat => Some key.1) keys
    /\ StronglySorted key_lt_lex keys.
Proof.
  intros Hrun.
  pose proof (document_chunks_spec env filename doc) as Hspec.
  cbv zeta in Hspec. rewrite Hspec in Hrun. injection Hrun as <-.
  exists (document_keys env (Upload.load_pdf_pages env filename doc)).
  split; [apply document_chunk_ids|]. split.
  - unfold document_keys. rewrite !map_flat_map.
    apply flat_map_ext_elem. intros item _. apply chunks_of_page_last.
  - apply document_keys_sorted.
Qed.

Lemma chunks_are_in_page_then_position_order_witness :
  exists keys : list (Z * nat),
    ["paper_p1_c1"; "paper_p3_c1"] = map (Chunking.id_of "paper") keys
    /\ StronglySorted key_lt_lex keys.
Proof.
  destruct (chunks_are_in_page_then_position_order Samples.blank_first "paper"
              (Some ["first page"; "   "; "third page"])
              [ {| Upload.chunk_page_num := [1];
                   Upload.chunk_source := "paper";
                   Upload.chunk_id := "paper_p1_c1";
                   Upload.chunk_text := "first page" |};
                {| Upload.chunk_page_num := [3];
                   Upload.chunk_source := "paper";
                   Upload.chunk_id := "paper_p3_c1";
                   Upload.chunk_text := "first page third page" |} ]
              eq_refl)
    as (keys & Hids & _ & Hsorted).
  exists keys. split; [exact Hids|exact Hsorted].
Defined.

(* ====================================================================== *)
(** * What is stored for a chunk *)
(* ====================================================================== *)

Lemma chunk_metadata_lookups (c : Upload.Chunk) :
  chunk_metadata c <> ∅
  /\ chunk_metadata c !! "source" = Some (Upload.chunk_source c)
  /\ chunk_metadata c !! "page_num"
     = Some (String.concat "," (map str_int (Upload.chunk_page_num c)))
  /\ chunk_metadata c !! "chunk_id" = Some (Upload.chunk_id c).
Proof.
  unfold chunk_metadata. split; [|split; [|split]].
  - apply insert_non_empty.
  - apply lookup_insert_eq.
  - rewrite lookup_insert_ne by discriminate. apply lookup_insert_eq.
  - rewrite !lookup_insert_ne by discriminate. apply lookup_insert_eq.
Qed.

(** X8.  The three lists [prep_for_embedding] returns are aligned with the
    chunks: entry [i] of each is the id, the text and the metadata of chunk
    [i].  That metadata is not empty, so when the store hands it back with
    a hit, [Source] keeps it as it is, and reading ["page_num"] from the
    record gives the chunk's page numbers joined by commas (never the
    default), ["chunk_id"] the chunk's id and ["source"] its source. *)
Theorem stored_metadata_is_read_back (chunks : list Upload.Chunk) (i : nat)
  (m : gmap string string) :
  (Upload.prep_for_embedding chunks).2 !! i = Some m ->
  exists c,
    chunks !! i = Some c
    /\ (Upload.prep_for_embedding chunks).1.1 !! i = Some (Upload.chunk_id c)
    /\ (Upload.prep_for_embedding chunks).1.2 !! i = Some (Upload.chunk_text c)
    /\ forall filename id doc distance default,
         let s := Search.Source_init filename id doc (PyDict m) distance in
         Search.metadata s = PyDict m
         /\ Search.metadata_get (Search.metadata s) "page_num" default
            = Ok (String.concat "," (map str_int (Upload.chunk_page_num c)))
         /\ Search.metadata_get (Search.metadata s) "chunk_id" default
            = Ok (Upload.chunk_id c)
         /\ Search.metadata_get (Search.metadata s) "source" default
            = Ok (Upload.chunk_source c).
Proof.
  unfold Upload.prep_for_embedding. simpl. rewrite !list_lookup_fmap.
  destruct (chunks !! i) as [c|]; [|discriminate]. simpl.
  intros [= <-]. exists c.
  split; [reflexivity|]. split; [reflexivity|]. split; [reflexivity|].
  intros filename id doc distance default.
  destruct (chunk_metadata_lookups c) as (Hne & Hs & Hp & Hc).
  fold (chunk_metadata c).
  rewrite bool_decide_eq_false_2 by exact Hne.
  simpl. rewrite Hp, Hc, Hs. now repeat split.
Qed.

Lemma stored_metadata_is_read_back_witness :
  exists c,
    [ {| Upload.chunk_page_num := [1; 3];
         Upload.chunk_source := "paper";
         Upload.chunk_id := "paper_p3_c0";
         Upload.chunk_text := "first page third page" |} ] !! 0%nat = Some c
    /\ Search.metadata_get
         (Search.metadata
            (Search.Source_init "paper" "paper_p3_c0" "first page third page"
               (PyDict (chunk_metadata c)) (1 # 10)))
         "page_num" "N/A"
       = Ok "1,3".
Proof.
  destruct (stored_metadata_is_read_back
              [ {| Upload.chunk_page_num := [1; 3];
                   Upload.chunk_source := "paper";
                   Upload.chunk_id := "paper_p3_c0";
                   Upload.chunk_text := "first page third page" |} ]
              0%nat _ eq_refl)
    as (c & Hc & _ & _ & Hread).
  exists c. split; [exact Hc|].
  injection Hc as <-.
  exact (proj1 (proj2 (Hread "paper" "paper_p3_c0" "first page third page"
                             (1 # 10) "N/A"))).
Defined.

(* ====================================================================== *)
(** * Ingesting a file *)
(* ====================================================================== *)

Lemma key_lt_lex_NoDup (keys : list (Z * nat)) :
  StronglySorted key_lt_lex keys -> NoDup keys.
Proof.
  induction 1 as [|x l Hl IH Hx]; constructor; [|exact IH].
  intros Hin. rewrite Forall_forall in Hx. specialize (Hx x Hin).
  unfold key_lt_lex in Hx. lia.
Qed.

Lemma document_chunk_ids_NoDup (env : Upload.Env) (filename : string)
  (doc : option (list string)) :
  let pages := Upload.load_pdf_pages env filename doc in
  NoDup (map Upload.chunk_id
           (flat_map (Chunking.chunks_of_page env pages) (enumerate pages))).
Proof.
  intros pages. subst pages. rewrite document_chunk_ids.
  apply NoDup_fmap_2; [intros a b; apply id_of_inj|].
  apply key_lt_lex_NoDup, document_keys_sorted.
Qed.

(** The ingestion of a file, case by case, once the database directory is
    there. *)
Lemma embed_file_cases (uenv : Upload.Env) (env : Ingest.Env)
  (filename : string) (doc : option (list string)) :
  Ingest.ensure_db_path env = Ok () ->
  let pages := Upload.load_pdf_pages uenv filename doc in
  let chunks := flat_map (Chunking.chunks_of_page uenv pages) (enumerate pages) in
  let ids := map Upload.chunk_id chunks in
  let documents := map Upload.chunk_text chunks in
  let metadatas := map chunk_metadata chunks in
  let before := Ingest.EnsureDbPath :: split_events pages in
  Ingest.embed_file_stream_to_chromadb uenv env filename doc
  = match chunks with
    | [] => (Ok 0, before)
    | _ =>
        match Ingest.encode_batch env documents with
        | Raise _ => (Ok 0, before ++ [Ingest.EncodeBatch documents])
        | Ok embeddings =>
            match Ingest.get_or_create_collection env (Ingest.DB_PATH env)
                                                  filename with
            | Raise _ =>
                (Ok 0, before ++ [Ingest.EncodeBatch documents;
                                  Ingest.GetOrCreate (Ingest.DB_PATH env) filename])
            | Ok _ =>
                (match Ingest.add env (Ingest.DB_PATH env) filename documents
                                  embeddings metadatas ids with
                 | Raise _ => Ok 0
                 | Ok _ => Ok (Z.of_nat (length documents))
                 end,
                 before ++ [Ingest.EncodeBatch documents;
                            Ingest.GetOrCreate (Ingest.DB_PATH env) filename;
                            Ingest.Add (Ingest.DB_PATH env) filename documents
                                       embeddings metadatas ids])
            end
        end
    end.
Proof.
  intros Hdir. cbv zeta.
  unfold Ingest.embed_file_stream_to_chromadb. rewrite Hdir.
  pose proof (split_pages_with_metadata_spec uenv _
                (load_pdf_pages_one_number uenv filename doc)) as Hsplit.
  revert Hsplit. generalize (Upload.load_pdf_pages uenv filename doc).
  intros pages Hsplit.
  unfold Ingest.icall, Ingest.ibind at 1.
  destruct pages as [|page rest]; [reflexivity|].
  cbv beta iota. set (pages := page :: rest) in *. clearbody pages.
  rewrite Hsplit. unfold Ingest.chunking. cbn [fst snd].
  rewrite map_map. fold (split_events pages).
  unfold Ingest.ibind at 1.
  set (chunks := flat_map (Chunking.chunks_of_page uenv pages) (enumerate pages)).
  clearbody chunks.
  destruct chunks as [|c cs] eqn:Echunks.
  { simpl. now rewrite app_nil_r. }
  rewrite <- Echunks. clear Echunks. unfold Upload.prep_for_embedding.
  fold chunk_metadata.
  unfold Ingest.itry, Ingest.ibind, Ingest.icall, Ingest.iret.
  destruct (Ingest.encode_batch env (map Upload.chunk_text chunks))
    as [embeddings|e]; simpl.
  2:{ now rewrite ?app_nil_r. }
  destruct (Ingest.get_or_create_collection env (Ingest.DB_PATH env) filename)
    as [[]|e]; simpl.
  2:{ now rewrite ?app_nil_r. }
  destruct (Ingest.add env (Ingest.DB_PATH env) filename
              (map Upload.chunk_text chunks) embeddings
              (map chunk_metadata chunks) (map Upload.chunk_id chunks))
    as [[]|e]; simpl; now rewrite ?app_nil_r.
Qed.

Lemma document_chunks_inv (uenv : Upload.Env) (filename : string)
  (doc : option (list string)) (chunks : list Upload.Chunk) :
  value (Upload.document_chunks uenv filename doc) = Ok chunks ->
  let pages := Upload.load_pdf_pages uenv filename doc in
  chunks = flat_map (Chunking.chunks_of_page uenv pages) (enumerate pages)
  /\ split_events pages
     = map Ingest.Chunker (trace (Upload.document_chunks uenv filename doc)).
Proof.
  intros Hrun pages.
  pose proof (document_chunks_spec uenv filename doc) as Hspec.
  cbv zeta in Hspec. fold pages in Hspec. rewrite Hspec in *.
  injection Hrun as <-. split; [reflexivity|].
  unfold split_events. simpl. now rewrite map_map.
Qed.

(** X9.  When the database directory is there and chunking the file gives
    no chunk (the upload cannot be read, no page has text, or every part
    is blank), the ingestion returns 0 after the splitter calls, without
    calling the embedding model or the store. *)
Theorem ingestion_of_nothing_returns_zero (uenv : Upload.Env)
  (env : Ingest.Env) (filename : string) (doc : option (list string)) :
  Ingest.ensure_db_path env = Ok () ->
  value (Upload.document_chunks uenv filename doc) = Ok [] ->
  let run := Ingest.embed_file_stream_to_chromadb uenv env filename doc in
  run = (Ok 0,
         Ingest.EnsureDbPath
         :: map Ingest.Chunker
                (trace (Upload.document_chunks uenv filename doc)))
  /\ Forall (fun ev => is_model_event ev = false /\ is_store_event ev = false)
            (snd run).
Proof.
  intros Hdir Hchunks run. subst run.
  apply document_chunks_inv in Hchunks as [Hnil Hsplit].
  pose proof (embed_file_cases uenv env filename doc Hdir) as Hcases.
  cbv zeta in Hcases. rewrite <- Hnil, Hsplit in Hcases.
  rewrite Hcases. split; [reflexivity|].
  simpl. constructor; [now split|].
  apply Forall_map, Forall_forall. now intros c _.
Qed.

Lemma ingestion_of_nothing_returns_zero_witness :
  Ingest.embed_file_stream_to_chromadb Samples.whole_text
    (sample_store true true) "paper" (Some ["   "])
  = (Ok 0, [Ingest.EnsureDbPath]).
Proof.
  exact (proj1 (ingestion_of_nothing_returns_zero Samples.whole_text
                  (sample_store true true) "paper" (Some ["   "])
                  eq_refl eq_refl)).
Defined.

(** X10.  When there are chunks but the embedding model raises, the
    ingestion returns 0 and the store is not touched; when the model
    answers but opening the collection or adding to it raises, the
    ingestion returns 0 as well. *)
Theorem ingestion_failure_returns_zero (uenv : Upload.Env)
  (env : Ingest.Env) (filename : string) (doc : option (list string))
  (chunks : list Upload.Chunk) :
  Ingest.ensure_db_path env = Ok () ->
  value (Upload.document_chunks uenv filename doc) = Ok chunks ->
  chunks <> [] ->
  let run := Ingest.embed_file_stream_to_chromadb uenv env filename doc in
  let documents := map Upload.chunk_text chunks in
  (forall e,
      Ingest.encode_batch env documents = Raise e ->
      fst run = Ok 0 /\ Forall (fun ev => is_store_event ev = false) (snd run))
  /\ (forall embeddings e,
        Ingest.encode_batch env documents = Ok embeddings ->
        Ingest.get_or_create_collection env (Ingest.DB_PATH env) filename
        = Raise e
        \/ Ingest.add env (Ingest.DB_PATH env) filename documents embeddings
                      (map chunk_metadata chunks) (map Upload.chunk_id chunks)
           = Raise e ->
        fst run = Ok 0).
Proof.
  intros Hdir Hchunks Hne run documents. subst run documents.
  apply document_chunks_inv in Hchunks as [Hflat Hsplit].
  pose proof (embed_file_cases uenv env filename doc Hdir) as Hcases.
  cbv zeta in Hcases. rewrite <- Hflat, Hsplit in Hcases.
  rewrite Hcases. destruct chunks as [|c cs]; [congruence|].
  split.
  - intros e He. rewrite He. split; [reflexivity|].
    simpl. constructor; [reflexivity|].
    apply Forall_app. split; [|now repeat constructor].
    apply Forall_map, Forall_forall. now intros ev _.
  - intros embeddings e He Hfail. rewrite He.
    destruct (Ingest.get_or_create_collection env (Ingest.DB_PATH env) filename)
      as [[]|e']; [|reflexivity].
    destruct Hfail as [Hfail|Hfail]; [discriminate|].
    now rewrite Hfail.
Qed.

Lemma ingestion_failure_returns_zero_witness :
  fst (Ingest.embed_file_stream_to_chromadb Samples.whole_text
         (sample_store false true) "paper" sample_document) = Ok 0
  /\ fst (Ingest.embed_file_stream_to_chromadb Samples.whole_text
            (sample_store true false) "paper" sample_document) = Ok 0.
Proof.
  split.
  - refine (proj1 (proj1 (ingestion_failure_returns_zero Samples.whole_text
                            (sample_store false true) "paper" sample_document
                            _ eq_refl eq_refl _)
                         (OtherException "model") eq_refl)).
    discriminate.
  - refine (proj2 (ingestion_failure_returns_zero Samples.whole_text
                     (sample_store true false) "paper" sample_document
                     _ eq_refl eq_refl _)
                  _ (OtherException "store") eq_refl _).
    + discriminate.
    + right. reflexivity.
Defined.

(** X11.  When there are chunks and the model and the store answer, the
    ingestion returns the number of chunks.  After the splitter calls it
    embeds the chunk texts in one batch, opens the collection named by the
    file stem and adds to it once: the texts, the embeddings, one metadata
    and one id per chunk, in chunk order, the ids pairwise distinct. *)
Theorem ingestion_stores_every_chunk_once (uenv : Upload.Env)
  (env : Ingest.Env) (filename : string) (doc : option (list string))
  (chunks : list Upload.Chunk) (embeddings : list vector) :
  Ingest.ensure_db_path env = Ok () ->
  value (Upload.document_chunks uenv filename doc) = Ok chunks ->
  chunks <> [] ->
  let documents := map Upload.chunk_text chunks in
  let metadatas := map chunk_metadata chunks in
  let ids := map Upload.chunk_id chunks in
  Ingest.encode_batch env documents = Ok embeddings ->
  Ingest.get_or_create_collection env (Ingest.DB_PATH env) filename = Ok () ->
  Ingest.add env (Ingest.DB_PATH env) filename documents embeddings
             metadatas ids = Ok () ->
  Ingest.embed_file_stream_to_chromadb uenv env filename doc
  = (Ok (Z.of_nat (length chunks)),
     Ingest.EnsureDbPath
     :: map Ingest.Chunker (trace (Upload.document_chunks uenv filename doc))
     ++ [Ingest.EncodeBatch documents;
         Ingest.GetOrCreate (Ingest.DB_PATH env) filename;
         Ingest.Add (Ingest.DB_PATH env) filename documents embeddings
                    metadatas ids])
  /\ NoDup ids
  /\ length documents = length chunks
  /\ length metadatas = length chunks
  /\ length ids = length chunks.
Proof.
  intros Hdir Hchunks Hne documents metadatas ids Henc Hopen Hadd.
  subst documents metadatas ids.
  apply document_chunks_inv in Hchunks as [Hflat Hsplit].
  pose proof (embed_file_cases uenv env filename doc Hdir) as Hcases.
  cbv zeta in Hcases. rewrite <- Hflat, Hsplit in Hcases.
  rewrite Hcases. rewrite !length_map.
  split; [|split; [|now repeat split]].
  - destruct chunks as [|c cs]; [congruence|].
    rewrite Henc, Hopen, Hadd. reflexivity.
  - rewrite Hflat. apply document_chunk_ids_NoDup.
Qed.

Lemma ingestion_stores_every_chunk_once_witness :
  fst (Ingest.embed_file_stream_to_chromadb Samples.whole_text
         (sample_store true true) "paper" sample_document) = Ok 2.
Proof.
  refine (f_equal fst
            (proj1 (ingestion_stores_every_chunk_once Samples.whole_text
                      (sample_store true true) "paper" sample_document
                      _ [[1%Q]; [1%Q]] eq_refl eq_refl _ eq_refl eq_refl
                      eq_refl))).
  discriminate.
Defined.

(** X12.  The ingestion raises only when making the database directory
    does, and then does nothing else.  Otherwise it returns a count that is
    0 or positive; a positive count is the number of chunks and is returned
    only after the store accepted them.  In no case is there more than one
    write to the store. *)
Theorem ingestion_returns_a_count (uenv : Upload.Env) (env : Ingest.Env)
  (filename : string) (doc : option (list string)) :
  let run := Ingest.embed_file_stream_to_chromadb uenv env filename doc in
  (forall e, Ingest.ensure_db_path env = Raise e ->
             run = (Raise e, [Ingest.EnsureDbPath]))
  /\ (Ingest.ensure_db_path env = Ok () ->
      exists n,
        fst run = Ok n /\ 0 <= n
        /\ (0 < n ->
            exists chunks embeddings,
              value (Upload.document_chunks uenv filename doc) = Ok chunks
              /\ n = Z.of_nat (length chunks)
              /\ Ingest.encode_batch env (map Upload.chunk_text chunks)
                 = Ok embeddings
              /\ Ingest.add env (Ingest.DB_PATH env) filename
                   (map Upload.chunk_text chunks) embeddings
                   (map chunk_metadata chunks) (map Upload.chunk_id chunks)
                 = Ok ()))
  /\ (length (List.filter is_add_event (snd run)) <= 1)%nat.
Proof.
  intros run. subst run. split; [|split].
  - intros e He. unfold Ingest.embed_file_stream_to_chromadb.
    now rewrite He.
  - intros Hdir.
    pose proof (embed_file_cases uenv env filename doc Hdir) as Hcases.
    pose proof (document_chunks_spec uenv filename doc) as Hspec.
    cbv zeta in Hcases, Hspec. rewrite Hcases.
    set (chunks := flat_map _ _) in *.
    destruct chunks as [|c cs] eqn:Echunks; [exists 0; simpl; repeat split; lia|].
    rewrite <- Echunks.
    destruct (Ingest.encode_batch env (map Upload.chunk_text chunks))
      as [embeddings|e] eqn:Henc; [|exists 0; simpl; repeat split; lia].
    destruct (Ingest.get_or_create_collection env (Ingest.DB_PATH env) filename)
      as [[]|e]; [|exists 0; simpl; repeat split; lia].
    destruct (Ingest.add env (Ingest.DB_PATH env) filename
                (map Upload.chunk_text chunks) embeddings
                (map chunk_metadata chunks) (map Upload.chunk_id chunks))
      as [[]|e] eqn:Hadd; [|exists 0; simpl; repeat split; lia].
    exists (Z.of_nat (length (map Upload.chunk_text chunks))).
    simpl. split; [reflexivity|]. split; [lia|]. intros _.
    exists chunks, embeddings. rewrite Hspec, length_map.
    cbn [value fst]. rewrite <- Echunks. now repeat split.
  - destruct (Ingest.ensure_db_path env) as [[]|e] eqn:Hdir.
    2:{ unfold Ingest.embed_file_stream_to_chromadb. rewrite Hdir. simpl. lia. }
    pose proof (embed_file_cases uenv env filename doc Hdir) as Hcases.
    cbv zeta in Hcases. rewrite Hcases.
    assert (Hsplits : forall pages,
               List.filter is_add_event (split_events pages) = []).
    { intros pages. unfold split_events.
      induction (enumerate pages); simpl; [reflexivity|assumption]. }
    set (chunks := flat_map _ _).
    destruct chunks as [|c cs] eqn:Echunks; [simpl; rewrite Hsplits; simpl; lia|].
    rewrite <- Echunks.
    destruct (Ingest.encode_batch env (map Upload.chunk_text chunks))
      as [embeddings|e];
      [|simpl; rewrite List.filter_app, Hsplits; simpl; lia].
    destruct (Ingest.get_or_create_collection env (Ingest.DB_PATH env) filename)
      as [[]|e]; simpl; rewrite List.filter_app, Hsplits; simpl; lia.
Qed.

(* ====================================================================== *)
(** * Flattening the answers *)
(* ====================================================================== *)

Lemma append_hit_inv (filename : string) (results : QueryResult)
  (sources sources' : list Search.Source) (i : nat) :
  Search.append_hit filename results sources i = Ok sources' ->
  exists hit,
    hit_at results i = Some hit
    /\ sources' = sources ++ [source_of_hit filename hit].
Proof.
  unfold Search.append_hit, hit_at, Search.subscript0, subscript. intros H.
  destruct (ids results) as [[|l0 ?]|]; try discriminate.
  destruct (l0 !! i) as [id|]; [|discriminate]. cbn [rbind] in H.
  destruct (documents results) as [[|docs0 ?]|]; try discriminate.
  destruct (docs0 !! i) as [doc|]; [|discriminate]. cbn [rbind] in H.
  destruct (metadatas results) as [[|metas0 ?]|]; try discriminate.
  destruct (metas0 !! i) as [m|]; [|discriminate]. cbn [rbind] in H.
  destruct (distances results) as [[|dists0 ?]|]; try discriminate.
  destruct (dists0 !! i) as [dist|]; [|discriminate]. cbn [rbind] in H.
  injection H as <-. eexists. split; reflexivity.
Qed.

Lemma append_hit_Some (filename : string) (results : QueryResult)
  (sources : list Search.Source) (i : nat)
  (hit : string * string * pyobj * pyfloat) :
  hit_at results i = Some hit ->
  Search.append_hit filename results sources i
  = Ok (sources ++ [source_of_hit filename hit]).
Proof.
  unfold Search.append_hit, hit_at, Search.subscript0, subscript. intros H.
  destruct (ids results) as [[|l0 ?]|]; try discriminate.
  destruct (documents results) as [[|docs0 ?]|]; try discriminate.
  destruct (metadatas results) as [[|metas0 ?]|]; try discriminate.
  destruct (distances results) as [[|dists0 ?]|]; try discriminate.
  destruct (l0 !! i) as [id|]; [|discriminate].
  destruct (docs0 !! i) as [doc|]; [|discriminate].
  destruct (metas0 !! i) as [m|]; [|discriminate].
  destruct (dists0 !! i) as [dist|]; [|discriminate].
  now injection H as <-.
Qed.

Lemma append_hits_inv (filename : string) (results : QueryResult)
  (l : list nat) (acc r : list Search.Source) :
  rfor_each (Search.append_hit filename results) l acc = Ok r ->
  r = acc ++ omap (fun i => source_of_hit filename <$> hit_at results i) l
  /\ Forall (fun i => is_Some (hit_at results i)) l.
Proof.
  revert acc. induction l as [|i l IH]; intros acc H; simpl in H.
  - injection H as <-. split; [now rewrite app_nil_r|constructor].
  - apply rbind_Ok in H as (acc' & Hstep & H).
    apply append_hit_inv in Hstep as (hit & Hhit & ->).
    apply IH in H as [-> Hl]. simpl. rewrite Hhit. simpl.
    split; [now rewrite <- app_assoc|].
    constructor; [now exists hit|exact Hl].
Qed.

Lemma append_hits_aligned (filename : string) (results : QueryResult)
  (l : list nat) (acc : list Search.Source) :
  Forall (fun i => is_Some (hit_at results i)) l ->
  rfor_each (Search.append_hit filename results) l acc
  = Ok (acc ++ omap (fun i => source_of_hit filename <$> hit_at results i) l).
Proof.
  intros Hl. revert acc.
  induction Hl as [|i l [hit Hhit] Hl IH]; intros acc; simpl.
  - now rewrite app_nil_r.
  - rewrite (append_hit_Some _ _ _ _ _ Hhit). cbn [rbind].
    rewrite IH, Hhit. simpl. now rewrite <- app_assoc.
Qed.

Lemma aligned_seq (results : QueryResult) :
  Search.has_hits results = true ->
  aligned results
  <-> Forall (fun i => is_Some (hit_at results i))
             (seq 0 (Search.count results)).
Proof.
  intros Hh. unfold aligned. rewrite Forall_forall. split.
  - intros H i Hi. apply elem_of_seq in Hi. apply H; [exact Hh|lia].
  - intros H _ i Hi. apply H, elem_of_seq. lia.
Qed.

Lemma append_collection_inv (acc r : list Search.Source)
  (item : string * QueryResult) :
  Search.append_collection acc item = Ok r ->
  r = acc ++ sources_of item /\ aligned item.2.
Proof.
  destruct item as [filename results].
  unfold Search.append_collection, sources_of. simpl.
  destruct (Search.has_hits results) eqn:Eh; simpl.
  - intros H. apply append_hits_inv in H as [-> Hl].
    split; [reflexivity|]. now apply aligned_seq.
  - intros [= <-]. split; [now rewrite app_nil_r|].
    unfold aligned. congruence.
Qed.

Lemma get_sources_from (rbc : list (string * QueryResult))
  (acc : list Search.Source) :
  (Forall (fun item => aligned item.2) rbc ->
   rfor_each Search.append_collection rbc acc
   = Ok (acc ++ flat_map sources_of rbc))
  /\ (forall r, rfor_each Search.append_collection rbc acc = Ok r ->
                Forall (fun item => aligned item.2) rbc
                /\ r = acc ++ flat_map sources_of rbc).
Proof.
  revert acc. induction rbc as [|item rbc IH]; intros acc; simpl.
  - split; [now rewrite app_nil_r|].
    intros r [= <-]. split; [constructor|now rewrite app_nil_r].
  - split.
    + intros Hall. apply Forall_cons in Hall as [Hitem Hall].
      assert (Hstep : Search.append_collection acc item
                      = Ok (acc ++ sources_of item)).
      { destruct item as [filename results].
        unfold Search.append_collection, sources_of. simpl in *.
        destruct (Search.has_hits results) eqn:Eh; simpl;
          [|now rewrite app_nil_r].
        apply append_hits_aligned. now apply aligned_seq. }
      rewrite Hstep. cbn [rbind].
      rewrite (proj1 (IH _) Hall). now rewrite <- app_assoc.
    + intros r H. apply rbind_Ok in H as (acc' & Hstep & H).
      apply append_collection_inv in Hstep as [-> Hitem].
      apply (proj2 (IH _)) in H as [Hall ->].
      split; [now constructor|now rewrite <- app_assoc].
Qed.

Lemma length_sources_of_hits (filename : string) (results : QueryResult)
  (l : list nat) :
  Forall (fun i => is_Some (hit_at results i)) l ->
  length (omap (fun i => source_of_hit filename <$> hit_at results i) l)
  = length l.
Proof.
  induction 1 as [|i l [hit Hhit] _ IH]; [reflexivity|].
  cbn [omap list_omap]. rewrite Hhit. cbn [fmap option_fmap option_map].
  cbn [length]. now rewrite IH.
Qed.

(** X13.  When [get_sources] returns, it returns the records of the
    collections in the order of [results_by_collection], and within a
    collection one record per id of the answer's first list, in that
    order, built from the id, document, metadata and distance at the same
    index, under the collection's name; a collection whose answer has no
    id contributes nothing. *)
Theorem get_sources_flattens_in_order
  (results_by_collection : list (string * QueryResult))
  (flat_sources : list Search.Source) :
  Search.get_sources results_by_collection = Ok flat_sources ->
  flat_sources = flat_map sources_of results_by_collection
  /\ length flat_sources
     = list_sum (map (fun item : string * QueryResult =>
                        if Search.has_hits item.2
                        then Search.count item.2 else 0%nat)
                     results_by_collection).
Proof.
  intros H. unfold Search.get_sources in H.
  apply (proj2 (get_sources_from _ _)) in H as [Hall ->].
  split; [reflexivity|]. simpl.
  induction Hall as [|item rbc Hitem Hall IH]; simpl; [reflexivity|].
  rewrite length_app, IH. f_equal.
  unfold sources_of. destruct (Search.has_hits item.2) eqn:Eh; [|reflexivity].
  apply (aligned_seq _ Eh) in Hitem.
  rewrite (length_sources_of_hits _ _ _ Hitem). apply length_seq.
Qed.

Lemma get_sources_flattens_in_order_witness :
  [ Search.Source_init "paperB" "b0" "text" PyNone (5 # 100);
    Search.Source_init "paperB" "b1" "text" PyNone (40 # 100);
    Search.Source_init "paperA" "a0" "text" PyNone (10 # 100) ]
  = flat_map sources_of
      [("paperB", Samples.answer [("b0", 5 # 100); ("b1", 40 # 100)]);
       ("blank", Samples.answer []);
       ("paperA", Samples.answer [("a0", 10 # 100)])].
Proof.
  exact (proj1 (get_sources_flattens_in_order
                  [("paperB", Samples.answer [("b0", 5 # 100); ("b1", 40 # 100)]);
                   ("blank", Samples.answer []);
                   ("paperA", Samples.answer [("a0", 10 # 100)])]
                  _ eq_refl)).
Defined.

(** X14.  [get_sources] returns exactly when every answer that has ids
    also has a document, a metadata and a distance for each id of its first
    list; otherwise (a key is missing, or a list is shorter than the ids)
    it raises. *)
Theorem get_sources_raises_on_a_misaligned_answer
  (results_by_collection : list (string * QueryResult)) :
  ((exists flat_sources,
       Search.get_sources results_by_collection = Ok flat_sources)
   <-> Forall (fun item : string * QueryResult => aligned item.2)
              results_by_collection)
  /\ (~ Forall (fun item : string * QueryResult => aligned item.2)
               results_by_collection ->
      exists e, Search.get_sources results_by_collection = Raise e).
Proof.
  unfold Search.get_sources.
  destruct (get_sources_from results_by_collection []) as [Hto Hfrom].
  split; [split|].
  - intros [flat H]. now apply Hfrom in H.
  - intros Hall. exists ([] ++ flat_map sources_of results_by_collection).
    exact (Hto Hall).
  - intros Hnot.
    destruct (rfor_each Search.append_collection results_by_collection [])
      as [flat|e] eqn:E; [|now exists e].
    destruct Hnot. now apply (Hfrom flat).
Qed.

Lemma get_sources_raises_on_a_misaligned_answer_witness :
  exists e,
    Search.get_sources
      [("paperA", {| ids := Some [["a0"; "a1"]];
                     documents := Some [["alpha"]];
                     metadatas := Some [[PyNone; PyNone]];
                     distances := Some [[Finite (1 # 10); Finite (3 # 10)]] |})]
    = Raise e.
Proof.
  apply (proj2 (get_sources_raises_on_a_misaligned_answer _)).
  intros H. apply Forall_cons in H as [H _].
  destruct (H eq_refl 1%nat) as [hit Hhit]; [apply le_n|].
  discriminate Hhit.
Defined.

(* ====================================================================== *)
(** * The count of results *)
(* ====================================================================== *)





Lemma merge_outcome_Results_nonempty (k : Z)
  (results_by_collection : list (string * QueryResult))
  (top_hits : list Search.Source) :
  merge_outcome k results_by_collection = Ok (Search.Results top_hits) ->
  top_hits <> [].
Proof.
  unfold merge_outcome.
  destruct results_by_collection as [|item rbc]; [discriminate|].
  intros H. apply rbind_Ok in H as (flat & _ & H).
  destruct (Search.get_top_k_sources flat k); [discriminate|].
  now injection H as <-.
Qed.

Lemma hit_at_numeric (results : QueryResult) (i : nat)
  (hit : string * string * pyobj * pyfloat) :
  numeric results -> hit_at results i = Some hit -> is_nan hit.2 = false.
Proof.
  unfold numeric, hit_at. intros Hnum Hhit.
  destruct (ids results) as [[|l0 ?]|]; try discriminate.
  destruct (documents results) as [[|docs0 ?]|]; try discriminate.
  destruct (metadatas results) as [[|metas0 ?]|]; try discriminate.
  destruct (distances results) as [[|dists0 ?]|]; try discriminate.
  destruct (l0 !! i), (docs0 !! i), (metas0 !! i); try discriminate.
  destruct (dists0 !! i) as [dist|] eqn:Ed; [|discriminate].
  injection Hhit as <-. simpl.
  apply Forall_cons in Hnum as [Hnum _].
  rewrite Forall_forall in Hnum. apply Hnum.
  eapply list_elem_of_lookup_2. exact Ed.
Qed.

Lemma sources_of_numbers (item : string * QueryResult) :
  numeric item.2 -> numbers Search.distance (sources_of item).
Proof.
  intros Hnum. unfold numbers, sources_of.
  destruct (Search.has_hits item.2); [|constructor].
  apply Forall_forall. intros s Hs.
  apply list_elem_of_omap in Hs as (i & _ & Hs).
  destruct (hit_at item.2 i) as [[[[id doc] m] dist]|] eqn:Eh; [|discriminate].
  injection Hs as <-. exact (hit_at_numeric _ _ _ Hnum Eh).
Qed.

Lemma flat_map_numbers (rbc : list (string * QueryResult)) :
  Forall (fun item => numeric item.2) rbc ->
  numbers Search.distance (flat_map sources_of rbc).
Proof.
  unfold numbers. induction 1 as [|item rbc Hitem _ IH]; simpl; [constructor|].
  apply Forall_app. split; [now apply sources_of_numbers|exact IH].
Qed.

(** X17.  The results of a search are never empty and never more than the
    count asked for.  When the store answers with no NaN distance, they
    come in ascending distance. *)
Theorem search_results_are_ranked_and_bounded (env : Search.Env)
  (db_path user_query num_k : string) (selected_sources : list string)
  (top_hits : list Search.Source) :
  value (Search.run_search_logic env db_path user_query num_k selected_sources)
  = Ok (Search.Results top_hits) ->
  exists k,
    Search.py_int env num_k = Some k /\ 0 < k
    /\ (1 <= length top_hits <= Z.to_nat k)%nat
    /\ ((forall name v n results,
           name ∈ selected_sources ->
           Search.query env db_path name v n = Ok results ->
           numeric results) ->
        forall (i : nat) (a b : Search.Source),
          top_hits !! i = Some a -> top_hits !! S i = Some b ->
          float_le (Search.distance a) (Search.distance b) = true).
Proof.
  intros Hrun.
  apply search_outcome_inv in Hrun
    as (k & v & rbc & Hk & Hpos & _ & _ & _ & _ & Hret & Hmerge);
    try discriminate.
  pose proof (merge_outcome_Results_nonempty _ _ _ Hmerge) as Hne.
  apply merge_outcome_Results in Hmerge as (flat & Hflat & ->).
  exists k. split; [exact Hk|]. split; [exact Hpos|].
  rewrite get_top_k_sources_positive in * by exact Hpos. split.
  - rewrite length_take. split; [|lia].
    destruct (firstn _ _) eqn:E; [congruence|].
    rewrite <- (length_take _ (Z.to_nat k)), E. simpl. lia.
  - intros Hstore i a b Ha Hb.
    apply lookup_take_Some in Ha as [Ha _], Hb as [Hb _].
    apply (strongly_sorted_adjacent Search.distance
             (sorted Search.distance flat) i a b); [|exact Ha|exact Hb].
    apply sorted_strongly.
    apply (proj2 (get_sources_from rbc [])) in Hflat as [_ ->].
    apply flat_map_numbers.
    eapply Forall_impl; [exact Hret|].
    intros item (Hin & _ & Hq & _). exact (Hstore _ _ _ _ Hin Hq).
Qed.

Lemma search_results_are_ranked_and_bounded_witness :
  exists k,
    Search.py_int Samples.library "3" = Some k /\ 0 < k
    /\ (1 <= 3 <= Z.to_nat k)%nat
    /\ float_le (5 # 100) (10 # 100) = true.
Proof.
  destruct (search_results_are_ranked_and_bounded Samples.library
              "db" "a question" "3" ["paperA"; "paperB"]
              [ Search.Source_init "paperB" "b0" "text" PyNone (5 # 100);
                Search.Source_init "paperA" "a0" "text" PyNone (10 # 100);
                Search.Source_init "paperA" "a1" "text" PyNone (30 # 100) ]
              eq_refl)
    as (k & Hk & Hpos & Hlen & Hrank).
  exists k. split; [exact Hk|]. split; [exact Hpos|]. split; [exact Hlen|].
  refine (Hrank _ 0%nat _ _ eq_refl eq_refl).
  intros name v n results Hin Hq. unfold Samples.library in Hq. simpl in Hq.
  destruct (String.eqb name "paperA"); [injection Hq as <-; repeat constructor|].
  destruct (String.eqb name "paperB"); [injection Hq as <-; repeat constructor|].
  destruct (String.eqb name "blank"); [injection Hq as <-; repeat constructor|].
  discriminate Hq.
Defined.

(* ====================================================================== *)
(** * The calls of a search *)
(* ====================================================================== *)

(** X18.  The search answers with the embedding error exactly when its
    inputs are valid and the model raises on the trimmed query; the only
    call it has made then is that one: the store is not touched. *)
Theorem embedding_failure_stops_the_search (env : Search.Env)
  (db_path user_query num_k : string) (selected_sources : list string) :
  let run := Search.run_search_logic env db_path user_query num_k
                                     selected_sources in
  (value run
   = Ok (Search.Error "Could not embed your query. Please try a different query or reload the app.")
   <-> selected_sources <> [] /\ strip user_query <> EmptyString
       /\ (exists k, Search.py_int env num_k = Some k /\ 0 < k)
       /\ exists e, Search.encode env (strip user_query) = Raise e)
  /\ (value run
      = Ok (Search.Error "Could not embed your query. Please try a different query or reload the app.")
      -> trace run = [EncodeCall (strip user_query)]).
Proof.
  intros run. subst run.
  destruct (run_search_logic_cases env db_path user_query num_k selected_sources)
    as [[Hs E]|[[Hb E]|[[Hn E]|(k & Hsel & Hq & Hk & E)]]]; rewrite E.
  - split; [split; [discriminate|]|discriminate].
    intros (Hsel & _). congruence.
  - split; [split; [discriminate|]|discriminate].
    intros (_ & Hq & _). congruence.
  - split; [split; [discriminate|]|discriminate].
    intros (_ & _ & (k & Hk & Hpos) & _).
    apply positive_int_None in Hn. rewrite Hk in Hn. lia.
  - apply positive_int_Some in Hk as [Hk Hpos].
    assert (Hloop : forall v,
               rbind (value (for_each (Search.retrieve_into env db_path v k)
                                      selected_sources []))
                     (merge_outcome k) <> Ok embed_error).
    { intros v H. apply rbind_Ok in H as (rbc & _ & H).
      unfold merge_outcome in H. destruct rbc; [discriminate|].
      apply rbind_Ok in H as (flat & _ & H).
      destruct (Search.get_top_k_sources flat k); discriminate. }
    rewrite search_valid_value. unfold Search.search_valid.
    rewrite trace_bind, (embed_query_nonblank _ _ Hq).
    destruct (Search.encode env (strip user_query)) as [v|e] eqn:Ev;
      cbn [value trace fst snd rbind].
    + split; [split|].
      * intros H. now apply Hloop in H.
      * intros (_ & _ & _ & e & He). discriminate.
      * intros H. now apply Hloop in H.
    + split; [split|].
      * intros _. split; [exact Hsel|]. split; [exact Hq|].
        split; [now exists k|now exists e].
      * reflexivity.
      * reflexivity.
Qed.

Lemma embedding_failure_stops_the_search_witness :
  trace (Search.run_search_logic Samples.library "db" " boom " "3" ["paperA"])
  = [EncodeCall "boom"].
Proof.
  apply (proj2 (embedding_failure_stops_the_search Samples.library
                  "db" " boom " "3" ["paperA"])).
  reflexivity.
Defined.

Lemma run_search_logic_is_search_valid (env : Search.Env)
  (db_path user_query num_k : string) (selected_sources : list string) (k : Z) :
  selected_sources <> [] -> strip user_query <> EmptyString ->
  Search.py_int env num_k = Some k -> 0 < k ->
  Search.run_search_logic env db_path user_query num_k selected_sources
  = Search.search_valid env db_path user_query k selected_sources.
Proof.
  intros Hsel Hq Hk Hpos.
  destruct (run_search_logic_cases env db_path user_query num_k selected_sources)
    as [[E _]|[[E _]|[[E _]|(k' & _ & _ & Hk' & ->)]]]; try congruence.
  { apply positive_int_None in E. rewrite Hk in E. lia. }
  apply positive_int_Some in Hk' as [Hk' _]. congruence.
Qed.

Lemma retrieve_into_calls (env : Search.Env) (db_path : string) (v : vector)
  (k : Z) (acc : list (string * QueryResult)) (name : string) :
  trace (Search.retrieve_into env db_path v k acc name)
  `prefix_of` [GetOrCreateCall db_path name;
               QueryCall db_path name v (clamp k)]
  /\ (forall acc', value (Search.retrieve_into env db_path v k acc name) = Ok acc' ->
        trace (Search.retrieve_into env db_path v k acc name)
        = [GetOrCreateCall db_path name; QueryCall db_path name v (clamp k)]).
Proof.
  unfold Search.retrieve_into.
  rewrite trace_bind, value_bind, retrieve_top_k_some.
  destruct (Search.get_or_create_collection env db_path name) as [[]|e].
  - cbn [value trace fst snd].
    destruct (Search.query env db_path name v (clamp k)) as [res|e];
      cbn [rbind].
    + assert (Hret : trace (if Search.has_hits res
                            then ret (dict_set name res acc) else ret acc) = [])
        by now destruct (Search.has_hits res).
      rewrite Hret. now split.
    + split; [reflexivity|discriminate].
  - cbn [value trace fst snd rbind]. split; [|discriminate].
    now exists [QueryCall db_path name v (clamp k)].
Qed.

Lemma retrieval_loop_calls (env : Search.Env) (db_path : string) (v : vector)
  (k : Z) (selected_sources : list string) (acc : list (string * QueryResult)) :
  trace (for_each (Search.retrieve_into env db_path v k) selected_sources acc)
  `prefix_of` store_calls db_path v k selected_sources
  /\ (forall r,
        value (for_each (Search.retrieve_into env db_path v k)
                        selected_sources acc) = Ok r ->
        trace (for_each (Search.retrieve_into env db_path v k)
                        selected_sources acc)
        = store_calls db_path v k selected_sources).
Proof.
  revert acc. induction selected_sources as [|name sel IH]; intros acc.
  { split; [reflexivity|]. now intros r _. }
  cbn [for_each]. rewrite trace_bind, value_bind.
  destruct (retrieve_into_calls env db_path v k acc name) as [Hpre Hfull].
  change (store_calls db_path v k (name :: sel))
    with ([GetOrCreateCall db_path name; QueryCall db_path name v (clamp k)]
          ++ store_calls db_path v k sel).
  destruct (value (Search.retrieve_into env db_path v k acc name))
    as [acc'|e]; cbn [rbind].
  - rewrite (Hfull acc' eq_refl). destruct (IH acc') as [IHpre IHfull].
    split.
    + now apply prefix_app.
    + intros r Hr. now rewrite (IHfull r Hr).
  - split; [|discriminate]. now apply prefix_app_r.
Qed.

Lemma search_valid_calls (env : Search.Env) (db_path user_query : string)
  (k : Z) (selected_sources : list string) :
  trace (Search.search_valid env db_path user_query k selected_sources)
  = trace (Search.embed_query env user_query)
    ++ match value (Search.embed_query env user_query) with
       | Ok (Some v) =>
           trace (for_each (Search.retrieve_into env db_path v k)
                           selected_sources [])
       | _ => []
       end.
Proof.
  unfold Search.search_valid. rewrite trace_bind.
  destruct (value (Search.embed_query env user_query)) as [[v|]|e];
    [|reflexivity|now rewrite app_nil_r].
  f_equal. rewrite trace_bind.
  destruct (value (for_each _ _ _)) as [rbc|e]; [|reflexivity].
  rewrite <- app_nil_r. f_equal.
  destruct rbc as [|item rbc]; [reflexivity|].
  rewrite trace_bind. unfold lift. cbn [value trace fst snd].
  destruct (Search.get_sources (item :: rbc)) as [flat|e]; [|reflexivity].
  cbv zeta. now destruct (Search.get_top_k_sources flat k).
Qed.

(** X19.  A search with valid inputs whose query embeds calls the model
    once, with the trimmed query, and then goes through the selection in
    order: it opens each collection and queries it, with the same vector
    and the same clamped count, and makes no other call.  When it returns
    an outcome it has done so for every selected collection; when the
    store raises it has stopped at that call. *)
Theorem search_calls_follow_the_selection (env : Search.Env)
  (db_path user_query num_k : string) (selected_sources : list string)
  (k : Z) (v : vector) :
  selected_sources <> [] -> strip user_query <> EmptyString ->
  Search.py_int env num_k = Some k -> 0 < k ->
  Search.encode env (strip user_query) = Ok v ->
  let run := Search.run_search_logic env db_path user_query num_k
                                     selected_sources in
  trace run `prefix_of`
    (EncodeCall (strip user_query)
     :: store_calls db_path v k selected_sources)
  /\ (forall o, value run = Ok o ->
                trace run
                = EncodeCall (strip user_query)
                  :: store_calls db_path v k selected_sources).
Proof.
  intros Hsel Hq Hk Hpos Hv run. subst run.
  rewrite (run_search_logic_is_search_valid _ _ _ _ _ k) by assumption.
  rewrite search_valid_value, search_valid_calls.
  rewrite (embed_query_nonblank _ _ Hq), Hv.
  cbn [value trace fst snd rbind app].
  destruct (retrieval_loop_calls env db_path v k selected_sources [])
    as [Hpre Hfull].
  split.
  - now apply (prefix_app [EncodeCall (strip user_query)]).
  - intros o Ho. apply rbind_Ok in Ho as (rbc & Hloop & _).
    now rewrite (Hfull rbc Hloop).
Qed.

Lemma search_calls_follow_the_selection_witness :
  trace (Search.run_search_logic Samples.library "db" "a question" "3"
                                 ["paperA"; "broken"; "paperB"])
  `prefix_of`
    (EncodeCall "a question"
     :: store_calls "db" [1%Q] 3 ["paperA"; "broken"; "paperB"]).
Proof.
  refine (proj1 (search_calls_follow_the_selection Samples.library
                   "db" "a question" "3" ["paperA"; "broken"; "paperB"]
                   3 [1%Q] _ _ eq_refl eq_refl eq_refl)); discriminate.
Defined.

Lemma for_each_total {A B : Type} (body : B -> A -> M B) (l : list A)
  (acc : B) :
  (forall acc x, x ∈ l -> exists acc', value (body acc x) = Ok acc') ->
  exists r, value (for_each body l acc) = Ok r.
Proof.
  revert acc. induction l as [|x l IH]; intros acc Hbody; simpl.
  - now exists acc.
  - rewrite value_bind.
    destruct (Hbody acc x) as [acc' Hx]; [left|]. rewrite Hx. cbn [rbind].
    apply IH. intros a y Hy. apply Hbody. now right.
Qed.

(** X20.  A search with valid inputs whose query embeds returns an
    outcome, the no-results warning or results, whenever the store opens
    and answers every selected collection and each answer that has ids has
    a document, a metadata and a distance for each of them. *)
Theorem search_returns_when_the_store_answers (env : Search.Env)
  (db_path user_query num_k : string) (selected_sources : list string)
  (k : Z) (v : vector) :
  selected_sources <> [] -> strip user_query <> EmptyString ->
  Search.py_int env num_k = Some k -> 0 < k ->
  Search.encode env (strip user_query) = Ok v ->
  (forall name, name ∈ selected_sources ->
     Search.get_or_create_collection env db_path name = Ok ()
     /\ exists res,
          Search.query env db_path name v (Z.max 1 (Z.min k 50)) = Ok res
          /\ aligned res) ->
  exists o,
    value (Search.run_search_logic env db_path user_query num_k
                                   selected_sources) = Ok o
    /\ (o = Search.Warning "No results returned from the selected sources."
        \/ exists top_hits, o = Search.Results top_hits).
Proof.
  intros Hsel Hq Hk Hpos Hv Hstore.
  pose proof (info_is_never_returned env db_path user_query num_k
                selected_sources "No matches found.") as Hinfo.
  rewrite (run_search_logic_valid _ _ _ _ _ k v) in * by assumption.
  destruct (for_each_total (Search.retrieve_into env db_path v k)
              selected_sources []) as [rbc Hloop].
  { intros acc name Hname. rewrite retrieve_into_value.
    destruct (Hstore name Hname) as (-> & res & Hres & _).
    unfold clamp. rewrite Hres. simpl. eauto. }
  rewrite Hloop in *. cbn [rbind] in *.
  pose proof (retrieval_loop_collects _ _ _ _ _ _ Hloop) as Hrbc.
  unfold merge_outcome in *.
  destruct rbc as [|item rbc]; [eexists; split; [reflexivity|now left]|].
  assert (Haligned : Forall (fun item : string * QueryResult => aligned item.2)
                            (item :: rbc)).
  { eapply Forall_impl; [exact Hrbc|].
    intros [name res] (Hname & _ & Hres & _). cbn [fst snd] in *.
    destruct (Hstore name Hname) as (_ & res' & Hres' & Hal).
    unfold clamp in Hres. rewrite Hres' in Hres. now injection Hres as <-. }
  destruct (get_sources_from (item :: rbc) []) as [Hto _].
  unfold Search.get_sources in *. rewrite (Hto Haligned) in *.
  cbn [rbind] in *.
  destruct (Search.get_top_k_sources _ k) as [|s top];
    [now destruct Hinfo|].
  eexists. split; [reflexivity|]. right. eauto.
Qed.

Lemma search_returns_when_the_store_answers_witness :
  exists o,
    value (Search.run_search_logic Samples.library "db" "a question" "3"
                                   ["paperA"; "blank"]) = Ok o
    /\ (o = Search.Warning "No results returned from the selected sources."
        \/ exists top_hits, o = Search.Results top_hits).
Proof.
  refine (search_returns_when_the_store_answers Samples.library
            "db" "a question" "3" ["paperA"; "blank"] 3 [1%Q]
            _ _ eq_refl eq_refl eq_refl _); try discriminate.
  intros name Hname. split; [reflexivity|].
  apply elem_of_cons in Hname as [->|Hname];
    [|apply list_elem_of_singleton in Hname as ->].
  - exists (Samples.answer [("a0", 10 # 100); ("a1", 30 # 100)]).
    split; [reflexivity|].
    intros _ i Hi. change (i < 2)%nat in Hi.
    destruct i as [|[|i]]; [now eexists..|lia].
  - exists (Samples.answer []). split; [reflexivity|].
    intros H. discriminate H.
Defined.

(* ====================================================================== *)
(** * The text carried over a page boundary *)
(* ====================================================================== *)

Lemma substring_all (n : nat) (s : string) :
  (String.length s <= n)%nat -> substring 0 n s = s.
Proof.
  revert n. induction s as [|c s IH]; intros n Hn; [now destruct n|].
  destruct n as [|n]; simpl in *; [lia|].
  rewrite IH; [reflexivity|lia].
Qed.

Lemma substring_suffix (s : string) (k n : nat) :
  (k <= String.length s)%nat -> (String.length s <= k + n)%nat ->
  exists pre, s = pre +:+ substring k n s /\ String.length pre = k.
Proof.
  revert k. induction s as [|c s IH]; intros k Hk Hn.
  - exists EmptyString. simpl in Hk. assert (k = 0%nat) as -> by lia.
    now destruct n.
  - destruct k as [|k].
    + exists EmptyString. split; [|reflexivity].
      rewrite substring_all by (simpl in *; lia). reflexivity.
    + simpl in Hk, Hn. destruct (IH k) as (pre & Hpre & Hlen); [lia..|].
      exists (String c pre). simpl. rewrite append_cons.
      split; [now rewrite <- Hpre|now rewrite Hlen].
Qed.

Lemma length_append_string (a b : string) :
  String.length (a +:+ b) = (String.length a + String.length b)%nat.
Proof.
  induction a as [|c a IH]; [reflexivity|].
  rewrite append_cons. simpl. now rewrite IH.
Qed.

(** [s[-n:]] is the end of [s], of length [min(n, len(s))]. *)
Lemma last_chars_suffix (n : nat) (s : string) :
  exists pre,
    s = pre +:+ last_chars n s
    /\ String.length (last_chars n s) = Nat.min n (String.length s).
Proof.
  unfold last_chars.
  destruct (substring_suffix s (String.length s - n) n) as (pre & Hpre & Hlen);
    [lia..|].
  exists pre. split; [exact Hpre|].
  apply (f_equal String.length) in Hpre.
  rewrite length_append_string in Hpre. lia.
Qed.

(** X21.  What is prepended to the text of a later page is an end piece of
    the text of the page before it in the page list: all of it when it has
    at most 300 characters, its last 300 characters otherwise; a single
    space separates it from the page's own text. *)
Theorem carried_text_is_the_end_of_the_previous_page (env : Upload.Env)
  (filename : string) (doc : option (list string)) (i : nat)
  (prev page : Upload.Page) :
  let pages := Upload.load_pdf_pages env filename doc in
  pages !! i = Some prev -> pages !! S i = Some page ->
  exists carried before,
    trace (Upload.document_chunks env filename doc) !! S i
    = Some (SplitCall (carried +:+ " " +:+ Upload.text page))
    /\ Upload.text prev = before +:+ carried
    /\ String.length carried
       = Nat.min 300 (String.length (Upload.text prev)).
Proof.
  intros pages Hprev Hpage.
  pose proof (document_chunks_spec env filename doc) as Hspec.
  cbv zeta in Hspec. fold pages in Hspec. rewrite Hspec.
  destruct (last_chars_suffix 300 (Upload.text prev)) as (before & Hpre & Hlen).
  exists (last_chars 300 (Upload.text prev)), before.
  split; [|split; [exact Hpre|exact Hlen]].
  cbn [trace snd]. rewrite <- (map_map (Chunking.submitted pages) SplitCall).
  rewrite list_lookup_fmap, submitted_lookup, Hpage.
  unfold Chunking.submitted. simpl. now rewrite Hprev.
Qed.

Lemma carried_text_is_the_end_of_the_previous_page_witness :
  exists carried before,
    trace (Upload.document_chunks Samples.whole_text "paper" sample_document)
    !! 1%nat
    = Some (SplitCall (carried +:+ " " +:+ "third page"))
    /\ "first page" = before +:+ carried
    /\ String.length carried = Nat.min 300 (String.length "first page").
Proof.
  exact (carried_text_is_the_end_of_the_previous_page Samples.whole_text
           "paper" sample_document 0%nat
           (Chunking.page_of Samples.whole_text "paper" (0%nat, "first page"))
           (Chunking.page_of Samples.whole_text "paper" (2%nat, "third page"))
           eq_refl eq_refl).
Defined.

(* ====================================================================== *)
(** * A collection selected more than once *)
(* ====================================================================== *)

Lemma first_occurrences_elem (names : list string) (name : string) :
  name ∈ first_occurrences names <-> name ∈ names.
Proof.
  induction names as [|x rest IH]; [reflexivity|].
  cbn [first_occurrences]. rewrite !elem_of_cons, <- IH.
  assert (name ∈ List.filter (fun other => negb (String.eqb other x))
                             (first_occurrences rest)
          <-> name ∈ first_occurrences rest /\ name <> x) as ->.
  { rewrite !list_elem_of_In, filter_In, negb_true_iff, String.eqb_neq.
    reflexivity. }
  destruct (String.eqb_spec name x) as [->|Hne]; tauto.
Qed.

Lemma first_occurrences_NoDup (names : list string) :
  NoDup (first_occurrences names).
Proof.
  induction names as [|x rest IH]; [constructor|].
  cbn [first_occurrences]. constructor.
  - rewrite list_elem_of_In, filter_In. intros [_ H].
    now rewrite String.eqb_refl in H.
  - apply NoDup_ListNoDup, List.NoDup_filter, NoDup_ListNoDup, IH.
Qed.

Lemma dict_set_idem {V : Type} (k : string) (v : V) (d : list (string * V)) :
  dict_set k v (dict_set k v d) = dict_set k v d.
Proof.
  induction d as [|[k' v'] r IH]; simpl.
  - now rewrite String.eqb_refl.
  - destruct (String.eqb k' k) eqn:E; simpl; rewrite E; [reflexivity|].
    now rewrite IH.
Qed.

Lemma dict_set_absorbed {V : Type} (x y : string) (v w : V)
  (d : list (string * V)) :
  x <> y -> dict_set x v d = d ->
  dict_set x v (dict_set y w d) = dict_set y w d.
Proof.
  intros Hne. induction d as [|[k' v'] r IH]; simpl; [discriminate|].
  destruct (String.eqb k' x) eqn:Ex.
  - intros H. injection H as ->.
    apply String.eqb_eq in Ex as ->.
    destruct (String.eqb x y) eqn:Ey; [now apply String.eqb_eq in Ey|].
    simpl. now rewrite String.eqb_refl.
  - intros H. injection H as H.
    destruct (String.eqb k' y) eqn:Ey; simpl; rewrite Ex; [now rewrite H|].
    now rewrite IH.
Qed.

Section Repetitions.
Context (env : Search.Env) (db_path : string) (v : vector) (k : Z).

Let body := Search.retrieve_into env db_path v k.

(** An iteration for [name] would leave [acc] as it is. *)
Let absorbed (name : string) (acc : list (string * QueryResult)) : Prop :=
  value (body acc name) = Ok acc.

Lemma retrieve_into_absorbs (acc acc' : list (string * QueryResult))
  (name : string) :
  value (body acc name) = Ok acc' -> absorbed name acc'.
Proof.
  unfold absorbed, body. rewrite !retrieve_into_value.
  destruct (Search.get_or_create_collection env db_path name) as [[]|e];
    [|discriminate].
  cbn [rbind].
  destruct (Search.query env db_path name v (clamp k)) as [res|e];
    [|discriminate].
  cbn [rbind]. intros H. injection H as <-.
  destruct (Search.has_hits res); [|reflexivity].
  now rewrite dict_set_idem.
Qed.

Lemma retrieve_into_keeps_absorbed (acc acc' : list (string * QueryResult))
  (x y : string) :
  absorbed x acc -> value (body acc y) = Ok acc' -> absorbed x acc'.
Proof.
  destruct (String.eqb_spec x y) as [->|Hne].
  { intros _. apply retrieve_into_absorbs. }
  unfold absorbed, body. rewrite !retrieve_into_value.
  destruct (Search.get_or_create_collection env db_path x) as [[]|e];
    [|discriminate].
  destruct (Search.get_or_create_collection env db_path y) as [[]|e];
    [|discriminate].
  cbn [rbind].
  destruct (Search.query env db_path x v (clamp k)) as [rx|e]; [|discriminate].
  destruct (Search.query env db_path y v (clamp k)) as [ry|e]; [|discriminate].
  cbn [rbind]. intros Hx Hy. injection Hx as Hx. injection Hy as <-.
  destruct (Search.has_hits rx), (Search.has_hits ry); try congruence.
  now rewrite dict_set_absorbed.
Qed.

Lemma retrieval_loop_skips_absorbed (names : list string) (x : string)
  (acc : list (string * QueryResult)) :
  absorbed x acc ->
  value (for_each body
           (List.filter (fun other => negb (String.eqb other x)) names) acc)
  = value (for_each body names acc).
Proof.
  revert acc. induction names as [|y rest IH]; intros acc Habs; [reflexivity|].
  cbn [List.filter]. destruct (String.eqb_spec y x) as [->|Hne]; cbn [negb].
  - rewrite IH by exact Habs. cbn [for_each]. rewrite value_bind.
    unfold absorbed in Habs. now rewrite Habs.
  - cbn [for_each]. rewrite !value_bind.
    destruct (value (body acc y)) as [acc'|e] eqn:Ey; [|reflexivity].
    cbn [rbind]. apply IH. now apply (retrieve_into_keeps_absorbed acc acc' x y).
Qed.

Lemma retrieval_loop_first_occurrences (names : list string)
  (acc : list (string * QueryResult)) :
  value (for_each body (first_occurrences names) acc)
  = value (for_each body names acc).
Proof.
  revert acc. induction names as [|x rest IH]; intros acc; [reflexivity|].
  cbn [first_occurrences for_each]. rewrite !value_bind.
  destruct (value (body acc x)) as [acc'|e] eqn:Ex; [|reflexivity].
  cbn [rbind]. rewrite retrieval_loop_skips_absorbed; [apply IH|].
  now apply (retrieve_into_absorbs acc).
Qed.

End Repetitions.

(** X22.  Selecting a collection more than once does not change what the
    search returns or raises: the outcome is that of the selection without
    its repetitions, every collection standing where it is selected first
    (its answer is stored under its name, so a later answer for the same
    name takes the place of the earlier one). *)
Theorem repeated_selection_changes_nothing (env : Search.Env)
  (db_path user_query num_k : string) (selected_sources : list string) :
  value (Search.run_search_logic env db_path user_query num_k
                                 selected_sources)
  = value (Search.run_search_logic env db_path user_query num_k
                                   (first_occurrences selected_sources))
  /\ NoDup (first_occurrences selected_sources)
  /\ forall name,
       name ∈ first_occurrences selected_sources <-> name ∈ selected_sources.
Proof.
  split; [|split; [apply first_occurrences_NoDup
                  |intros name; apply first_occurrences_elem]].
  destruct selected_sources as [|x rest]; [reflexivity|].
  unfold Search.run_search_logic. cbn [first_occurrences].
  destruct (negb (str_bool (strip user_query))); [reflexivity|].
  destruct (Search.positive_int env num_k) as [k|]; [|reflexivity].
  rewrite !search_valid_value.
  destruct (value (Search.embed_query env user_query)) as [[v|]|e];
    cbn [rbind]; try reflexivity.
  f_equal. symmetry.
  exact (retrieval_loop_first_occurrences env db_path v k (x :: rest) []).
Qed.

(* ====================================================================== *)
(** * Chunk ids of a cleaned document *)
(* ====================================================================== *)








